(** * CrystalBot: the exchange state mirror, Gueant quoting and the drawdown guard

    A shallow embedding of
      - lib/src/exchange/Exchange.ts        (the exchange state mirror),
      - lib/src/trading/GeometricBrownianMotion (computeQuote, computeTerms),
      - job/src/jobs/UpdateTradingAgent.ts  (checkDrawdown),
    followed by the properties the specification states about them.

    Modelling conventions.
      - A JavaScript [number] is an exact rational extended with +Infinity,
        -Infinity and NaN (type [JS.number]).  Arithmetic, comparisons,
        [Math.min]/[Math.max] and truthiness follow IEEE-754 on these four
        kinds of values; rounding is not modelled and the two zeros are
        identified.
      - Objects used as dictionaries are [gmap string _].
      - An async method is a computation in the monad [M]: it threads the
        exchange object and either returns a value or throws.  State changes
        made before a throw persist, as they do in the source.
      - [Date.now()] and the random order id are inputs of the operation that
        reads them. *)

From Stdlib Require Import QArith Qminmax Lqa Lia Ascii String.
From stdpp Require Import base option strings list gmap fin_maps.

Set Default Proof Using "Type".
Local Open Scope Q_scope.

(* ================================================================== *)
(** ** JavaScript numbers *)
(* ================================================================== *)

Module JS.

Inductive number : Type :=
| Fin (q : Q)
| PInf
| NInf
| NaN.

Definition Qlt_bool (a b : Q) : bool := negb (Qle_bool b a).

(** Sign of a value as a [comparison] against zero: [Gt] positive,
    [Lt] negative, [Eq] zero. *)
Definition Qsign (q : Q) : comparison := q ?= 0.

Definition sign_mul (a b : comparison) : comparison :=
  match a, b with
  | Eq, _ | _, Eq => Eq
  | Gt, Gt | Lt, Lt => Gt
  | Gt, Lt | Lt, Gt => Lt
  end.

(** The infinity of a given sign; a zero sign stands for the undefined
    forms (0 * Infinity, 0 / 0). *)
Definition inf_of_sign (c : comparison) : number :=
  match c with Gt => PInf | Lt => NInf | Eq => NaN end.

Definition sign (x : number) : comparison :=
  match x with
  | Fin q => Qsign q
  | PInf => Gt
  | NInf => Lt
  | NaN => Eq
  end.

Definition neg (x : number) : number :=
  match x with
  | Fin q => Fin (- q)
  | PInf => NInf
  | NInf => PInf
  | NaN => NaN
  end.

Definition add (x y : number) : number :=
  match x, y with
  | NaN, _ | _, NaN => NaN
  | Fin a, Fin b => Fin (a + b)
  | PInf, NInf | NInf, PInf => NaN
  | PInf, _ | _, PInf => PInf
  | NInf, _ | _, NInf => NInf
  end.

Definition sub (x y : number) : number := add x (neg y).

Definition mul (x y : number) : number :=
  match x, y with
  | NaN, _ | _, NaN => NaN
  | Fin a, Fin b => Fin (a * b)
  | _, _ => inf_of_sign (sign_mul (sign x) (sign y))
  end.

Definition div (x y : number) : number :=
  match x, y with
  | NaN, _ | _, NaN => NaN
  | Fin a, Fin b =>
      if Qeq_bool b 0 then inf_of_sign (Qsign a) else Fin (a / b)
  | Fin _, _ => Fin 0
  | _, Fin b =>
      inf_of_sign (sign_mul (sign x) (if Qeq_bool b 0 then Gt else Qsign b))
  | _, _ => NaN
  end.

(** [x < y] *)
Definition ltb (x y : number) : bool :=
  match x, y with
  | NaN, _ | _, NaN => false
  | Fin a, Fin b => Qlt_bool a b
  | NInf, NInf => false
  | NInf, _ => true
  | _, PInf => match x with PInf => false | _ => true end
  | _, _ => false
  end.

(** [x <= y] *)
Definition leb (x y : number) : bool :=
  match x, y with
  | NaN, _ | _, NaN => false
  | Fin a, Fin b => Qle_bool a b
  | NInf, _ => true
  | _, PInf => true
  | _, _ => false
  end.

Definition gtb (x y : number) : bool := ltb y x.
Definition geb (x y : number) : bool := leb y x.

(** [x === y] *)
Definition eqb (x y : number) : bool :=
  match x, y with
  | Fin a, Fin b => Qeq_bool a b
  | PInf, PInf | NInf, NInf => true
  | _, _ => false
  end.

Definition is_nan (x : number) : bool :=
  match x with NaN => true | _ => false end.

(** [Math.min(x, y)] and [Math.max(x, y)]: NaN as soon as an argument is. *)
Definition min (x y : number) : number :=
  if is_nan x || is_nan y then NaN else if leb x y then x else y.

Definition max (x y : number) : number :=
  if is_nan x || is_nan y then NaN else if leb x y then y else x.

(** Truthiness of a number: everything but 0 and NaN. *)
Definition truthy (x : number) : bool :=
  match x with
  | Fin q => negb (Qeq_bool q 0)
  | NaN => false
  | _ => true
  end.

(** [x || d] on numbers. *)
Definition or_else (x d : number) : number := if truthy x then x else d.

(** A possibly [undefined] number. [undefined] converts to NaN in
    arithmetic and comparisons and is falsy. *)
Definition toNumber (x : option number) : number := default NaN x.

Definition truthy_opt (x : option number) : bool :=
  match x with Some v => truthy v | None => false end.

(** [x || d] where [x] may be undefined. *)
Definition opt_or_else (x : option number) (d : number) : number :=
  match x with Some v => or_else v d | None => d end.

Definition is_fin (x : number) : Prop :=
  match x with Fin _ => True | _ => False end.

(** Equality of values (rationals up to [Qeq]). *)
Definition num_eq (x y : number) : Prop :=
  match x, y with
  | Fin a, Fin b => a == b
  | PInf, PInf | NInf, NInf | NaN, NaN => True
  | _, _ => False
  end.

End JS.

Import JS.

Declare Scope js_scope.
Delimit Scope js_scope with js.
Infix "+" := add : js_scope.
Infix "-" := sub : js_scope.
Infix "*" := mul : js_scope.
Infix "/" := div : js_scope.
Infix "<?" := ltb : js_scope.
Infix "<=?" := leb : js_scope.
Infix ">?" := gtb : js_scope.
Infix ">=?" := geb : js_scope.
Infix "===" := eqb (at level 70) : js_scope.
Infix "≈" := num_eq (at level 70) : js_scope.

Coercion Fin : Q >-> number.

(* ================================================================== *)
(** ** Strings: [split("/")] and keys *)
(* ================================================================== *)

(** [s.split("/")] *)
Fixpoint split_slash_aux (acc : string) (s : string) : list string :=
  match s with
  | EmptyString => [String.rev acc]
  | String c r =>
      if Ascii.eqb c "/"%char
      then String.rev acc :: split_slash_aux EmptyString r
      else split_slash_aux (String c acc) r
  end.

Definition split_slash (s : string) : list string :=
  split_slash_aux EmptyString s.

(** [s.indexOf("/") >= 0] *)
Fixpoint has_slash (s : string) : bool :=
  match s with
  | EmptyString => false
  | String c r => Ascii.eqb c "/"%char || has_slash r
  end.

(** An array element used as a property key: a missing element is
    [undefined], which as a key is the string "undefined". *)
Definition key_at (l : list string) (i : nat) : string :=
  default "undefined"%string (l !! i).

(** An optional string argument used as a property key or inside a
    template string. *)
Definition key_of (m : option string) : string :=
  default "undefined"%string m.

Definition baseCurrencyOf (market : string) : string :=
  key_at (split_slash market) 0.
Definition quoteCurrencyOf (market : string) : string :=
  key_at (split_slash market) 1.

(* ================================================================== *)
(** ** Data model *)
(* ================================================================== *)

Module Data.

(** OrderSide ("buy" / "sell") and OrderType ("limit" / "market"). *)
Inductive OrderSide := Buy | Sell.
Inductive OrderType := Limit | Market.

Global Instance OrderSide_eq_dec : EqDecision OrderSide.
Proof. solve_decision. Defined.
Global Instance OrderType_eq_dec : EqDecision OrderType.
Proof. solve_decision. Defined.

Definition side_name (s : OrderSide) : string :=
  match s with Buy => "buy" | Sell => "sell" end.
Definition type_name (t : OrderType) : string :=
  match t with Limit => "limit" | Market => "market" end.

(** IOrder.  Optional fields are [option]s; [metadata] is left out. *)
Record IOrder := mkOrder {
  id : string;
  timestamp : number;
  timestampClosed : option number;
  status : string;
  market : string;
  type : OrderType;
  side : OrderSide;
  price : number;
  amount : number;
  fee : number;
  filled : number;
  remaining : number;
  autoCancel : option number;
  autoCancelAtFillPercentage : option number;
  autoCancelAtPriceLevel : option number;
  sticky : option bool
}.

Definition set_timestampClosed (v : option number) (o : IOrder) : IOrder :=
  mkOrder (id o) (timestamp o) v (status o) (market o) (type o) (side o)
          (price o) (amount o) (fee o) (filled o) (remaining o) (autoCancel o)
          (autoCancelAtFillPercentage o) (autoCancelAtPriceLevel o) (sticky o).

Definition set_id (v : string) (o : IOrder) : IOrder :=
  mkOrder v (timestamp o) (timestampClosed o) (status o) (market o) (type o)
          (side o) (price o) (amount o) (fee o) (filled o) (remaining o)
          (autoCancel o) (autoCancelAtFillPercentage o)
          (autoCancelAtPriceLevel o) (sticky o).

Definition set_amount (v : number) (o : IOrder) : IOrder :=
  mkOrder (id o) (timestamp o) (timestampClosed o) (status o) (market o)
          (type o) (side o) (price o) v (fee o) (filled o) (remaining o)
          (autoCancel o) (autoCancelAtFillPercentage o)
          (autoCancelAtPriceLevel o) (sticky o).

(** [Object.assign(order, { status, filled, remaining })] *)
Definition set_fill (st : string) (f r : number) (o : IOrder) : IOrder :=
  mkOrder (id o) (timestamp o) (timestampClosed o) st (market o) (type o)
          (side o) (price o) (amount o) (fee o) f r (autoCancel o)
          (autoCancelAtFillPercentage o) (autoCancelAtPriceLevel o) (sticky o).

(** [Object.assign(order, { status, filled, remaining, fee })] *)
Definition set_remote_fields (c : IOrder) (o : IOrder) : IOrder :=
  mkOrder (id o) (timestamp o) (timestampClosed o) (status c) (market o)
          (type o) (side o) (price o) (amount o) (fee c) (filled c)
          (remaining c) (autoCancel o) (autoCancelAtFillPercentage o)
          (autoCancelAtPriceLevel o) (sticky o).

(** The string-or-number [autoCancel] option of ICreateOrderOptions. *)
Inductive AutoCancel :=
| ACMs (n : number)
| ACPeriod (s : string).

Definition autoCancel_truthy (a : option AutoCancel) : bool :=
  match a with
  | None => false
  | Some (ACMs n) => truthy n
  | Some (ACPeriod s) => negb (String.eqb s "")
  end.

Record ICreateOrderOptions := mkOptions {
  o_market : string;
  o_type : OrderType;
  o_side : OrderSide;
  o_amount : number;
  o_price : option number;
  o_autoCancel : option AutoCancel;
  (** [None]: the key is absent; [Some None]: the key is there and holds
      [undefined], which [Object.assign] copies over the default. *)
  o_autoCancelAtFillPercentage : option (option number);
  o_autoCancelAtPriceLevel : option number;
  o_sticky : option bool
}.

(** IBalance as stored in the state. *)
Record IBalance := mkIBalance { free : number; used : number }.

(** The Balance value class: raw free and used amounts and the locked
    part. *)
Record Balance := mkBalance {
  _free : number;
  _used : number;
  _locked : number
}.

Definition Balance_free (b : Balance) : number :=
  max (Fin 0) (_free b - _locked b)%js.
Definition Balance_used (b : Balance) : number := _used b.
Definition Balance_locked (b : Balance) : number := _locked b.
Definition Balance_total (b : Balance) : number :=
  (Balance_free b + Balance_used b)%js.

(** A ticker row: [timestamp, bid, ask, last, baseVolume, quoteVolume]. *)
Record Ticker := mkTicker {
  t_timestamp : number;
  bid : number;
  ask : number;
  last : number;
  baseVolume : number;
  quoteVolume : number
}.

(** A candle row: [timestamp, open, high, low, close, volume]. *)
Record Candle := mkCandle {
  c_timestamp : number;
  c_open : number;
  high : number;
  low : number;
  c_close : number;
  volume : number
}.

(** IOrderBook: each entry is a [price, amount] pair. *)
Record IOrderBook := mkOrderBook {
  bids : list (number * number);
  asks : list (number * number)
}.

(** IExchangeState.  The fields no modelled method reads or writes
    (exchangeName, trades, the last-sync stamps, maxSyncAge, logLevel,
    rateLimit) are left out. *)
Record IExchangeState := mkState {
  simulation : bool;
  reserves : gmap string number;
  minDealAmounts : gmap string number;
  fee_rate : number;
  fiatCurrency : string;
  forceAutoCancel : bool;
  lockdown : bool;
  cancelledOrders : gmap string IOrder;
  closedOrders : gmap string IOrder;
  openOrders : gmap string IOrder;
  balances : gmap string IBalance;
  tickers : gmap string Ticker;
  orderBooks : gmap string IOrderBook
}.

Definition set_cancelledOrders (f : gmap string IOrder -> gmap string IOrder)
    (s : IExchangeState) : IExchangeState :=
  mkState (simulation s) (reserves s) (minDealAmounts s) (fee_rate s)
          (fiatCurrency s) (forceAutoCancel s) (lockdown s)
          (f (cancelledOrders s)) (closedOrders s) (openOrders s)
          (balances s) (tickers s) (orderBooks s).

Definition set_closedOrders (f : gmap string IOrder -> gmap string IOrder)
    (s : IExchangeState) : IExchangeState :=
  mkState (simulation s) (reserves s) (minDealAmounts s) (fee_rate s)
          (fiatCurrency s) (forceAutoCancel s) (lockdown s)
          (cancelledOrders s) (f (closedOrders s)) (openOrders s)
          (balances s) (tickers s) (orderBooks s).

Definition set_openOrders (f : gmap string IOrder -> gmap string IOrder)
    (s : IExchangeState) : IExchangeState :=
  mkState (simulation s) (reserves s) (minDealAmounts s) (fee_rate s)
          (fiatCurrency s) (forceAutoCancel s) (lockdown s)
          (cancelledOrders s) (closedOrders s) (f (openOrders s))
          (balances s) (tickers s) (orderBooks s).

Definition set_balances (f : gmap string IBalance -> gmap string IBalance)
    (s : IExchangeState) : IExchangeState :=
  mkState (simulation s) (reserves s) (minDealAmounts s) (fee_rate s)
          (fiatCurrency s) (forceAutoCancel s) (lockdown s)
          (cancelledOrders s) (closedOrders s) (openOrders s)
          (f (balances s)) (tickers s) (orderBooks s).

Definition set_tickers (f : gmap string Ticker -> gmap string Ticker)
    (s : IExchangeState) : IExchangeState :=
  mkState (simulation s) (reserves s) (minDealAmounts s) (fee_rate s)
          (fiatCurrency s) (forceAutoCancel s) (lockdown s)
          (cancelledOrders s) (closedOrders s) (openOrders s)
          (balances s) (f (tickers s)) (orderBooks s).

Definition set_orderBooks
    (f : gmap string IOrderBook -> gmap string IOrderBook)
    (s : IExchangeState) : IExchangeState :=
  mkState (simulation s) (reserves s) (minDealAmounts s) (fee_rate s)
          (fiatCurrency s) (forceAutoCancel s) (lockdown s)
          (cancelledOrders s) (closedOrders s) (openOrders s)
          (balances s) (tickers s) (f (orderBooks s)).

(** The remote exchange client (ICcxtExchange).  Each asynchronous call
    is the answer the remote gives: [None] is a rejected promise. *)
Record ICcxtExchange := mkRemote {
  r_getMinDealAmount : string -> number;
  r_fetchOpenOrders : option string -> option (list IOrder);
  r_fetchTickers : option (list string) -> option (gmap string Ticker);
  r_fetchOrderBook : list string -> option (gmap string IOrderBook);
  r_createOrder :
    string -> OrderType -> OrderSide -> number -> number -> option string;
  r_cancelOrder : IOrder -> bool;
  (** market, timeframe, since, limit, cleanData; the answer may be null *)
  r_retrieveCandles :
    string -> option string -> option number -> option number -> bool ->
    option (option (list Candle))
}.

(** Payload of the events handed to [post]. *)
Inductive EventData :=
| EvOrderCreated (order : IOrder)
    (quoteBalanceBefore baseBalanceBefore : Balance)
    (quoteBalanceAfter baseBalanceAfter : Balance)
| EvOrder (order : IOrder)
    (quoteBalanceBefore baseBalanceBefore : option Balance)
    (quoteBalanceAfter baseBalanceAfter : Balance)
| EvDrawdown (peak currentTotal : number) (balance : gmap string Balance).

Record IEvent := mkEvent { ev_type : string; ev_data : EventData }.

(** An Exchange object: the mirrored state, the optional remote client,
    the dry-run flag, the events handed to [post] so far (most recent
    first) and the number of order ids generated so far. *)
Record Exchange := mkExchange {
  _state : IExchangeState;
  _exchange : option ICcxtExchange;
  _dryRun : bool;
  posted : list IEvent;
  generated : nat
}.

Definition set_state (f : IExchangeState -> IExchangeState) (e : Exchange)
    : Exchange :=
  mkExchange (f (_state e)) (_exchange e) (_dryRun e) (posted e) (generated e).

Definition _slippage : number := Fin 0.01.

(** What an operation reads from outside the object: the clock, the
    random order ids (the n-th generated id) and MathHelper.periodToMs. *)
Record Env := mkEnv {
  currentTime : number;
  orderIds : nat -> string;
  periodToMs : string -> number
}.

End Data.

Import Data.

(* ================================================================== *)
(** ** The monad of exchange methods *)
(* ================================================================== *)

Inductive outcome (A : Type) : Type :=
| Return (a : A)
| Throw (msg : string).
Arguments Return {A} a.
Arguments Throw {A} msg.

(** A method runs on the object and leaves an outcome and the object as
    it stands then (also after a throw). *)
Definition M (A : Type) : Type := Exchange -> outcome A * Exchange.

Definition ret {A} (a : A) : M A := fun e => (Return a, e).
Definition throw {A} (msg : string) : M A := fun e => (Throw msg, e).

Definition bind {A B} (c : M A) (k : A -> M B) : M B :=
  fun e =>
    match c e with
    | (Return a, e1) => k a e1
    | (Throw msg, e1) => (Throw msg, e1)
    end.

Notation "x <- c ;; k" := (bind c (fun x => k))
  (at level 100, c at next level, right associativity).
Notation "c ;;; k" := (bind c (fun _ => k))
  (at level 100, right associativity).

Definition get : M Exchange := fun e => (Return e, e).
Definition gets {A} (f : IExchangeState -> A) : M A :=
  fun e => (Return (f (_state e)), e).
Definition modify (f : IExchangeState -> IExchangeState) : M unit :=
  fun e => (Return tt, set_state f e).

(** [try { c } catch (error) { h }] *)
Definition try_catch {A} (c : M A) (h : string -> M A) : M A :=
  fun e =>
    match c e with
    | (Return a, e1) => (Return a, e1)
    | (Throw msg, e1) => h msg e1
    end.

(** [Promise.all(l.map(f))] for calls that do not suspend: every call is
    made, in order, whatever the earlier ones did; the result rejects with
    the first rejection. *)
Fixpoint promise_all {A B} (f : A -> M B) (l : list A) : M (list B) :=
  match l with
  | [] => ret []
  | x :: r =>
      fun e =>
        let '(o1, e1) := f x e in
        let '(o2, e2) := promise_all f r e1 in
        (match o1, o2 with
         | Return b, Return bs => Return (b :: bs)
         | Throw msg, _ => Throw msg
         | Return _, Throw msg => Throw msg
         end, e2)
  end.

(** [post(type, data)]: the event is recorded on the object. *)
Definition post (ty : string) (data : EventData) : M unit :=
  fun e =>
    (Return tt,
     mkExchange (_state e) (_exchange e) (_dryRun e)
                (mkEvent ty data :: posted e) (generated e)).

(** [_generateOrderId()]: the next random id. *)
Definition _generateOrderId (env : Env) : M string :=
  fun e =>
    (Return (orderIds env (generated e)),
     mkExchange (_state e) (_exchange e) (_dryRun e) (posted e)
                (S (generated e))).

(* ================================================================== *)
(** ** Exchange.ts: balance accounting *)
(* ================================================================== *)

(** [if (!balances[currency]) balances[currency] = { free: 0, used: 0 }] *)
Definition ensure_balance (currency : string) (s : IExchangeState)
    : IExchangeState :=
  match balances s !! currency with
  | Some _ => s
  | None => set_balances (insert currency (mkIBalance (Fin 0) (Fin 0))) s
  end.

Definition _deposit (currency : string) (amount : number)
    (s : IExchangeState) : IExchangeState :=
  set_balances
    (alter (fun b => mkIBalance (free b + amount)%js (used b)) currency)
    (ensure_balance currency s).

Definition _withdraw (currency : string) (amount : number)
    (s : IExchangeState) : IExchangeState :=
  set_balances
    (alter (fun b => mkIBalance (free b - amount)%js (used b)) currency)
    (ensure_balance currency s).

Definition _withdrawFromUsed (currency : string) (amount : number)
    (s : IExchangeState) : IExchangeState :=
  set_balances
    (alter (fun b => mkIBalance (free b) (used b - amount)%js) currency)
    (ensure_balance currency s).

Definition _reserve (currency : string) (amount : number)
    (s : IExchangeState) : IExchangeState :=
  let s1 := ensure_balance currency s in
  let reserve := opt_or_else (reserves s1 !! currency) (Fin 0) in
  set_balances
    (alter (fun balance =>
              let amount :=
                min amount (max (free balance - reserve)%js (Fin 0)) in
              mkIBalance (free balance - amount)%js (used balance + amount)%js)
           currency)
    s1.

Definition _release (currency : string) (amount : number)
    (s : IExchangeState) : IExchangeState :=
  set_balances
    (alter (fun b =>
              let amount := min amount (used b) in
              mkIBalance (free b + amount)%js (used b - amount)%js)
           currency)
    (ensure_balance currency s).

Definition getMinDealAmount (market : string) : M number :=
  e <- get ;;
  match minDealAmounts (_state e) !! market with
  | Some v =>
      if truthy v then ret v
      else match _exchange e with
           | Some r => ret (r_getMinDealAmount r market)
           | None => ret (Fin 1)
           end
  | None =>
      match _exchange e with
      | Some r => ret (r_getMinDealAmount r market)
      | None => ret (Fin 1)
      end
  end.

(** [getBalance(currencyOrMarket)]: creates the entry when it is missing
    and returns a Balance whose locked part is the reserve, at most the
    free amount. *)
Definition getBalance (currencyOrMarket : string) : M Balance :=
  let currency :=
    if has_slash currencyOrMarket
    then key_at (split_slash currencyOrMarket) 0
    else currencyOrMarket in
  modify (ensure_balance currency) ;;;
  s <- gets (fun s => s) ;;
  let b := default (mkIBalance (Fin 0) (Fin 0)) (balances s !! currency) in
  let locked := min (opt_or_else (reserves s !! currency) (Fin 0)) (free b) in
  ret (mkBalance (free b) (used b) (or_else locked (Fin 0))).

(** [getBalances(currenciesOrMarkets)] *)
Definition getBalances (currenciesOrMarkets : option (list string))
    : M (gmap string Balance) :=
  s <- gets (fun s => s) ;;
  let keys := default (map fst (map_to_list (balances s))) currenciesOrMarkets in
  bs <- promise_all (fun k => b <- getBalance k ;; ret (k, b)) keys ;;
  ret (foldl (fun m kb => <[fst kb := snd kb]> m) ∅ bs).

(** [getTickers(markets)] *)
Definition getTickers (markets : option (list string))
    : M (gmap string Ticker) :=
  s <- gets (fun s => s) ;;
  let markets := default (map fst (map_to_list (tickers s))) markets in
  ret (foldl (fun m k =>
                match tickers s !! k with
                | Some t => <[k := t]> m
                | None => m
                end) ∅ markets).

Definition getTicker (market : string) : M Ticker :=
  tickers <- getTickers (Some [market]) ;;
  match tickers !! market with
  | None => throw ("Unable to retrieve ticker for market " ++ market)
  | Some t => ret t
  end.

Definition getOrderBook (market : string) : M IOrderBook :=
  s <- gets (fun s => s) ;;
  ret (default (mkOrderBook [] []) (orderBooks s !! market)).

(* ================================================================== *)
(** ** Exchange.ts: orders *)
(* ================================================================== *)

(** Truthiness of an optional string argument. *)
Definition str_truthy (m : option string) : bool :=
  match m with
  | Some s => negb (String.eqb s "")
  | None => false
  end.

(** The millisecond value stored in [order.autoCancel]: a period string
    goes through periodToMs, everything else is kept (an empty string is
    as good as no value). *)
Definition autoCancelMs (env : Env) (a : option AutoCancel) : option number :=
  match a with
  | None => None
  | Some (ACMs n) => Some n
  | Some (ACPeriod s) =>
      if String.eqb s "" then None else Some (periodToMs env s)
  end.

Definition createOrder (env : Env) (options : ICreateOrderOptions)
    : M (option string) :=
  let market := o_market options in
  let autoCancel := o_autoCancel options in
  let type := o_type options in
  let side := o_side options in
  let amount := o_amount options in
  (* retrieve the ticker data for this market *)
  ticker <- getTicker market ;;
  (* set the defaults *)
  let price :=
    default (match side with Buy => bid ticker | Sell => ask ticker end)
            (o_price options) in
  let sticky := default false (o_sticky options) in
  let autoCancelAtFillPercentage :=
    default (Some (Fin 1)) (o_autoCancelAtFillPercentage options) in
  let autoCancelAtPriceLevel :=
    default (match side with Buy => PInf | Sell => Fin 0 end)
            (o_autoCancelAtPriceLevel options) in
  s <- gets (fun s => s) ;;
  if lockdown s then throw "Exchange is in lockdown mode." else
  if negb (autoCancel_truthy autoCancel) && forceAutoCancel s
  then throw "Autocancel value is obligatory." else
  (* market orders cannot be sticky *)
  let sticky :=
    if bool_decide (type = Market) && sticky then false else sticky in
  (* convert autocancel value to ms if needed *)
  let autoCancelMs := autoCancelMs env autoCancel in
  (* in case of market orders, the price becomes the ticker price *)
  let price :=
    match type with
    | Market => match side with Buy => ask ticker | Sell => bid ticker end
    | Limit => price
    end in
  if negb (truthy amount) || (amount <=? Fin 0)%js
  then throw ("[" ++ market ++ "] Order amount should be positive") else
  if negb (truthy price) || (price <=? Fin 0)%js
  then throw ("[" ++ market ++ "] Order should have a valid price") else
  (* retrieve the quote and base balances *)
  let quoteCurrency := quoteCurrencyOf market in
  let baseCurrency := baseCurrencyOf market in
  quoteBalance <- getBalance quoteCurrency ;;
  baseBalance <- getBalance baseCurrency ;;
  (* create the order object *)
  newId <- _generateOrderId env ;;
  let order :=
    mkOrder newId (currentTime env) None "open" market type side price amount
            (amount * fee_rate s)%js (Fin 0) amount autoCancelMs
            autoCancelAtFillPercentage (Some autoCancelAtPriceLevel)
            (Some sticky) in
  order <-
    match side with
    | Buy =>
        (* compute how much we can buy *)
        let order :=
          set_amount (min (price * amount)%js (Balance_free quoteBalance)
                      / price)%js order in
        match type with
        | Limit =>
            modify (_reserve quoteCurrency (Data.amount order * price)%js) ;;;
            ret order
        | Market =>
            modify (_withdraw quoteCurrency (amount * price)%js) ;;;
            modify (_deposit baseCurrency
                      (amount * (Fin 1 - fee_rate s) * (Fin 1 - _slippage))%js) ;;;
            ret order
        end
    | Sell =>
        (* compute how much we can sell *)
        let order := set_amount (min (Balance_free baseBalance) amount) order in
        match type with
        | Limit =>
            modify (_reserve baseCurrency (Data.amount order)) ;;;
            ret order
        | Market =>
            modify (_withdraw baseCurrency amount) ;;;
            modify (_deposit quoteCurrency
                      (price * amount * (Fin 1 - fee_rate s)
                       * (Fin 1 - _slippage))%js) ;;;
            ret order
        end
    end ;;
  e <- get ;;
  (* if this is not a simulation, actually create the order on the exchange *)
  let remote :=
    match _exchange e with
    | Some r =>
        if negb (simulation (_state e)) && negb (_dryRun e)
        then Some (r_createOrder r market type side amount price)
        else None
    | None => None
    end in
  match remote with
  | Some None => ret None
  | _ =>
      let order :=
        match remote with
        | Some (Some remoteId) => set_id remoteId order
        | _ => order
        end in
      (* save the order and return the order id *)
      modify (match type with
              | Market => set_closedOrders (insert (id order) order)
              | Limit => set_openOrders (insert (id order) order)
              end) ;;;
      quoteBalanceAfter <- getBalance quoteCurrency ;;
      baseBalanceAfter <- getBalance baseCurrency ;;
      post (type_name type ++ "_order_created")
           (EvOrderCreated order quoteBalance baseBalance
                           quoteBalanceAfter baseBalanceAfter) ;;;
      ret (Some (id order))
  end.

(** [cancelOrder(order)].  The object handed in is the one that ends up
    in the cancelled (and closed) records, so both records see the
    [timestampClosed] written through the closed one. *)
Definition cancelOrder (env : Env) (order : IOrder) : M unit :=
  e <- get ;;
  if lockdown (_state e) then throw "Exchange is in lockdown mode." else
  if negb (String.eqb (status order) "open")
  then throw "Cannot cancel orders that are already closed." else
  let quoteCurrency := quoteCurrencyOf (market order) in
  let baseCurrency := baseCurrencyOf (market order) in
  quoteBalance <- getBalance quoteCurrency ;;
  baseBalance <- getBalance baseCurrency ;;
  let remote_ok :=
    if negb (simulation (_state e)) && negb (_dryRun e)
    then match _exchange e with
         | Some r => r_cancelOrder r order
         | None => false
         end
    else true in
  if negb remote_ok then ret tt else
  match side order with
  | Buy =>
      (* compute how much of the quote currency was reserved *)
      let quotePrice := (price order * amount order)%js in
      modify (_release quoteCurrency quotePrice)
  | Sell => modify (_release baseCurrency (amount order))
  end ;;;
  (* if the order was partly filled, it is closed as well *)
  let partly := (filled order >? Fin 0)%js in
  let order' :=
    if partly then set_timestampClosed (Some (currentTime env)) order
    else order in
  (* move the order to the cancelled order record *)
  modify (set_cancelledOrders (insert (id order) order')) ;;;
  (if partly then modify (set_closedOrders (insert (id order) order'))
   else ret tt) ;;;
  (* delete the open order *)
  modify (set_openOrders (delete (id order))) ;;;
  quoteBalanceAfter <- getBalance quoteCurrency ;;
  baseBalanceAfter <- getBalance baseCurrency ;;
  post (type_name (type order) ++ "_order_cancelled")
       (EvOrder order' (Some quoteBalance) (Some baseBalance)
                quoteBalanceAfter baseBalanceAfter).

(** [Object.keys(orders)] followed by the lookups of the loop body. *)
Definition orders_of (m : gmap string IOrder) : list IOrder :=
  map snd (map_to_list m).

Definition getOpenOrders (market : option string) (side' : option OrderSide)
    (filter' : option (IOrder -> bool)) : M (list IOrder) :=
  s <- gets (fun s => s) ;;
  ret (List.filter
         (fun order =>
            negb (str_truthy market
                  && negb (String.eqb (Data.market order) (key_of market)))
            && negb (match side' with
                     | Some sd => negb (bool_decide (side order = sd))
                     | None => false
                     end)
            && match filter' with Some f => f order | None => true end)
         (orders_of (openOrders s))).

(** A [for] loop whose body awaits: the iterations run in order and the
    first throw leaves the loop. *)
Fixpoint for_each {A} (f : A -> M unit) (l : list A) : M unit :=
  match l with
  | [] => ret tt
  | x :: r => f x ;;; for_each f r
  end.

(* ================================================================== *)
(** ** Exchange.ts: the update cycle *)
(* ================================================================== *)

(** The filter of [autoCancelOrders]. *)
Definition autoCancel_due (env : Env) (ticker : Ticker) (order : IOrder)
    : bool :=
  if truthy_opt (autoCancel order)
     && (timestamp order + toNumber (autoCancel order) <? currentTime env)%js
  then true
  else if (filled order
           >=? toNumber (autoCancelAtFillPercentage order) * amount order)%js
  then true
  else if bool_decide (side order = Buy)
          && (ask ticker >? toNumber (autoCancelAtPriceLevel order))%js
  then true
  else if bool_decide (side order = Sell)
          && (bid ticker <? toNumber (autoCancelAtPriceLevel order))%js
  then true
  else false.

Definition autoCancelOrders (env : Env) (market : option string)
    : M (list unit) :=
  ticker <- getTicker (key_of market) ;;
  openOrders <- getOpenOrders market None (Some (autoCancel_due env ticker)) ;;
  promise_all (cancelOrder env) openOrders.

(** [syncOrderBook(markets)]: [Object.assign] of the fetched books. *)
Definition syncOrderBook (markets : list string) : M bool :=
  e <- get ;;
  match _exchange e with
  | None => ret true
  | Some r =>
      if simulation (_state e) then ret true
      else match r_fetchOrderBook r markets with
           | Some fetched =>
               modify (set_orderBooks (fun books => fetched ∪ books)) ;;;
               ret true
           | None => ret false
           end
  end.

(** The price a sticky order should sit at. *)
Definition stickyPrice (ticker : Ticker) (orderBook : IOrderBook)
    (order : IOrder) : number :=
  let newPrice := match side order with Buy => bid ticker | Sell => ask ticker end in
  match side order with
  | Buy =>
      match bids orderBook with
      | (bestBidPrice, bestBidAmount) :: (secondBestBidPrice, _) :: _ =>
          (* check if we are the only best buyer *)
          if (remaining order >=? bestBidAmount)%js
             && (price order === bestBidPrice)%js
          then secondBestBidPrice else newPrice
      | _ => newPrice
      end
  | Sell =>
      match asks orderBook with
      | (bestAskPrice, bestAskAmount) :: (secondBestAskPrice, _) :: _ =>
          (* check if we are the only best seller *)
          if (remaining order >=? bestAskAmount)%js
             && (price order === bestAskPrice)%js
          then secondBestAskPrice else newPrice
      | _ => newPrice
      end
  end.

(** [order.autoCancel ? order.autoCancel - (now - order.timestamp) : undefined] *)
Definition newAutoCancelOf (env : Env) (order : IOrder) : option number :=
  if truthy_opt (autoCancel order)
  then Some (toNumber (autoCancel order)
             - (currentTime env - timestamp order))%js
  else None.

Definition _updateStickyOrder (env : Env) (order : IOrder) : M unit :=
  (* if an order is not sticky, we don't need to do anything else *)
  if negb (default false (sticky order)) then ret tt else
  ticker <- getTicker (market order) ;;
  (* sync and retrieve the order book for this market *)
  syncOrderBook [market order] ;;;
  orderBook <- getOrderBook (market order) ;;
  (* compute the new price *)
  let newPrice := stickyPrice ticker orderBook order in
  if (price order === newPrice)%js then ret tt else
  try_catch
    (cancelOrder env order ;;;
     (* remove the order from the cancelled orders since this is a sticky order *)
     modify (set_cancelledOrders (delete (id order))) ;;;
     let newAutoCancel := newAutoCancelOf env order in
     minDeal <- getMinDealAmount (market order) ;;
     if (negb (truthy_opt (autoCancel order))
         || (toNumber newAutoCancel >? Fin 0)%js)
        && (remaining order >=? minDeal)%js
     then
       createOrder env
         (mkOptions (market order) Limit (side order) (remaining order)
                    (Some newPrice) (option_map ACMs newAutoCancel)
                    (Some (autoCancelAtFillPercentage order)) None
                    (Some true)) ;;;
       ret tt
     else ret tt)
    (fun _ => ret tt).

Definition updateStickyOrders (env : Env) (market : option string)
    : M (list unit) :=
  openOrders <-
    getOpenOrders market None
      (Some (fun order => default false (sticky order))) ;;
  promise_all (_updateStickyOrder env) openOrders.

Definition retrieveCandles (market : string) (timeframe : option string)
    (since limit : option number) (cleanData : bool)
    : M (option (list Candle)) :=
  e <- get ;;
  match _exchange e with
  | None => throw "TypeError: Cannot read property 'retrieveCandles' of undefined"
  | Some r =>
      match r_retrieveCandles r market timeframe since limit cleanData with
      | Some answer => ret answer
      | None => throw "retrieveCandles"
      end
  end.

Definition retrieveLatestCandle (market : string) (timeframe : option string)
    (cleanData : option bool) : M (option Candle) :=
  latestCandle <-
    retrieveCandles market timeframe None (Some (Fin 1))
                    (default true cleanData) ;;
  match latestCandle with
  | None => ret None
  | Some l => ret (head l)
  end.

Definition _checkFullfillOrder (env : Env) (order : IOrder) : M unit :=
  (* only deal with limit orders *)
  if negb (bool_decide (type order = Limit)) then ret tt else
  (* a few useful variables *)
  let quoteCurrency := quoteCurrencyOf (market order) in
  let baseCurrency := baseCurrencyOf (market order) in
  quoteBalance <- getBalance quoteCurrency ;;
  baseBalance <- getBalance baseCurrency ;;
  (* retrieve the last smallest candle *)
  latestCandle <- retrieveLatestCandle (market order) None None ;;
  match latestCandle with
  | None => ret tt
  | Some latestCandle =>
      if (volume latestCandle <=? Fin 0)%js
         || (timestamp order >=? c_timestamp latestCandle)%js
      then
        (* nothing happened during this candle, or the order was placed
           during this candle, so we are done *)
        ret tt
      else
        s <- gets (fun s => s) ;;
        if bool_decide (side order = Buy)
           && (low latestCandle <? price order)%js
        then
          (* buy *)
          modify (_withdrawFromUsed quoteCurrency
                    (amount order * price order)%js) ;;;
          modify (_deposit baseCurrency
                    (amount order * (Fin 1 - fee_rate s))%js) ;;;
          let order' :=
            set_timestampClosed (Some (currentTime env))
              (set_fill "closed" (amount order) (Fin 0) order) in
          modify (set_openOrders (delete (id order))) ;;;
          modify (set_closedOrders (insert (id order) order')) ;;;
          quoteBalanceAfter <- getBalance quoteCurrency ;;
          baseBalanceAfter <- getBalance baseCurrency ;;
          post "limit_order_fulfilled"
               (EvOrder order' (Some quoteBalance) (Some baseBalance)
                        quoteBalanceAfter baseBalanceAfter)
        else if bool_decide (side order = Sell)
                && (high latestCandle >? price order)%js
        then
          (* sell *)
          modify (_withdrawFromUsed baseCurrency (amount order)) ;;;
          modify (_deposit quoteCurrency
                    (amount order * price order * (Fin 1 - fee_rate s))%js) ;;;
          let order' := set_fill "closed" (amount order) (Fin 0) order in
          modify (set_openOrders (delete (id order))) ;;;
          modify (set_closedOrders (insert (id order) order')) ;;;
          quoteBalanceAfter <- getBalance quoteCurrency ;;
          baseBalanceAfter <- getBalance baseCurrency ;;
          post "limit_order_fulfilled"
               (EvOrder order' (Some quoteBalance) (Some baseBalance)
                        quoteBalanceAfter baseBalanceAfter)
        else ret tt
  end.

Definition fulfillLimitOrders (env : Env) (market : option string)
    : M (list unit) :=
  openOrders <-
    getOpenOrders market None
      (Some (fun order => bool_decide (type order = Limit))) ;;
  promise_all (_checkFullfillOrder env) openOrders.

(** one week *)
Definition purgeAge : number := Fin (1000 * 60 * 60 * 24 * 7).

Definition purgeDue (env : Env) (order : IOrder) : bool :=
  (timestamp order + purgeAge <? currentTime env)%js.

(** The first loop of [purgeOrderList], over the ids of the closed
    orders. *)
Definition purgeClosed (env : Env) (market : option string)
    (ids : list string) (orders : gmap string IOrder) : gmap string IOrder :=
  foldl (fun orders orderId =>
           match orders !! orderId with
           | None => orders
           | Some order =>
               (* ignore orders not in the provided market *)
               if str_truthy market
                  && negb (String.eqb (Data.market order) (key_of market))
               then orders
               else if purgeDue env order then delete orderId orders
               else orders
           end) orders ids.

(** The second loop, over the ids of the cancelled orders. *)
Definition purgeCancelled (env : Env) (ids : list string)
    (orders : gmap string IOrder) : gmap string IOrder :=
  foldl (fun orders orderId =>
           match orders !! orderId with
           | None => orders
           | Some order =>
               if purgeDue env order then delete orderId orders else orders
           end) orders ids.

Definition keys {V} (m : gmap string V) : list string :=
  map fst (map_to_list m).

Definition purgeOrderList (env : Env) (market : option string) : M unit :=
  modify (set_closedOrders
            (fun closed => purgeClosed env market (keys closed) closed)) ;;;
  modify (set_cancelledOrders
            (fun cancelled => purgeCancelled env (keys cancelled) cancelled)).

(* ================================================================== *)
(** ** Exchange.ts: syncing with the remote exchange *)
(* ================================================================== *)

(** Modelled from the spec: ArrayUtils.mapFromArray is not among the
    sources.  The spec looks the fetched open orders up by id; with two
    orders of one id the later one is the one found. *)
Definition mapFromArray (orders : list IOrder) : gmap string IOrder :=
  foldl (fun m o => <[id o := o]> m) ∅ orders.

(** lodash [merge(dest, src)] on dictionaries of complete rows: a row of
    [src] replaces the row of that key, the other rows of [dest] stay. *)
Definition merge {V} (dest src : gmap string V) : gmap string V := src ∪ dest.

Definition syncTickers (markets : option (list string)) : M bool :=
  e <- get ;;
  match _exchange e with
  | None => ret true (* no syncing is needed since there is no exchange *)
  | Some r =>
      try_catch
        (match r_fetchTickers r markets with
         | None => throw "fetchTickers"
         | Some tickers =>
             (* verify that all tickers have been retrieved *)
             match markets with
             | None => throw "TypeError: markets is not iterable"
             | Some markets =>
                 for_each (fun market =>
                             match tickers !! market with
                             | None => throw ("Missing ticker for market " ++ market)
                             | Some _ => ret tt
                             end) markets
             end ;;;
             modify (set_tickers (fun _ => tickers)) ;;;
             modify (set_tickers (fun local => merge local tickers)) ;;;
             ret true
         end)
        (fun _ => ret false)
  end.

(** The last loop of [syncOrders]: open orders without a sticky setting
    are zombies, cancelled remotely and dropped; the others are counted. *)
Fixpoint countOpenOrdersLoop (r : ICcxtExchange) (dryRun : bool)
    (skip : IOrder -> bool) (ids : list string) (count : nat) : M nat :=
  match ids with
  | [] => ret count
  | orderId :: ids =>
      s <- gets (fun s => s) ;;
      match openOrders s !! orderId with
      | None => throw "TypeError"
      | Some order =>
          if skip order then countOpenOrdersLoop r dryRun skip ids count else
          match sticky order with
          | None =>
              if negb dryRun && negb (r_cancelOrder r order)
              then throw "cancelOrder"
              else
                modify (set_openOrders (delete orderId)) ;;;
                countOpenOrdersLoop r dryRun skip ids count
          | Some _ => countOpenOrdersLoop r dryRun skip ids (S count)
          end
      end
  end.

Definition syncOrders (env : Env) (market : option string) : M bool :=
  e <- get ;;
  match _exchange e with
  | None => ret true (* no syncing is needed since there is no exchange *)
  | Some r =>
      if simulation (_state e) then ret true else
      let forceAutoCancel := forceAutoCancel (_state e) in
      let skip (o : IOrder) :=
        str_truthy market
        && negb (String.eqb (Data.market o) (key_of market)) in
      try_catch
        (match r_fetchOpenOrders r market with
         | None => throw "fetchOpenOrders"
         | Some ccxtOrders =>
             let ccxtOrderIdMap := mapFromArray ccxtOrders in
             (* move all open orders that are not in the fetched list to the
                closed order list and update the open orders if needed *)
             for_each
               (fun orderId =>
                  s <- gets (fun s => s) ;;
                  match openOrders s !! orderId with
                  | None => throw "TypeError"
                  | Some o =>
                      if skip o then ret tt else
                      match ccxtOrderIdMap !! orderId with
                      | None =>
                          match cancelledOrders s !! orderId with
                          | Some _ => ret tt
                          | None =>
                              (* we assume the order is fulfilled *)
                              let order :=
                                set_fill "closed" (amount o) (Fin 0)
                                  (set_timestampClosed
                                     (Some (currentTime env)) o) in
                              modify (set_closedOrders (insert orderId order)) ;;;
                              modify (set_openOrders (delete orderId)) ;;;
                              quoteBalanceAfter <-
                                getBalance (quoteCurrencyOf (Data.market order)) ;;
                              baseBalanceAfter <-
                                getBalance (baseCurrencyOf (Data.market order)) ;;
                              post "limit_order_fulfilled"
                                   (EvOrder order None None
                                            quoteBalanceAfter baseBalanceAfter)
                          end
                      | Some ccxtOrder =>
                          (* update the open order in the document *)
                          modify (set_openOrders
                                    (insert orderId
                                       (set_remote_fields ccxtOrder o)))
                      end
                  end)
               (keys (openOrders (_state e))) ;;;
             (* create new open orders for orders that are not yet known *)
             for_each
               (fun ccxtOrder =>
                  s <- gets (fun s => s) ;;
                  match openOrders s !! id ccxtOrder with
                  | Some _ => ret tt
                  | None =>
                      match closedOrders s !! id ccxtOrder with
                      | Some o =>
                          (* put back an order that should not have been removed *)
                          modify (set_openOrders
                                    (insert (id ccxtOrder)
                                       (set_remote_fields ccxtOrder o))) ;;;
                          modify (set_closedOrders (delete (id ccxtOrder)))
                      | None =>
                          if forceAutoCancel
                          then if _dryRun e then ret tt
                               else cancelOrder env ccxtOrder
                          else modify (set_openOrders
                                         (insert (id ccxtOrder) ccxtOrder))
                      end
                  end)
               ccxtOrders ;;;
             (* finally verify that all orders have the sticky setting *)
             s <- gets (fun s => s) ;;
             countOpenOrders <-
               countOpenOrdersLoop r (_dryRun e) skip (keys (openOrders s))
                                   0%nat ;;
             if negb (Nat.eqb (length ccxtOrders) countOpenOrders)
             then ret false
             else ret true
         end)
        (fun _ => ret false)
  end.

(** [update(market)]: [None] is the bare [return] taken in lockdown. *)
Definition update (env : Env) (market : option string) : M (option bool) :=
  e <- get ;;
  if lockdown (_state e) then ret None else
  (* sync the orders *)
  success <- syncOrders env market ;;
  if negb success then ret (Some false) else
  (* fulfill limit orders if needed *)
  simulation <- gets simulation ;;
  (if simulation
   then fulfillLimitOrders env market ;;; ret tt
   else ret tt) ;;;
  (* auto cancel orders *)
  autoCancelOrders env market ;;;
  (* cancel and replace sticky orders if needed *)
  updateStickyOrders env market ;;;
  (* finally, remove old orders that are no longer relevant *)
  purgeOrderList env market ;;;
  ret (Some true).

(* ================================================================== *)
(** ** Exchange.ts: totals *)
(* ================================================================== *)

(** The [markets] getter. *)
Definition markets : M (list string) :=
  s <- gets (fun s => s) ;;
  ret (map (fun currency => (currency ++ "/" ++ fiatCurrency s)%string)
           (keys (balances s))).

Definition indexOf_lt0 (l : list string) (x : string) : bool :=
  negb (existsb (String.eqb x) l).

(** The loop of [getTotalBalance]; [None] is the [null] result. *)
Fixpoint totalLoop (fiat : string) (markets : list string)
    (balances : gmap string Balance) (tickers : gmap string Ticker)
    (includeReserve ignoreMissingMarkets : bool)
    (currencies : list string) (total : number) : option number :=
  match currencies with
  | [] => Some total
  | currency :: rest =>
      let continue total :=
        totalLoop fiat markets balances tickers includeReserve
                  ignoreMissingMarkets rest total in
      (* check if the market still exists *)
      let market := (currency ++ "/" ++ fiat)%string in
      let marketOpposite := (fiat ++ "/" ++ currency)%string in
      if negb (String.eqb currency fiat)
         && indexOf_lt0 markets market && indexOf_lt0 markets marketOpposite
      then continue total
      else
        match balances !! currency with
        | None => None
        | Some balance =>
            let totalBalance := Balance_total balance in
            let totalBalance :=
              if includeReserve
              then (totalBalance + Balance_locked balance)%js
              else totalBalance in
            if (totalBalance <=? Fin 0)%js then continue total
            else if String.eqb currency fiat
            then continue (total + totalBalance)%js
            else
              match tickers !! market with
              | Some data => continue (total + bid data * totalBalance)%js
              | None =>
                  if negb ignoreMissingMarkets then None else continue total
              end
        end
  end.

Definition getTotalBalance (includeReserve : bool)
    (currencies : option (list string)) (ignoreMissingMarkets : bool)
    : M (option number) :=
  markets <- markets ;;
  balances <- getBalances currencies ;;
  tickers <- getTickers None ;;
  s <- gets (fun s => s) ;;
  let currencies := default (keys balances) currencies in
  ret (totalLoop (fiatCurrency s) markets balances tickers includeReserve
                 ignoreMissingMarkets currencies (Fin 0)).

Definition getTotalBalanceFromMarkets (includeReserve : bool)
    (markets : list string) (includeFiatCurrency : bool) : M (option number) :=
  s <- gets (fun s => s) ;;
  (* construct the list of currencies *)
  let currencies :=
    map baseCurrencyOf markets
    ++ (if includeFiatCurrency then [fiatCurrency s] else []) in
  getTotalBalance includeReserve (Some currencies) false.

(* ================================================================== *)
(** ** UpdateTradingAgent.ts: the drawdown guard *)
(* ================================================================== *)

(** The part of the trading agent model the guard reads and writes.
    [marketState] holds the keys of [strategyState.marketState]. *)
Record TradingAgent := mkAgent {
  marketState : option (list string);
  paused : option bool;
  maxDrawdown : option number;
  peakMarketAmount : option number
}.

Definition checkDrawdown (tradingAgentModel : TradingAgent) : M TradingAgent :=
  let activeMarkets := default [] (marketState tradingAgentModel) in
  (* compute the total balance *)
  totalBalance <- getTotalBalanceFromMarkets false activeMarkets true ;;
  match totalBalance with
  | None => ret tradingAgentModel
  | Some totalBalance =>
      (* update the peak market amount *)
      let peak :=
        max totalBalance
            (opt_or_else (peakMarketAmount tradingAgentModel) (Fin 0)) in
      let tradingAgentModel :=
        mkAgent (marketState tradingAgentModel) (paused tradingAgentModel)
                (maxDrawdown tradingAgentModel) (Some peak) in
      (* compute the current drawdown *)
      let drawDown := ((peak - totalBalance) / peak)%js in
      (* post an event if needed *)
      if (drawDown >? opt_or_else (maxDrawdown tradingAgentModel) (Fin 0.2))%js
      then
        balance <- getBalances None ;;
        post "max_drawdown_reached" (EvDrawdown peak totalBalance balance) ;;;
        ret (mkAgent (marketState tradingAgentModel) (Some true)
                     (maxDrawdown tradingAgentModel) (Some peak))
      else ret tradingAgentModel
  end.

(* ================================================================== *)
(** ** GeometricBrownianMotion: Gueant quoting *)
(* ================================================================== *)

Module GBM.

Record IMarketDynamicParameters := mkDynamic {
  A : number;
  k : number
}.

Record IMarketModelParameters := mkParameters {
  sigma : number;
  mu : number;
  gamma : number;
  buy : option IMarketDynamicParameters;
  sell : option IMarketDynamicParameters;
  midPrice : number;
  inventory : number;
  includeDrift : option bool
}.

Record Quote := mkQuote { bid : number; ask : number }.
Record Terms := mkTerms { lnTerm : number; sqrtTerm : number }.

Section WithMath.

(** [Math.sqrt], [Math.log] and [Math.pow]. *)
Variables Math_sqrt Math_log : number -> number.
Variable Math_pow : number -> number -> number.

(** Helper function for computing the log and square root term. *)
Definition computeTerms (sigma gamma k A : number) : Terms :=
  (* square root term *)
  let sqrtTerm :=
    Math_sqrt
      (max (Fin 0) ((sigma * sigma * gamma) / (Fin 2 * k * A))
       * Math_pow (Fin 1 + gamma / k) (Fin 1 + k / gamma))%js in
  (* ln term *)
  let lnTerm := ((Fin 1 / gamma) * Math_log (Fin 1 + gamma / k))%js in
  mkTerms lnTerm sqrtTerm.

(** The sanity check
    [sigma && gamma && buy && sell && buy.A && buy.k && sell.A && sell.k]. *)
Definition sane (p : IMarketModelParameters) : bool :=
  truthy (sigma p) && truthy (gamma p)
  && match buy p, sell p with
     | Some b, Some s =>
         truthy (A b) && truthy (k b) && truthy (A s) && truthy (k s)
     | _, _ => false
     end.

Definition bidPriceDistance (p : IMarketModelParameters)
    (buy : IMarketDynamicParameters) : number :=
  let bid := computeTerms (sigma p) (gamma p) (k buy) (A buy) in
  let bidMultiplier := ((Fin 2 * inventory p + Fin 1) / Fin 2)%js in
  let bidMultiplier :=
    if default false (includeDrift p)
    then (bidMultiplier
          + neg (mu p) / (gamma p * sigma p * sigma p))%js
    else bidMultiplier in
  (lnTerm bid + bidMultiplier * sqrtTerm bid)%js.

Definition askPriceDistance (p : IMarketModelParameters)
    (sell : IMarketDynamicParameters) : number :=
  let ask := computeTerms (sigma p) (gamma p) (k sell) (A sell) in
  let askMultiplier := (neg (Fin 2 * inventory p - Fin 1) / Fin 2)%js in
  let askMultiplier :=
    if default false (includeDrift p)
    then (askMultiplier + mu p / (gamma p * sigma p * sigma p))%js
    else askMultiplier in
  (lnTerm ask + askMultiplier * sqrtTerm ask)%js.

Definition computeQuote (p : IMarketModelParameters) : Quote :=
  match buy p, sell p with
  | Some buy, Some sell =>
      if negb (sane p) then mkQuote (Fin 0) (Fin 0) else
      (* the final bid/ask quotes, with a safeguard to never cross the
         current mid price *)
      mkQuote (min (midPrice p) (midPrice p - bidPriceDistance p buy)%js)
              (max (midPrice p) (midPrice p + askPriceDistance p sell)%js)
  | _, _ => mkQuote (Fin 0) (Fin 0)
  end.

Definition computeSpread (p : IMarketModelParameters) : number :=
  match buy p, sell p with
  | Some buy, Some sell =>
      if negb (sane p) then Fin 0 else
      (bidPriceDistance p buy + askPriceDistance p sell)%js
  | _, _ => Fin 0
  end.

End WithMath.

End GBM.

(* ================================================================== *)
(** ** Notions used in the statements *)
(* ================================================================== *)

(** [free + used] of a currency as stored in the state; a currency
    without an entry holds nothing. *)
Definition storedTotal (s : IExchangeState) (currency : string) : number :=
  match balances s !! currency with
  | Some b => (free b + used b)%js
  | None => Fin 0
  end.

(** Every amount the reservation arithmetic reads is an ordinary number:
    the stored balances and reserves, the prices and amounts of the open
    orders and the bid and ask of the tickers. *)
Record finite_state (s : IExchangeState) : Prop := {
  fin_balances :
    forall c b, balances s !! c = Some b -> is_fin (free b) /\ is_fin (used b);
  fin_reserves : forall c r, reserves s !! c = Some r -> is_fin r;
  fin_openOrders :
    forall i o, openOrders s !! i = Some o ->
                is_fin (price o) /\ is_fin (amount o);
  fin_tickers :
    forall m t, tickers s !! m = Some t -> is_fin (bid t) /\ is_fin (ask t)
}.

(** The calls of the conservation property: a [createOrder] or the
    [cancelOrder] of the order that is open under an id. *)
Inductive call :=
| CreateOrder (env : Env) (options : ICreateOrderOptions)
| CancelOrder (env : Env) (orderId : string).

Definition limit_call (c : call) : Prop :=
  match c with
  | CreateOrder _ options =>
      o_type options = Limit /\ is_fin (o_amount options)
      /\ forall p, o_price options = Some p -> is_fin p
  | CancelOrder _ _ => True
  end.

Definition run_call (c : call) : M unit :=
  match c with
  | CreateOrder env options => createOrder env options ;;; ret tt
  | CancelOrder env orderId =>
      s <- gets (fun s => s) ;;
      match openOrders s !! orderId with
      | Some order => cancelOrder env order
      | None => ret tt
      end
  end.

(** The object after a sequence of calls, whatever their outcomes. *)
Fixpoint run_calls (cs : list call) (e : Exchange) : Exchange :=
  match cs with
  | [] => e
  | c :: r => run_calls r (snd (run_call c e))
  end.

(** The market filter of the purge of closed orders. *)
Definition otherMarket (market : option string) (order : IOrder) : bool :=
  str_truthy market
  && negb (String.eqb (Data.market order) (key_of market)).

(** The default [autoCancelAtPriceLevel] of [createOrder]. *)
Definition defaultPriceLevel (sd : OrderSide) : number :=
  match sd with Buy => PInf | Sell => Fin 0 end.

(** The order amount [createOrder] settles on for a limit order. *)
Definition affordableAmount (sd : OrderSide) (price amount : number)
    (quoteBalance baseBalance : Balance) : number :=
  match sd with
  | Buy => (min (price * amount) (Balance_free quoteBalance) / price)%js
  | Sell => min (Balance_free baseBalance) amount
  end.

(** The Balance [getBalance] reports for a currency. *)
Definition balanceOf (s : IExchangeState) (currency : string) : Balance :=
  let b := default (mkIBalance (Fin 0) (Fin 0)) (balances s !! currency) in
  mkBalance (free b) (used b)
    (or_else (min (opt_or_else (reserves s !! currency) (Fin 0)) (free b))
             (Fin 0)).

(* ================================================================== *)
(** ** Auxiliary notions of the proofs *)
(* ================================================================== *)

(** The key [getBalance] works on. *)
Definition currencyOf (c : string) : string :=
  if has_slash c then key_at (split_slash c) 0 else c.

Definition zeroBalance : IBalance := mkIBalance (Fin 0) (Fin 0).

(** [ensure_balance] on the dictionary of balances. *)
Definition ensureB (c : string) (m : gmap string IBalance)
    : gmap string IBalance :=
  match m !! c with Some _ => m | None => <[c := zeroBalance]> m end.

(** The order object as [cancelOrder] leaves it. *)
Definition cancelled_order (env : Env) (order : IOrder) : IOrder :=
  if (filled order >? Fin 0)%js
  then set_timestampClosed (Some (currentTime env)) order else order.

(** [free + used] over a dictionary of balances, and its finiteness. *)
Definition totalB (m : gmap string IBalance) (c : string) : number :=
  match m !! c with Some b => (free b + used b)%js | None => Fin 0 end.

Definition finiteB (m : gmap string IBalance) : Prop :=
  forall c b, m !! c = Some b -> is_fin (free b) /\ is_fin (used b).

(** A change of state that keeps the state finite and every stored
    total. *)
Definition conserves (s s' : IExchangeState) : Prop :=
  finite_state s ->
  finite_state s' /\ forall c, (storedTotal s' c ≈ storedTotal s c)%js.

(** *** The outcome of [createOrder] for a limit order, in closed form *)

Definition limitPrice (o : ICreateOrderOptions) (tk : Ticker) : number :=
  default (match o_side o with Buy => bid tk | Sell => ask tk end)
          (o_price o).

(** The checks [createOrder] makes before it touches anything. *)
Definition createAccepts (o : ICreateOrderOptions) (s : IExchangeState)
    (tk : Ticker) : bool :=
  negb (lockdown s)
  && negb (negb (autoCancel_truthy (o_autoCancel o)) && forceAutoCancel s)
  && negb (negb (truthy (o_amount o)) || (o_amount o <=? Fin 0)%js)
  && negb (negb (truthy (limitPrice o tk)) || (limitPrice o tk <=? Fin 0)%js).

Definition createdOrder (env : Env) (o : ICreateOrderOptions)
    (s : IExchangeState) (tk : Ticker) (newId : string) : IOrder :=
  let q := quoteCurrencyOf (o_market o) in
  let b := baseCurrencyOf (o_market o) in
  let s1 := ensure_balance q s in
  let s2 := ensure_balance b s1 in
  mkOrder newId (currentTime env) None "open" (o_market o) Limit (o_side o)
    (limitPrice o tk)
    (affordableAmount (o_side o) (limitPrice o tk) (o_amount o)
                      (balanceOf s1 q) (balanceOf s2 b))
    (o_amount o * fee_rate s)%js (Fin 0) (o_amount o)
    (autoCancelMs env (o_autoCancel o))
    (default (Some (Fin 1)) (o_autoCancelAtFillPercentage o))
    (Some (default (defaultPriceLevel (o_side o))
                   (o_autoCancelAtPriceLevel o)))
    (Some (default false (o_sticky o))).

Definition reservedState (o : ICreateOrderOptions) (s : IExchangeState)
    (order : IOrder) : IExchangeState :=
  let q := quoteCurrencyOf (o_market o) in
  let b := baseCurrencyOf (o_market o) in
  let s2 := ensure_balance b (ensure_balance q s) in
  match o_side o with
  | Buy => _reserve q (amount order * price order)%js s2
  | Sell => _reserve b (amount order) s2
  end.

(** The answer of the remote exchange, when it is asked. *)
Definition remoteCreate (o : ICreateOrderOptions) (e : Exchange)
    (tk : Ticker) : option (option string) :=
  match _exchange e with
  | Some r =>
      if negb (simulation (_state e)) && negb (_dryRun e)
      then Some (r_createOrder r (o_market o) Limit (o_side o) (o_amount o)
                               (limitPrice o tk))
      else None
  | None => None
  end.

Definition createdLimit (env : Env) (o : ICreateOrderOptions) (e : Exchange)
    (tk : Ticker) : outcome (option string) * Exchange :=
  let q := quoteCurrencyOf (o_market o) in
  let b := baseCurrencyOf (o_market o) in
  let s1 := ensure_balance q (_state e) in
  let s2 := ensure_balance b s1 in
  let order0 :=
    createdOrder env o (_state e) tk (orderIds env (generated e)) in
  let s3 := reservedState o (_state e) order0 in
  match remoteCreate o e tk with
  | Some None =>
      (Return None,
       mkExchange s3 (_exchange e) (_dryRun e) (posted e) (S (generated e)))
  | answer =>
      let order :=
        match answer with
        | Some (Some remoteId) => set_id remoteId order0
        | _ => order0
        end in
      let s4 := ensure_balance q (set_openOrders (insert (id order) order) s3) in
      let s5 := ensure_balance b s4 in
      (Return (Some (id order)),
       mkExchange s5 (_exchange e) (_dryRun e)
         (mkEvent "limit_order_created"
                  (EvOrderCreated order (balanceOf s1 q) (balanceOf s2 b)
                                  (balanceOf s4 q) (balanceOf s5 b))
          :: posted e)
         (S (generated e)))
  end.

(** The stored balance of a currency is [free], [used] (up to the value
    of the rationals). *)
Definition balance_is (s : IExchangeState) (currency : string)
    (f u : number) : Prop :=
  match balances s !! currency with
  | Some b => (free b ≈ f)%js /\ (used b ≈ u)%js
  | None => False
  end.

(** *** Properties kept by a method *)

(** A method keeps a property of the state, whatever its outcome. *)
Definition keeps {A} (Q : IExchangeState -> Prop) (c : M A) : Prop :=
  forall e, Q (_state e) -> Q (_state (snd (c e))).

(** The tickers are [T]. *)
Definition tickers_are (T : gmap string Ticker) (s : IExchangeState) : Prop :=
  tickers s = T.

(** Every open order is one of [O] or satisfies [good]. *)
Definition open_from (O : gmap string IOrder) (good : IOrder -> Prop)
    (s : IExchangeState) : Prop :=
  forall i o, openOrders s !! i = Some o -> O !! i = Some o \/ good o.

(** *** The sticky update, in closed form *)

(** What [getMinDealAmount] returns. *)
Definition minDealAmountOf (e : Exchange) (market : string) : number :=
  let fallback :=
    match _exchange e with
    | Some r => r_getMinDealAmount r market
    | None => Fin 1
    end in
  match minDealAmounts (_state e) !! market with
  | Some v => if truthy v then v else fallback
  | None => fallback
  end.

(** The state [cancelOrder] leaves when it goes through. *)
Definition cancelledState (env : Env) (order : IOrder) (s : IExchangeState)
    : IExchangeState :=
  let q := quoteCurrencyOf (market order) in
  let b := baseCurrencyOf (market order) in
  let s2 := ensure_balance b (ensure_balance q s) in
  let s3 :=
    match side order with
    | Buy => _release q (price order * amount order)%js s2
    | Sell => _release b (amount order) s2
    end in
  let s4 := set_cancelledOrders (insert (id order) (cancelled_order env order)) s3 in
  let s5 :=
    if (filled order >? Fin 0)%js
    then set_closedOrders (insert (id order) (cancelled_order env order)) s4
    else s4 in
  ensure_balance b (ensure_balance q (set_openOrders (delete (id order)) s5)).

(** The request the sticky update hands to [createOrder]. *)
Definition replacementOptions (env : Env) (order : IOrder) (target : number)
    : ICreateOrderOptions :=
  mkOptions (market order) Limit (side order) (remaining order) (Some target)
            (option_map ACMs (newAutoCancelOf env order))
            (Some (autoCancelAtFillPercentage order)) None (Some true).

(** The condition under which the sticky update asks for a replacement:
    no [autoCancel] or a positive rest of it, and a remaining amount of at
    least the minimum deal amount. *)
Definition replaceCondition (env : Env) (order : IOrder) (minDeal : number)
    : bool :=
  (negb (truthy_opt (autoCancel order))
   || (toNumber (newAutoCancelOf env order) >? Fin 0)%js)
  && (remaining order >=? minDeal)%js.

(** The order books after [syncOrderBook(markets)]. *)
Definition syncedOrderBooks (e : Exchange) (markets : list string)
    : gmap string IOrderBook :=
  match _exchange e with
  | Some r =>
      if simulation (_state e) then orderBooks (_state e)
      else match r_fetchOrderBook r markets with
           | Some fetched => fetched ∪ orderBooks (_state e)
           | None => orderBooks (_state e)
           end
  | None => orderBooks (_state e)
  end.

(** Whether [cancelOrder] carries the cancellation out: always in
    simulation and in a dry run, otherwise when the remote exchange does. *)
Definition cancelGoesThrough (e : Exchange) (order : IOrder) : bool :=
  if negb (simulation (_state e)) && negb (_dryRun e)
  then match _exchange e with
       | Some r => r_cancelOrder r order
       | None => false
       end
  else true.

(** The state [cancelOrder] leaves for an open order with lockdown off:
    the cancelled state, or, when the remote exchange refuses, the state
    with the two balances looked up. *)
Definition afterCancel (env : Env) (order : IOrder) (e : Exchange)
    : IExchangeState :=
  if cancelGoesThrough e order
  then cancelledState env order (_state e)
  else ensure_balance (baseCurrencyOf (market order))
         (ensure_balance (quoteCurrencyOf (market order)) (_state e)).

(** * Concrete scenarios *)

Module Scenario.

Definition env (now : Q) : Env :=
  mkEnv (Fin now)
        (fun n => match n with O => "r4nd0m1d00000000" | _ => "r4nd0m1d00000001" end)
        (fun _ => NaN).

Definition ticker (bid ask : Q) : Ticker :=
  mkTicker (Fin 0) (Fin bid) (Fin ask) (Fin bid) (Fin 10) (Fin 1000).

(** A simulated exchange without a remote client. *)
Definition exchange (balances : gmap string IBalance)
    (tickers : gmap string Ticker) (openOrders : gmap string IOrder)
    : Exchange :=
  mkExchange
    (mkState true ∅ ∅ (Fin 0.0001) "USDT" false false ∅ ∅ openOrders
             balances tickers ∅)
    None false [] 0.

(** S1: a limit buy of 1 at 100 on a free quote balance of 200. *)
Definition s1 : Exchange :=
  exchange {[ "USDT" := mkIBalance (Fin 200) (Fin 0) ]}
           {[ "BTC/USDT" := ticker 99 101 ]} ∅.

Definition s1_options : ICreateOrderOptions :=
  mkOptions "BTC/USDT" Limit Buy (Fin 1) (Some (Fin 100)) None None None None.


(** A remote client that serves one latest candle and one ticker
    snapshot, accepts cancellations and refuses to create orders. *)
Definition remote (candles : list Candle) (snapshot : gmap string Ticker)
    : ICcxtExchange :=
  mkRemote (fun _ => Fin 1) (fun _ => Some []) (fun _ => Some snapshot)
           (fun _ => Some ∅) (fun _ _ _ _ _ => None) (fun _ => true)
           (fun _ _ _ _ _ => Some (Some candles)).

Definition limitOrder (id : string) (side : OrderSide) (t price amount : Q)
    : IOrder :=
  mkOrder id (Fin t) None "open" "BTC/USDT" Limit side (Fin price)
          (Fin amount) (Fin 0.0001) (Fin 0) (Fin amount) None
          (Some (Fin 1)) (Some (defaultPriceLevel side)) (Some false).

(** S2: an open limit order placed at time 1000 and the next candle
    {low: 99, high: 101, volume: 10, timestamp: 1001}. *)
Definition s2_candle : Candle :=
  mkCandle (Fin 1001) (Fin 100) (Fin 101) (Fin 99) (Fin 100) (Fin 10).

Definition s2_buy : IOrder := limitOrder "buy0" Buy 1000 100 1.
Definition s2_sell : IOrder := limitOrder "sell0" Sell 1000 100 1.

Definition s2 (order : IOrder) : Exchange :=
  mkExchange
    (mkState true ∅ ∅ (Fin 0.0001) "USDT" false false ∅ ∅
             {[ id order := order ]}
             {[ "USDT" := mkIBalance (Fin 0) (Fin 100);
                "BTC" := mkIBalance (Fin 0) (Fin 1) ]}
             {[ "BTC/USDT" := ticker 99 101 ]} ∅)
    (Some (remote [s2_candle] ∅)) false [] 0.

(** Ticker syncing: two tickers are known locally, the remote snapshot
    carries the one that was asked for. *)
Definition s6_snapshot : gmap string Ticker :=
  {[ "BTC/USDT" := ticker 100 102 ]}.

Definition s6 : Exchange :=
  mkExchange
    (mkState true ∅ ∅ (Fin 0.0001) "USDT" false false ∅ ∅ ∅ ∅
             {[ "BTC/USDT" := ticker 99 101; "SIM/USDT" := ticker 1 2 ]} ∅)
    (Some (remote [] s6_snapshot)) false [] 0.

(** Quoting with a zero volatility at a mid price of 100.  The Math
    functions are not reached on this input. *)
Definition s7_parameters : GBM.IMarketModelParameters :=
  GBM.mkParameters (Fin 0) (Fin 0) (Fin 0.1)
    (Some (GBM.mkDynamic (Fin 1) (Fin 1)))
    (Some (GBM.mkDynamic (Fin 1) (Fin 1)))
    (Fin 100) (Fin 0) None.

Definition noMath1 (x : number) : number := x.
Definition noMath2 (x y : number) : number := x.

(** S6: a peak of 1000 and a fiat balance of 700 with no active
    market. *)
Definition s8_agent : TradingAgent :=
  mkAgent (Some []) None (Some (Fin 0.2)) (Some (Fin 1000)).

Definition s8 : Exchange :=
  exchange {[ "USDT" := mkIBalance (Fin 700) (Fin 0) ]} ∅ ∅.


(** Purging: an order created at time 0 and closed one minute before
    the current time of eight days. *)
Definition s5_order : IOrder :=
  mkOrder "old0" (Fin 0) (Some (Fin 691140000)) "closed" "BTC/USDT" Limit
          Buy (Fin 100) (Fin 1) (Fin 0.0001) (Fin 1) (Fin 0) None
          (Some (Fin 1)) (Some PInf) (Some false).

Definition s5 : Exchange :=
  mkExchange
    (mkState true ∅ ∅ (Fin 0.0001) "USDT" false false ∅
             {[ "old0" := s5_order ]} ∅ ∅ ∅ ∅)
    None false [] 0.

(** Sticky repricing: a sticky buy of 1 at 100, placed at time 1000
    with an autoCancel of one minute and a price-level auto-cancel of 120,
    which holds the whole quote balance; the best bid moves to [bid]. *)
Definition s3_order : IOrder :=
  mkOrder "sticky0" (Fin 1000) None "open" "BTC/USDT" Limit Buy (Fin 100)
          (Fin 1) (Fin 0.0001) (Fin 0) (Fin 1) (Some (Fin 60000))
          (Some (Fin 1)) (Some (Fin 120)) (Some true).

Definition s3 (bid : Q) : Exchange :=
  exchange {[ "USDT" := mkIBalance (Fin 0) (Fin 100) ]}
           {[ "BTC/USDT" := ticker bid 130 ]}
           {[ "sticky0" := s3_order ]}.

(** A live exchange on which the sticky buy is open, whose remote client
    refuses cancellations and creates orders under the id "remote0". *)
Definition refusing : ICcxtExchange :=
  mkRemote (fun _ => Fin 1) (fun _ => Some []) (fun _ => Some ∅)
           (fun _ => Some ∅) (fun _ _ _ _ _ => Some "remote0"%string)
           (fun _ => false) (fun _ _ _ _ _ => Some None).

Definition s3_live : Exchange :=
  mkExchange
    (mkState false ∅ ∅ (Fin 0.0001) "USDT" false false ∅ ∅
             {[ "sticky0" := s3_order ]}
             {[ "USDT" := mkIBalance (Fin 50) (Fin 100) ]}
             {[ "BTC/USDT" := ticker 110 130 ]} ∅)
    (Some refusing) false [] 0.

End Scenario.

(* ================================================================== *)
(** ** Exchange.ts: the remaining order methods *)
(* ================================================================== *)

Definition set_autoCancel (v : option number) (o : IOrder) : IOrder :=
  mkOrder (id o) (timestamp o) (timestampClosed o) (status o) (market o)
          (type o) (side o) (price o) (amount o) (fee o) (filled o)
          (remaining o) v (autoCancelAtFillPercentage o)
          (autoCancelAtPriceLevel o) (sticky o).

(** [getOrder(id)]: [openOrders[id] || closedOrders[id] || null] *)
Definition getOrder (id : string) : M (option IOrder) :=
  s <- gets (fun s => s) ;;
  ret (match openOrders s !! id with
       | Some order => Some order
       | None => closedOrders s !! id
       end).

Definition cancelOrderById (env : Env) (id : string) : M unit :=
  s <- gets (fun s => s) ;;
  if lockdown s then throw "Exchange is in lockdown mode." else
  (* retrieve the order *)
  order <- getOrder id ;;
  match order with
  | None => throw ("Unknown order id: " ++ id ++ ".")
  | Some order => cancelOrder env order
  end.

(** The body of the map of [cancelAllOrders] for one order id.  An id
    that is no longer a key gives [undefined], and the first property
    read of it throws. *)
Definition cancelIfSelected (env : Env) (market : option string)
    (side' : option OrderSide) (orderId : string) : M unit :=
  s <- gets (fun s => s) ;;
  match openOrders s !! orderId with
  | None =>
      match side' with
      | Some _ => throw "TypeError: Cannot read property 'side' of undefined"
      | None =>
          if str_truthy market
          then throw "TypeError: Cannot read property 'market' of undefined"
          else if lockdown s then throw "Exchange is in lockdown mode."
          else throw "TypeError: Cannot read property 'status' of undefined"
      end
  | Some order =>
      (* ignore orders that are not of the provided side *)
      if match side' with
         | Some sd => negb (bool_decide (side order = sd))
         | None => false
         end
      then ret tt
      (* ignore orders that are not of the provided market *)
      else if str_truthy market
              && negb (String.eqb (Data.market order) (key_of market))
      then ret tt
      else cancelOrder env order
  end.

Definition cancelAllOrders (env : Env) (market : option string)
    (side' : option OrderSide) : M (list unit) :=
  s <- gets (fun s => s) ;;
  let openOrderIds := keys (openOrders s) in
  promise_all (cancelIfSelected env market side') openOrderIds.

(** [setOrderAutoCancel(id, autoCancel)]: the order object under the key
    is updated in place. *)
Definition setOrderAutoCancel (env : Env) (id : string)
    (autoCancel : AutoCancel) : M unit :=
  s <- gets (fun s => s) ;;
  (* retrieve the order *)
  match openOrders s !! id with
  | None => throw ("Unknown order id: " ++ id ++ ".")
  | Some order =>
      let timeDiff := (currentTime env - timestamp order)%js in
      (* convert autocancel value to ms if needed *)
      let autoCancelMs :=
        match autoCancel with
        | ACPeriod period => periodToMs env period
        | ACMs n => n
        end in
      modify (set_openOrders
                (insert id
                   (set_autoCancel (Some (autoCancelMs + timeDiff)%js) order)))
  end.

(** [result.length] as a number. *)
Definition lengthOf {A} (l : list A) : number :=
  Fin (inject_Z (Z.of_nat (length l))).

(** The loop of [getClosedOrders] over the orders in key order; the
    [limit] test leaves the loop. *)
Fixpoint getClosedOrdersLoop (market : option string)
    (since limit : option number) (filter' : option (IOrder -> bool))
    (orders : list IOrder) (result : list IOrder) : list IOrder :=
  match orders with
  | [] => result
  | order :: rest =>
      let continue :=
        getClosedOrdersLoop market since limit filter' rest in
      if str_truthy market
         && negb (String.eqb (Data.market order) (key_of market))
      then continue result
      else if truthy_opt since && (timestamp order <? toNumber since)%js
      then continue result
      else if truthy_opt limit && (lengthOf result >=? toNumber limit)%js
      then result
      else if match filter' with Some f => negb (f order) | None => false end
      then continue result
      else continue (result ++ [order])
  end.

Definition getClosedOrders (market : option string)
    (since limit : option number) (filter' : option (IOrder -> bool))
    : M (list IOrder) :=
  s <- gets (fun s => s) ;;
  ret (getClosedOrdersLoop market since limit filter'
         (orders_of (closedOrders s)) []).

(** One round of the loop of [getLastClosedOrder]. *)
Definition lastClosedStep (market : string) (side' : option OrderSide)
    (filter' : option (IOrder -> bool)) (lastOrder : option IOrder)
    (order : IOrder) : option IOrder :=
  (* ignore orders not in this market or not on this side *)
  if negb (String.eqb (Data.market order) market) then lastOrder
  else if match side' with
          | Some sd => negb (bool_decide (sd = side order))
          | None => false
          end
  then lastOrder
  else if match filter' with Some f => negb (f order) | None => false end
  then lastOrder
  else
    match lastOrder with
    | None => Some order (* deal with the first order *)
    | Some l =>
        if (timestamp order >? timestamp l)%js then Some order else Some l
    end.

Definition getLastClosedOrder (market : string) (side' : option OrderSide)
    (filter' : option (IOrder -> bool)) : M (option IOrder) :=
  s <- gets (fun s => s) ;;
  ret (foldl (lastClosedStep market side' filter') None
             (orders_of (closedOrders s))).

(* ================================================================== *)
(** ** Exchange.ts: conversions and reserves *)
(* ================================================================== *)

(** The [string | number] argument of the conversions. *)
Inductive MarketOrPrice :=
| OfMarket (market : string)
| OfPrice (price : number).

Definition convertToQuote (amount : number) (marketOrPrice : MarketOrPrice)
    : M number :=
  match marketOrPrice with
  | OfMarket market =>
      (* retrieve the price from the latest ticker *)
      ticker <- getTicker market ;;
      ret (amount * last ticker)%js
  | OfPrice price => ret (amount * price)%js
  end.

(** [getTicker] returns a Ticker object or throws, so the [!ticker]
    test of the source never fires. *)
Definition convertToBase (amount : number) (marketOrPrice : MarketOrPrice)
    : M number :=
  match marketOrPrice with
  | OfMarket market =>
      ticker <- getTicker market ;;
      ret (amount / last ticker)%js
  | OfPrice price => ret (amount / price)%js
  end.

Definition set_reserves (f : gmap string number -> gmap string number)
    (s : IExchangeState) : IExchangeState :=
  mkState (simulation s) (f (reserves s)) (minDealAmounts s) (fee_rate s)
          (fiatCurrency s) (forceAutoCancel s) (lockdown s)
          (cancelledOrders s) (closedOrders s) (openOrders s)
          (balances s) (tickers s) (orderBooks s).

Definition setReserve (currency : string) (amount : number) : M unit :=
  modify (set_reserves (insert currency amount)).

Definition getReserve (currency : string) : M number :=
  s <- gets (fun s => s) ;;
  ret (opt_or_else (reserves s !! currency) (Fin 0)).

Definition clearReserve (currency : string) : M unit :=
  modify (set_reserves (delete currency)).

(** The [fiatBalance] getter. *)
Definition fiatBalance : M Balance :=
  s <- gets (fun s => s) ;;
  getBalance (fiatCurrency s).

(* ================================================================== *)
(** ** Exchange.ts: depositing, withdrawing, lockdown and reset *)
(* ================================================================== *)

(** The calls of the remote client the record ICcxtExchange above leaves
    out: [deposit] and [withdraw] (whether the promise resolves) and
    [fetchBalance] ([None] is a rejected promise). *)
Record ICcxtWallet := mkWallet {
  r_deposit : string -> number -> option string -> bool;
  r_withdraw : string -> number -> option string -> bool;
  r_fetchBalance : option (gmap string IBalance)
}.

Section Transfers.

(** The [post] method for the events of a transfer, with the currency
    and the balance before and after: it posts nothing on an Exchange and
    is overridden by ExchangeBacktest.  Its promise is not awaited: what
    it does to the object stays, its outcome is dropped. *)
Variable post_transfer : string -> string -> Balance -> Balance -> M unit.
Variable wallet : ICcxtWallet.

Definition deposit (currency : string) (amount : number)
    (address : option string) : M unit :=
  e <- get ;;
  if lockdown (_state e) then throw "Exchange is in lockdown mode." else
  if simulation (_state e) then
    balance <- getBalance currency ;;
    modify (_deposit currency amount) ;;;
    balanceAfter <- getBalance currency ;;
    try_catch (post_transfer "deposit" currency balance balanceAfter)
              (fun _ => ret tt)
  else if negb (_dryRun e) then
    match _exchange e with
    | None => throw "TypeError: Cannot read property 'deposit' of undefined"
    | Some _ =>
        if r_deposit wallet currency amount address then ret tt
        else throw "deposit"
    end
  else ret tt.

Definition withdraw (currency : string) (amount : number)
    (address : option string) : M unit :=
  e <- get ;;
  if lockdown (_state e) then throw "Exchange is in lockdown mode." else
  if simulation (_state e) then
    balance <- getBalance currency ;;
    if (Balance_free balance <? amount)%js
    then throw "Withdrawal amount higher than balance." else
    modify (_withdraw currency amount) ;;;
    balanceAfter <- getBalance currency ;;
    try_catch (post_transfer "withdraw" currency balance balanceAfter)
              (fun _ => ret tt)
  else if negb (_dryRun e) then
    match _exchange e with
    | None => throw "TypeError: Cannot read property 'withdraw' of undefined"
    | Some _ =>
        if r_withdraw wallet currency amount address then ret tt
        else throw "withdraw"
    end
  else ret tt.

(** [syncBalance()]: the fetched rows are merged into the stored ones. *)
Definition syncBalance : M bool :=
  e <- get ;;
  match _exchange e with
  | None => ret true (* no syncing is needed since there is no exchange *)
  | Some _ =>
      if simulation (_state e) then ret true else
      try_catch
        (match r_fetchBalance wallet with
         | None => throw "fetchBalance"
         | Some balances =>
             modify (set_balances (fun local => merge local balances)) ;;;
             ret true
         end)
        (fun _ => ret false)
  end.

(** [beforeUpdate(markets)]: both syncs are made; they work on different
    records of the state. *)
Definition beforeUpdate (markets : option (list string)) : M bool :=
  tickersSynced <- syncTickers markets ;;
  balanceSynced <- syncBalance ;;
  ret (tickersSynced && balanceSynced).

End Transfers.

(** [Exchange.post]: the base class posts nothing. *)
Definition post_nothing (type currency : string)
    (balanceBefore balanceAfter : Balance) : M unit :=
  ret tt.

Definition set_lockdown (v : bool) (s : IExchangeState) : IExchangeState :=
  mkState (simulation s) (reserves s) (minDealAmounts s) (fee_rate s)
          (fiatCurrency s) (forceAutoCancel s) v
          (cancelledOrders s) (closedOrders s) (openOrders s)
          (balances s) (tickers s) (orderBooks s).

(** The methods whose names are fields of the state. *)
Module Methods.

Definition lockdown : M unit := modify (set_lockdown true).

Definition resetLockdown : M unit := modify (set_lockdown false).

Definition isInLockdown : M bool := gets Data.lockdown.

Definition reset : M unit :=
  modify (fun s =>
            mkState (simulation s) ∅ (minDealAmounts s) (fee_rate s)
                    (fiatCurrency s) (forceAutoCancel s) false
                    (cancelledOrders s) ∅ ∅ ∅ (tickers s) (orderBooks s)).

End Methods.

(* ================================================================== *)
(** ** ExchangeHelper.ts: cleaning candle data *)
(* ================================================================== *)

(** The first loop of [cleanCandleData]: the first close price that is
    set, 0 when there is none. *)
Fixpoint initialPrice (candles : list Candle) : number :=
  match candles with
  | [] => Fin 0
  | candle :: rest =>
      if truthy (c_close candle) then c_close candle else initialPrice rest
  end.

Definition incomplete (candle : Candle) : bool :=
  negb (truthy (c_open candle)) || negb (truthy (high candle))
  || negb (truthy (low candle)) || negb (truthy (c_close candle)).

(** The second loop, with the close price of the candle before (as it
    stands after its own round). *)
Fixpoint cleanLoop (lastClose : number) (candles : list Candle)
    : list Candle :=
  match candles with
  | [] => []
  | candle :: rest =>
      let candle :=
        if incomplete candle
        then mkCandle (c_timestamp candle) lastClose lastClose lastClose
                      lastClose (Fin 0)
        else candle in
      candle :: cleanLoop (c_close candle) rest
  end.

(** [cleanCandleData(candles)]: the candles as the call leaves them. *)
Definition cleanCandleData (candles : list Candle) : list Candle :=
  cleanLoop (initialPrice candles) candles.

(* ================================================================== *)
(** ** Notions used in the statements of the further properties *)
(* ================================================================== *)

(** The orders [cancelAllOrders(market, side)] passes over. *)
Definition notSelected (market : option string) (side' : option OrderSide)
    (order : IOrder) : bool :=
  match side' with
  | Some sd => negb (bool_decide (side order = sd))
  | None => false
  end
  || (str_truthy market
      && negb (String.eqb (Data.market order) (key_of market))).

(** The open orders are stored under their ids and are open. *)
Definition well_keyed (m : gmap string IOrder) : Prop :=
  forall k o, m !! k = Some o -> id o = k /\ status o = "open"%string.

(** No call suspends: the exchange is simulated or in a dry run. *)
Definition offline (e : Exchange) : bool :=
  simulation (_state e) || _dryRun e.

(** The orders [getClosedOrders] and [getLastClosedOrder] select. *)
Definition closedMatch (market : option string) (since : option number)
    (filter' : option (IOrder -> bool)) (order : IOrder) : bool :=
  negb (str_truthy market
        && negb (String.eqb (Data.market order) (key_of market)))
  && negb (truthy_opt since && (timestamp order <? toNumber since)%js)
  && match filter' with Some f => f order | None => true end.

Definition lastMatch (market : string) (side' : option OrderSide)
    (filter' : option (IOrder -> bool)) (order : IOrder) : bool :=
  String.eqb (Data.market order) market
  && match side' with
     | Some sd => bool_decide (sd = side order)
     | None => true
     end
  && match filter' with Some f => f order | None => true end.

(** A candle whose four prices are set. *)
Definition complete (candle : Candle) : Prop :=
  truthy (c_open candle) = true /\ truthy (high candle) = true
  /\ truthy (low candle) = true /\ truthy (c_close candle) = true.

(** The candle [cleanCandleData] puts in the place of an incomplete one
    when no close price is set anywhere. *)
Definition flatZero (candle : Candle) : Candle :=
  mkCandle (c_timestamp candle) (Fin 0) (Fin 0) (Fin 0) (Fin 0) (Fin 0).

(** A [post] method that leaves the state alone, as the one of Exchange
    (nothing is posted) and the one of ExchangeBacktest (the event is
    recorded) do. *)
Definition quiet_post
    (post_transfer : string -> string -> Balance -> Balance -> M unit)
    : Prop :=
  forall ty c b1 b2 e, _state (snd (post_transfer ty c b1 b2 e)) = _state e.

(** The stored balance of a currency, a missing entry read as zero. *)
Definition storedBalance (s : IExchangeState) (c : string) : IBalance :=
  default zeroBalance (balances s !! c).

(** The currency a limit order of a side holds funds of. *)
Definition heldCurrency (sd : OrderSide) (market : string) : string :=
  match sd with
  | Buy => quoteCurrencyOf market
  | Sell => baseCurrencyOf market
  end.

(** What a limit order asks to hold: [price * amount] of the quote
    currency for a buy, [amount] of the base currency for a sell. *)
Definition wantedFunds (sd : OrderSide) (price amount : Q) : Q :=
  match sd with Buy => price * amount | Sell => amount end.

(** The price of a market order: the ask for a buy, the bid for a
    sell. *)
Definition marketPrice (sd : OrderSide) (tk : Ticker) : number :=
  match sd with Buy => ask tk | Sell => bid tk end.

(** The orders found under the keys of a list, stored under their ids
    and open. *)
Definition keyed_on (l : list string) (m : gmap string IOrder) : Prop :=
  forall k, k ∈ l ->
    exists o, m !! k = Some o /\ id o = k /\ status o = "open"%string.

(* ================================================================== *)
(** ** Further scenarios *)
(* ================================================================== *)

Module Examples.

(** A state with a free amount of 200 USDT and a used amount of 10, of
    which 50 are reserved, and a ticker for BTC/USDT. *)
Definition state (simulated : bool) : IExchangeState :=
  mkState simulated {[ "USDT" := Fin 50 ]} ∅ (Fin 0.0001) "USDT" false false
          ∅ ∅ ∅
          {[ "USDT" := mkIBalance (Fin 200) (Fin 10) ]}
          {[ "BTC/USDT" := Scenario.ticker 99 101 ]} ∅.

(** The simulated exchange on this state, without a remote client. *)
Definition reserved : Exchange := mkExchange (state true) None false [] 0.

(** The live exchange on this state; its remote client rejects the
    creation of orders. *)
Definition live : Exchange :=
  mkExchange (state false) (Some (Scenario.remote [] ∅)) false [] 0.

Definition limitBuy : ICreateOrderOptions :=
  mkOptions "BTC/USDT" Limit Buy (Fin 1) (Some (Fin 100)) None None None None.

Definition marketBuy : ICreateOrderOptions :=
  mkOptions "BTC/USDT" Market Buy (Fin 1) None None None None None.

(** A limit buy placed at the time of the candle of scenario S2. *)
Definition lateOrder : IOrder := Scenario.limitOrder "late0" Buy 1001 100 1.

(** Market dynamics that are the same on both sides, with an inventory of
    2 and the drift included. *)
Definition symmetric : GBM.IMarketModelParameters :=
  GBM.mkParameters (Fin 0.05) (Fin 0.01) (Fin 0.1)
    (Some (GBM.mkDynamic (Fin 1) (Fin 1)))
    (Some (GBM.mkDynamic (Fin 1) (Fin 1)))
    (Fin 100) (Fin 2) (Some true).

End Examples.

(* ================================================================== *)
(** * Properties *)
(* ================================================================== *)

(** ** State transformers as updates of the balances *)

Lemma ensure_balance_eq c s : ensure_balance c s = set_balances (ensureB c) s.
Proof.
  unfold ensure_balance, ensureB, set_balances.
  destruct s as [? ? ? ? ? ? ? ? ? ? b ? ?]; cbn. by destruct (b !! c).
Qed.

Lemma _release_eq c a s :
  _release c a s =
  set_balances
    (fun m => alter (fun b =>
                       let amount := min a (used b) in
                       mkIBalance (free b + amount)%js (used b - amount)%js)
                    c (ensureB c m)) s.
Proof. unfold _release. by rewrite ensure_balance_eq. Qed.

Lemma _reserve_eq c a s :
  _reserve c a s =
  set_balances
    (fun m => alter (fun b =>
                       let amount :=
                         min a (max (free b
                                     - opt_or_else (reserves s !! c) (Fin 0))%js
                                    (Fin 0)) in
                       mkIBalance (free b - amount)%js (used b + amount)%js)
                    c (ensureB c m)) s.
Proof. unfold _reserve. by rewrite ensure_balance_eq. Qed.

Lemma _deposit_eq c a s :
  _deposit c a s =
  set_balances
    (fun m => alter (fun b => mkIBalance (free b + a)%js (used b)) c
                    (ensureB c m)) s.
Proof. unfold _deposit. by rewrite ensure_balance_eq. Qed.

Lemma _withdraw_eq c a s :
  _withdraw c a s =
  set_balances
    (fun m => alter (fun b => mkIBalance (free b - a)%js (used b)) c
                    (ensureB c m)) s.
Proof. unfold _withdraw. by rewrite ensure_balance_eq. Qed.

Lemma _withdrawFromUsed_eq c a s :
  _withdrawFromUsed c a s =
  set_balances
    (fun m => alter (fun b => mkIBalance (free b) (used b - a)%js) c
                    (ensureB c m)) s.
Proof. unfold _withdrawFromUsed. by rewrite ensure_balance_eq. Qed.

(** Turns the balance primitives into [set_balances] so that the other
    fields of the state can be read off by computation. *)
Ltac to_set_balances :=
  rewrite ?_release_eq, ?_reserve_eq, ?_deposit_eq, ?_withdraw_eq,
    ?_withdrawFromUsed_eq, ?ensure_balance_eq.

(** Symbolic execution of a method body. *)
Ltac run_body :=
  cbv beta iota zeta delta
    [bind get ret throw modify post getBalance gets try_catch
     _generateOrderId].


(** ** Arithmetic on ordinary numbers *)

Lemma is_fin_inv x : is_fin x -> exists q, x = Fin q.
Proof. destruct x; cbn; try done. eauto. Qed.

Ltac fin_inv :=
  repeat match goal with
         | H : is_fin ?x |- _ =>
             first [ is_var x; let q := fresh "q" in
                               destruct (is_fin_inv x H) as [q ->]; clear H
                   | let q := fresh "q" in let E := fresh "E" in
                     destruct (is_fin_inv x H) as [q E]; clear H;
                     try rewrite E in * ]
         end.

Lemma is_fin_add x y : is_fin x -> is_fin y -> is_fin (x + y)%js.
Proof. intros. by fin_inv. Qed.
Lemma is_fin_sub x y : is_fin x -> is_fin y -> is_fin (x - y)%js.
Proof. intros. by fin_inv. Qed.
Lemma is_fin_mul x y : is_fin x -> is_fin y -> is_fin (x * y)%js.
Proof. intros. by fin_inv. Qed.
Lemma is_fin_min x y : is_fin x -> is_fin y -> is_fin (min x y).
Proof. intros. fin_inv. unfold min; cbn. by destruct (Qle_bool _ _). Qed.
Lemma is_fin_max x y : is_fin x -> is_fin y -> is_fin (max x y).
Proof. intros. fin_inv. unfold max; cbn. by destruct (Qle_bool _ _). Qed.
Lemma is_fin_div x y : is_fin x -> is_fin y -> truthy y = true -> is_fin (x / y)%js.
Proof. intros ? ? Ht. fin_inv. cbn in *. by destruct (Qeq_bool _ 0). Qed.
Lemma is_fin_or_else x y : is_fin y -> (is_fin x \/ truthy x = false) -> is_fin (or_else x y).
Proof. unfold or_else. intros ? [?|E]; [by destruct (truthy x)|by rewrite E]. Qed.
Lemma is_fin_opt_or_else x y : is_fin y -> (forall v, x = Some v -> is_fin v) -> is_fin (opt_or_else x y).
Proof. intros ? Hx. destruct x as [v|]; cbn; [|done]. apply is_fin_or_else; eauto. Qed.

Lemma is_fin_Fin q : is_fin (Fin q).
Proof. done. Qed.

Create HintDb fin.
Global Hint Resolve is_fin_Fin : fin.
Global Hint Resolve is_fin_add is_fin_sub is_fin_mul is_fin_min is_fin_max : fin.

Lemma num_eq_refl x : (x ≈ x)%js.
Proof. destruct x; cbn; done. Qed.
Lemma num_eq_sym x y : (x ≈ y)%js -> (y ≈ x)%js.
Proof. destruct x, y; cbn; try done; intros; by symmetry. Qed.
Lemma num_eq_trans x y z : (x ≈ y)%js -> (y ≈ z)%js -> (x ≈ z)%js.
Proof. destruct x, y, z; cbn; try done; intros; by etrans. Qed.

Lemma move_conserves f u a :
  is_fin f -> is_fin u -> is_fin a ->
  ((f - a) + (u + a) ≈ f + u)%js /\ ((f + a) + (u - a) ≈ f + u)%js.
Proof. intros. fin_inv. cbn. split; ring. Qed.

(** ** Currencies of a market *)

Lemma has_slash_rev_app s : forall acc,
  has_slash (String.rev_app s acc) = has_slash s || has_slash acc.
Proof.
  induction s as [|c s IH]; intros acc; simpl; [done|].
  rewrite IH. simpl. destruct (Ascii.eqb c "/"), (has_slash s); done.
Qed.

Lemma has_slash_rev s : has_slash (String.rev s) = has_slash s.
Proof. unfold String.rev. rewrite has_slash_rev_app. simpl. apply orb_false_r. Qed.

Lemma split_slash_aux_no_slash s : forall acc,
  has_slash acc = false ->
  Forall (fun x => has_slash x = false) (split_slash_aux acc s).
Proof.
  induction s as [|c s IH]; intros acc Hacc; simpl.
  - constructor; [|constructor]. by rewrite has_slash_rev.
  - destruct (Ascii.eqb c "/") eqn:E.
    + constructor; [by rewrite has_slash_rev|]. by apply IH.
    + apply IH. simpl. by rewrite E.
Qed.

Lemma has_slash_key_at m i : has_slash (key_at (split_slash m) i) = false.
Proof.
  unfold key_at, split_slash.
  destruct (split_slash_aux "" m !! i) as [x|] eqn:E; cbn; [|done].
  pose proof (split_slash_aux_no_slash m "" eq_refl) as H.
  rewrite Forall_lookup in H. eauto.
Qed.

Lemma currencyOf_quote m : currencyOf (quoteCurrencyOf m) = quoteCurrencyOf m.
Proof. unfold currencyOf, quoteCurrencyOf. by rewrite has_slash_key_at. Qed.
Lemma currencyOf_base m : currencyOf (baseCurrencyOf m) = baseCurrencyOf m.
Proof. unfold currencyOf, baseCurrencyOf. by rewrite has_slash_key_at. Qed.

(** ** Running the primitives *)

Lemma bind_run {A B} (c : M A) (k : A -> M B) e :
  bind c k e = match c e with
               | (Return a, e1) => k a e1
               | (Throw m, e1) => (Throw m, e1)
               end.
Proof. reflexivity. Qed.

Lemma getTicker_run m e :
  getTicker m e =
  match tickers (_state e) !! m with
  | Some t => (Return t, e)
  | None => (Throw ("Unable to retrieve ticker for market " ++ m)%string, e)
  end.
Proof.
  unfold getTicker, getTickers. run_body.
  cbn [from_option Datatypes.id foldl].
  destruct (tickers (_state e) !! m).
  - by rewrite lookup_insert_eq.
  - by rewrite lookup_empty.
Qed.

Lemma getBalance_run c e :
  getBalance c e =
  (Return (balanceOf (ensure_balance (currencyOf c) (_state e)) (currencyOf c)),
   set_state (ensure_balance (currencyOf c)) e).
Proof. reflexivity. Qed.

Lemma createOrder_no_ticker env o e :
  tickers (_state e) !! o_market o = None ->
  exists msg, createOrder env o e = (Throw msg, e).
Proof.
  intros Htk. unfold createOrder. rewrite bind_run, getTicker_run, Htk. eauto.
Qed.

Lemma createOrder_limit_rejected env o e tk :
  o_type o = Limit ->
  tickers (_state e) !! o_market o = Some tk ->
  createAccepts o (_state e) tk = false ->
  exists msg, createOrder env o e = (Throw msg, e).
Proof.
  intros Hty Htk Hacc. unfold createOrder.
  rewrite bind_run, getTicker_run, Htk. run_body. rewrite Hty.
  unfold createAccepts, limitPrice in Hacc.
  destruct (lockdown (_state e)); [eauto|].
  destruct (negb (autoCancel_truthy _) && forceAutoCancel _); [eauto|].
  destruct (negb (truthy (o_amount o)) || _); [eauto|].
  destruct (negb (truthy _) || _); [eauto|]. done.
Qed.

Lemma simulation_ensure_balance c s :
  simulation (ensure_balance c s) = simulation s.
Proof. by rewrite ensure_balance_eq. Qed.

Lemma simulation_reserve c a s : simulation (_reserve c a s) = simulation s.
Proof. by rewrite _reserve_eq. Qed.

Lemma createOrder_limit_accepted env o e tk :
  o_type o = Limit ->
  tickers (_state e) !! o_market o = Some tk ->
  createAccepts o (_state e) tk = true ->
  createOrder env o e = createdLimit env o e tk.
Proof.
  intros Hty Htk Hacc. unfold createOrder.
  rewrite bind_run, getTicker_run, Htk.
  cbv beta iota zeta delta [bind get ret throw modify post gets try_catch _generateOrderId].
  rewrite Hty.
  unfold createAccepts, limitPrice in Hacc.
  destruct (lockdown (_state e)); [done|].
  destruct (negb (autoCancel_truthy _) && forceAutoCancel _); [done|].
  destruct (negb (truthy (o_amount o)) || _); [done|].
  destruct (negb (truthy _) || _) eqn:Hp; [done|]. clear Hacc.
  rewrite !getBalance_run.
  unfold createdLimit, remoteCreate, reservedState, createdOrder, limitPrice.
  rewrite !currencyOf_quote, !currencyOf_base.
  cbn [bool_decide decide_rel OrderType_eq_dec andb].
  destruct (o_side o); cbn [_state set_state _exchange _dryRun posted generated];
  rewrite ?simulation_reserve, ?simulation_ensure_balance;
  (destruct (_exchange e) as [r|];
   [destruct (negb (simulation (_state e)) && negb (_dryRun e));
    [destruct (r_createOrder _ _ _ _ _ _)|]|]);
  repeat (rewrite ?getBalance_run, ?currencyOf_quote, ?currencyOf_base;
          cbn [_state set_state _exchange _dryRun posted generated]);
  reflexivity.
Qed.

(** ** Conservation of the stored totals *)

Lemma conserves_refl s : conserves s s.
Proof. intros H. split; [done|]. intros c. apply num_eq_refl. Qed.

Lemma conserves_trans s1 s2 s3 :
  conserves s1 s2 -> conserves s2 s3 -> conserves s1 s3.
Proof.
  intros H12 H23 H1. destruct (H12 H1) as [H2 E12].
  destruct (H23 H2) as [H3 E23]. split; [done|].
  intros c. eapply num_eq_trans; eauto.
Qed.

Lemma ensureB_conserves c m :
  finiteB m ->
  finiteB (ensureB c m) /\ forall c', (totalB (ensureB c m) c' ≈ totalB m c')%js.
Proof.
  intros Hm. unfold ensureB. destruct (m !! c) eqn:E.
  { split; [done|]. intros. apply num_eq_refl. }
  split.
  - intros c' b. rewrite lookup_insert. case_decide; [|by apply Hm].
    intros [= <-]. done.
  - intros c'. unfold totalB. rewrite lookup_insert. case_decide.
    + subst. rewrite E. cbn. ring.
    + apply num_eq_refl.
Qed.

Lemma alter_conserves (f : IBalance -> IBalance) c m :
  (forall b, is_fin (free b) -> is_fin (used b) ->
             is_fin (free (f b)) /\ is_fin (used (f b))
             /\ (free (f b) + used (f b) ≈ free b + used b)%js) ->
  finiteB m ->
  finiteB (alter f c m) /\ forall c', (totalB (alter f c m) c' ≈ totalB m c')%js.
Proof.
  intros Hf Hm. split.
  - intros c' b. rewrite lookup_alter. case_decide; [|by apply Hm].
    subst. destruct (m !! c') as [b0|] eqn:E; cbn; [|done].
    intros [= <-]. destruct (Hm _ _ E). by destruct (Hf b0) as (? & ? & ?).
  - intros c'. unfold totalB. rewrite lookup_alter. case_decide.
    + subst. destruct (m !! c') as [b0|] eqn:E; cbn; [|done].
      destruct (Hm _ _ E). by destruct (Hf b0) as (? & ? & ?).
    + apply num_eq_refl.
Qed.

Lemma conserves_set_balances s f :
  (finite_state s ->
   finiteB (f (balances s))
   /\ forall c, (totalB (f (balances s)) c ≈ totalB (balances s) c)%js) ->
  conserves s (set_balances f s).
Proof.
  intros Hf Hs. destruct (Hf Hs) as [Hb' E]. destruct Hs as [Hb Hr Ho Ht].
  split; [by constructor|]. exact E.
Qed.

Lemma conserves_ensure_balance c s : conserves s (ensure_balance c s).
Proof.
  rewrite ensure_balance_eq. apply conserves_set_balances.
  intros Hs. apply ensureB_conserves. exact (fin_balances _ Hs).
Qed.

Lemma conserves_move (f : IBalance -> number) (g : number -> IBalance -> IBalance) c s :
  (finite_state s ->
   forall b, is_fin (free b) -> is_fin (used b) ->
             is_fin (free (g (f b) b)) /\ is_fin (used (g (f b) b))
             /\ (free (g (f b) b) + used (g (f b) b) ≈ free b + used b)%js) ->
  conserves s (set_balances (fun m => alter (fun b => g (f b) b) c (ensureB c m)) s).
Proof.
  intros Hg. apply conserves_set_balances. intros Hs. specialize (Hg Hs).
  destruct (ensureB_conserves c _ (fin_balances _ Hs)) as [Hm1 E1].
  destruct (alter_conserves (fun b => g (f b) b) c (ensureB c (balances s)))
    as [Hm2 E2]; [done|done|].
  split; [done|]. intros c'. eapply num_eq_trans; eauto.
Qed.

Lemma conserves_release c a s : is_fin a -> conserves s (_release c a s).
Proof.
  intros Ha. rewrite _release_eq.
  apply (conserves_move (fun b => min a (used b))
           (fun amount b => mkIBalance (free b + amount)%js (used b - amount)%js)).
  intros _ b Hf Hu. cbn.
  assert (is_fin (min a (used b))) by auto with fin.
  split; [auto with fin|]. split; [auto with fin|].
  by apply move_conserves.
Qed.

Lemma conserves_reserve c a s : is_fin a -> conserves s (_reserve c a s).
Proof.
  intros Ha. rewrite _reserve_eq.
  apply (conserves_move
           (fun b => min a (max (free b - opt_or_else (reserves s !! c) (Fin 0))%js (Fin 0)))
           (fun amount b => mkIBalance (free b - amount)%js (used b + amount)%js)).
  intros Hs b Hf Hu. cbn.
  assert (is_fin (opt_or_else (reserves s !! c) (Fin 0))).
  { apply is_fin_opt_or_else; [done|]. intros v Hv. eapply fin_reserves; eauto. }
  assert (is_fin (min a (max (free b - opt_or_else (reserves s !! c) (Fin 0))%js (Fin 0))))
    by auto with fin.
  split; [auto with fin|]. split; [auto with fin|].
  by apply move_conserves.
Qed.

Lemma conserves_set_openOrders_insert i o s :
  is_fin (price o) -> is_fin (amount o) ->
  conserves s (set_openOrders (insert i o) s).
Proof.
  intros Hp Ha [Hb Hr Ho Ht]. split; [|intros; apply num_eq_refl].
  constructor; try done. cbn. intros j o'. rewrite lookup_insert.
  case_decide; [by intros [= <-]|apply Ho].
Qed.

Lemma conserves_set_openOrders_delete i s :
  conserves s (set_openOrders (delete i) s).
Proof.
  intros [Hb Hr Ho Ht]. split; [|intros; apply num_eq_refl].
  constructor; try done. cbn. intros j o'. rewrite lookup_delete.
  case_decide; [done|apply Ho].
Qed.

Lemma conserves_set_closedOrders f s : conserves s (set_closedOrders f s).
Proof. intros [Hb Hr Ho Ht]. split; [by constructor|intros; apply num_eq_refl]. Qed.

Lemma conserves_set_cancelledOrders f s : conserves s (set_cancelledOrders f s).
Proof. intros [Hb Hr Ho Ht]. split; [by constructor|intros; apply num_eq_refl]. Qed.

Create HintDb conserve.
Global Hint Resolve conserves_refl conserves_ensure_balance conserves_release
  conserves_reserve conserves_set_openOrders_insert
  conserves_set_openOrders_delete conserves_set_closedOrders
  conserves_set_cancelledOrders : conserve.

(** Splits a stack of state updates into its layers. *)
Ltac conserve_chain :=
  lazymatch goal with
  | |- conserves ?s ?s => apply conserves_refl
  | |- conserves ?s (?T ?x) =>
      apply (conserves_trans s x (T x)); [conserve_chain|]
  end.

Lemma is_fin_balanceOf s c :
  finite_state s ->
  is_fin (_free (balanceOf s c)) /\ is_fin (_used (balanceOf s c))
  /\ is_fin (_locked (balanceOf s c)).
Proof.
  intros Hs. unfold balanceOf. cbn.
  assert (is_fin (free (default (mkIBalance (Fin 0) (Fin 0)) (balances s !! c)))
          /\ is_fin (used (default (mkIBalance (Fin 0) (Fin 0)) (balances s !! c))))
    as [Hf Hu].
  { destruct (balances s !! c) eqn:E; cbn; [|done]. eapply fin_balances; eauto. }
  split; [done|]. split; [done|].
  apply is_fin_or_else; [done|]. left. apply is_fin_min; [|done].
  apply is_fin_opt_or_else; [done|]. intros v Hv. eapply fin_reserves; eauto.
Qed.

Lemma is_fin_Balance_free s c : finite_state s -> is_fin (Balance_free (balanceOf s c)).
Proof.
  intros Hs. destruct (is_fin_balanceOf s c Hs) as (? & ? & ?).
  unfold Balance_free. auto with fin.
Qed.


(** ** cancelOrder *)

Lemma cancelOrder_ok env order e :
  lockdown (_state e) = false -> status order = "open"%string ->
  exists e', cancelOrder env order e = (Return tt, e') /\
     (simulation (_state e) = true ->
      cancelledOrders (_state e')
      = <[id order := cancelled_order env order]> (cancelledOrders (_state e))
      /\ openOrders (_state e') = delete (id order) (openOrders (_state e))
      /\ closedOrders (_state e') =
           if (filled order >? Fin 0)%js
           then <[id order := cancelled_order env order]>
                  (closedOrders (_state e))
           else closedOrders (_state e)).
Proof.
  intros Hl Hs. unfold cancelled_order, cancelOrder. run_body.
  rewrite Hl, Hs. change (String.eqb "open" "open") with true.
  cbv beta iota delta [negb].
  destruct (simulation (_state e)) eqn:Hsim; cbn [negb andb].
  - destruct (side order), (filled order >? 0)%js;
      (eexists; split; [reflexivity|]; intros _; cbn [_state set_state snd]);
      to_set_balances; done.
  - destruct (_dryRun e);
      [|destruct (_exchange e) as [r|]; [destruct (r_cancelOrder r order)|]];
      cbn [negb]; destruct (side order), (filled order >? 0)%js;
      eexists; (split; [reflexivity|done]).
Qed.


(** ** Balance conservation under createOrder and cancelOrder *)

Lemma createAccepts_price o s tk :
  createAccepts o s tk = true -> truthy (limitPrice o tk) = true.
Proof.
  unfold createAccepts. intros H.
  destruct (truthy (limitPrice o tk)); [done|].
  cbn in H. by rewrite !andb_false_r in H.
Qed.

Lemma createdLimit_conserves env o e tk :
  tickers (_state e) !! o_market o = Some tk ->
  createAccepts o (_state e) tk = true ->
  is_fin (o_amount o) ->
  (forall p, o_price o = Some p -> is_fin p) ->
  conserves (_state e) (_state (snd (createdLimit env o e tk))).
Proof.
  intros Htk Hacc Ha Hp Hfin.
  pose proof (createAccepts_price _ _ _ Hacc) as Htp.
  assert (is_fin (limitPrice o tk)) as Hprice.
  { unfold limitPrice. destruct (o_price o) as [p|] eqn:Ep; cbn; [by apply Hp|].
    destruct (fin_tickers _ Hfin _ _ Htk). by destruct (o_side o). }
  pose proof (conserves_ensure_balance (quoteCurrencyOf (o_market o)) _ Hfin)
    as [Hfin1 _].
  pose proof (conserves_ensure_balance (baseCurrencyOf (o_market o)) _ Hfin1)
    as [Hfin2 _].
  pose proof (is_fin_Balance_free _ (quoteCurrencyOf (o_market o)) Hfin1) as Hq.
  pose proof (is_fin_Balance_free _ (baseCurrencyOf (o_market o)) Hfin2) as Hb.
  assert (is_fin (affordableAmount (o_side o) (limitPrice o tk) (o_amount o)
                    (balanceOf (ensure_balance (quoteCurrencyOf (o_market o)) (_state e))
                               (quoteCurrencyOf (o_market o)))
                    (balanceOf (ensure_balance (baseCurrencyOf (o_market o))
                                  (ensure_balance (quoteCurrencyOf (o_market o)) (_state e)))
                               (baseCurrencyOf (o_market o))))) as Hamt.
  { unfold affordableAmount. destruct (o_side o); [|auto with fin].
    apply is_fin_div; auto with fin. }
  revert Hfin. change (conserves (_state e) (_state (snd (createdLimit env o e tk)))).
  unfold createdLimit, reservedState, createdOrder.
  destruct (remoteCreate o e tk) as [[rid|]|]; destruct (o_side o);
    cbn [snd _state id set_id price amount];
    conserve_chain; auto with conserve fin.
Qed.

Lemma createOrder_conserves env o e :
  limit_call (CreateOrder env o) ->
  conserves (_state e) (_state (snd (createOrder env o e))).
Proof.
  intros (Hty & Ha & Hp).
  destruct (tickers (_state e) !! o_market o) as [tk|] eqn:Htk.
  2:{ destruct (createOrder_no_ticker env o e Htk) as [msg ->]. apply conserves_refl. }
  destruct (createAccepts o (_state e) tk) eqn:Hacc.
  - rewrite (createOrder_limit_accepted env o e tk Hty Htk Hacc).
    by apply createdLimit_conserves.
  - destruct (createOrder_limit_rejected env o e tk Hty Htk Hacc) as [msg ->].
    apply conserves_refl.
Qed.

Lemma cancelOrder_conserves env order e :
  is_fin (price order) -> is_fin (amount order) ->
  conserves (_state e) (_state (snd (cancelOrder env order e))).
Proof.
  intros Hp Ha. unfold cancelOrder. run_body.
  destruct (lockdown (_state e)); [apply conserves_refl|].
  destruct (negb (String.eqb (status order) "open")); [apply conserves_refl|].
  destruct (negb _) eqn:Hr; cbn [snd _state set_state];
    [conserve_chain; auto with conserve|].
  destruct (side order), (filled order >? 0)%js; cbn [snd _state set_state];
    conserve_chain; auto with conserve fin.
Qed.

Lemma run_call_conserves c e :
  limit_call c -> conserves (_state e) (_state (snd (run_call c e))).
Proof.
  destruct c as [env o|env i]; intros Hc.
  - unfold run_call. rewrite bind_run.
    pose proof (createOrder_conserves env o e Hc) as H.
    destruct (createOrder env o e) as [[r|msg] e1]; exact H.
  - unfold run_call. run_body. intros Hfin. revert Hfin.
    change (conserves (_state e)
              (_state (snd (match openOrders (_state e) !! i with
                            | Some order => cancelOrder env order
                            | None => fun e => (Return tt, e)
                            end e)))).
    destruct (openOrders (_state e) !! i) as [order|] eqn:E;
      [|apply conserves_refl].
    intros Hfin. destruct (fin_openOrders _ Hfin _ _ E).
    by apply cancelOrder_conserves.
Qed.

Lemma run_calls_conserves cs : forall e,
  Forall limit_call cs -> conserves (_state e) (_state (run_calls cs e)).
Proof.
  induction cs as [|c cs IH]; intros e Hcs; cbn; [apply conserves_refl|].
  inversion Hcs; subst.
  eapply conserves_trans; [by apply run_call_conserves|by apply IH].
Qed.


(** ** Fulfilment of limit orders *)

(** C2.  The sell branch of [_checkFullfillOrder] closes the order
    without writing [timestampClosed].  On the open limit sell at 100 placed
    at time 1000, with the latest candle {low: 99, high: 101, volume: 10,
    timestamp: 1001}, the order fills (it is moved to closedOrders with
    status closed, filled = amount, remaining = 0) and its [timestampClosed]
    is still unset; the buy order of the same scenario is closed with
    [timestampClosed] = now. *)
Theorem fulfilled_sell_has_no_timestampClosed :
  let now := Scenario.env 2000 in
  let sell := Scenario.s2_sell in
  let r := _checkFullfillOrder now sell (Scenario.s2 sell) in
  let buy := Scenario.s2_buy in
  let rb := _checkFullfillOrder now buy (Scenario.s2 buy) in
  (openOrders (_state (Scenario.s2 sell)) !! id sell = Some sell
   /\ (timestamp sell <? c_timestamp Scenario.s2_candle)%js = true
   /\ (volume Scenario.s2_candle >? Fin 0)%js = true
   /\ (high Scenario.s2_candle >? price sell)%js = true)
  /\ fst r = Return tt
  /\ openOrders (_state (snd r)) !! id sell = None
  /\ (exists o, closedOrders (_state (snd r)) !! id sell = Some o
                /\ status o = "closed"%string /\ filled o = amount sell
                /\ remaining o = Fin 0 /\ timestampClosed o = None)
  /\ (exists o, closedOrders (_state (snd rb)) !! id buy = Some o
                /\ status o = "closed"%string
                /\ timestampClosed o = Some (currentTime now)).
Proof.
  cbv zeta. split; [by vm_compute|]. split; [by vm_compute|].
  split; [by vm_compute|].
  split; eexists; (split; [vm_compute; reflexivity|by vm_compute]).
Qed.

(** ** Syncing tickers *)

Lemma merge_same {V} (m : gmap string V) : merge m m = m.
Proof. unfold merge. exact (idemp (∪) m). Qed.

(** C6.  A successful [syncTickers] assigns the fetched snapshot to the
    local ticker map before merging the snapshot into it, so a ticker
    that is only known locally is lost: here SIM/USDT, present before the
    call and absent from the snapshot, is gone after the call has returned
    true. *)
Theorem syncTickers_drops_local_tickers :
  let r := syncTickers (Some ["BTC/USDT"%string]) Scenario.s6 in
  is_Some (tickers (_state Scenario.s6) !! "SIM/USDT"%string)
  /\ Scenario.s6_snapshot !! "SIM/USDT"%string = None
  /\ fst r = Return true
  /\ tickers (_state (snd r)) !! "SIM/USDT"%string = None
  /\ tickers (_state (snd r)) = Scenario.s6_snapshot.
Proof.
  cbv zeta. split; [by eexists; vm_compute|]. split; [by vm_compute|].
  split; [by vm_compute|]. split; [by vm_compute|]. by vm_compute.
Qed.

(** ** Quoting *)

Lemma Qle_bool_total a b : Qle_bool a b = false -> Qle_bool b a = true.
Proof.
  intros H. apply Qle_bool_iff. destruct (Qlt_le_dec b a) as [Hlt|Hle].
  - by apply Qlt_le_weak.
  - apply Qle_bool_iff in Hle. congruence.
Qed.

Lemma Qle_bool_refl a : Qle_bool a a = true.
Proof. apply Qle_bool_iff. apply Qle_refl. Qed.

Lemma min_le_l x y : is_nan (min x y) = false -> (min x y <=? x)%js = true.
Proof.
  unfold min. destruct x as [a| | |], y as [b| | |]; cbn; try done.
  - destruct (Qle_bool a b) eqn:E; cbn; intros _.
    + apply Qle_bool_refl.
    + by apply Qle_bool_total.
  - intros _. apply Qle_bool_refl.
Qed.

Lemma max_ge_l x y : is_nan (max x y) = false -> (x <=? max x y)%js = true.
Proof.
  unfold max. destruct x as [a| | |], y as [b| | |]; cbn; try done.
  - destruct (Qle_bool a b) eqn:E; cbn; intros _.
    + done.
    + apply Qle_bool_refl.
  - intros _. apply Qle_bool_refl.
Qed.

(** C7, as amended.  When the sanity check passes, the bid of
    [computeQuote] is at most the mid price and the ask is at least the mid
    price, as far as they are numbers at all (a NaN quote compares with
    nothing); when the check fails, the quote is {bid: 0, ask: 0} whatever
    the mid price. *)
Theorem computeQuote_never_crosses_mid
    (Math_sqrt Math_log : number -> number)
    (Math_pow : number -> number -> number)
    (p : GBM.IMarketModelParameters) :
  let q := GBM.computeQuote Math_sqrt Math_log Math_pow p in
  (GBM.sane p = true ->
   (is_nan (GBM.bid q) = false -> (GBM.bid q <=? GBM.midPrice p)%js = true)
   /\ (is_nan (GBM.ask q) = false -> (GBM.midPrice p <=? GBM.ask q)%js = true))
  /\ (GBM.sane p = false -> q = GBM.mkQuote (Fin 0) (Fin 0)).
Proof.
  cbv zeta. unfold GBM.computeQuote. split.
  - intros Hs. rewrite Hs. unfold GBM.sane in Hs.
    destruct (GBM.buy p) as [b|], (GBM.sell p) as [s|];
      try (by rewrite andb_false_r in Hs).
    cbn [negb GBM.bid GBM.ask]. split; [apply min_le_l|apply max_ge_l].
  - intros ->. cbn. by destruct (GBM.buy p), (GBM.sell p).
Qed.

(** The amended C7 at a concrete input: volatility 0.05, risk aversion
    0.1, A = k = 1 on both sides, mid price 100. *)
Lemma computeQuote_never_crosses_mid_witness :
  let p := GBM.mkParameters (Fin 0.05) (Fin 0) (Fin 0.1)
             (Some (GBM.mkDynamic (Fin 1) (Fin 1)))
             (Some (GBM.mkDynamic (Fin 1) (Fin 1)))
             (Fin 100) (Fin 0) None in
  let q := GBM.computeQuote Scenario.noMath1 Scenario.noMath1
                            Scenario.noMath2 p in
  GBM.sane p = true
  /\ (GBM.bid q <=? GBM.midPrice p)%js = true
  /\ (GBM.midPrice p <=? GBM.ask q)%js = true.
Proof.
  cbv zeta. split; [reflexivity|].
  match goal with |- context [GBM.computeQuote ?a ?b ?c ?p] =>
    destruct (computeQuote_never_crosses_mid a b c p) as [H _]
  end.
  destruct (H eq_refl) as [Hb Ha]. split; [apply Hb|apply Ha]; reflexivity.
Defined.

(** C7 as stated fails: with sigma = 0 the sanity check returns the quote
    {bid: 0, ask: 0}, whose ask lies below the mid price 100. *)
Lemma computeQuote_zero_sigma_ask_below_mid :
  let p := Scenario.s7_parameters in
  let q := GBM.computeQuote Scenario.noMath1 Scenario.noMath1
                            Scenario.noMath2 p in
  q = GBM.mkQuote (Fin 0) (Fin 0)
  /\ (GBM.midPrice p <=? GBM.ask q)%js = false
  /\ (GBM.ask q <? GBM.midPrice p)%js = true.
Proof. cbv zeta. split; [reflexivity|]. split; reflexivity. Qed.

(** ** The drawdown guard *)

Lemma getBalances_loop_returns (ks : list string) : forall e,
  exists bs e',
    promise_all (fun k => b <- getBalance k ;; ret (k, b)) ks e = (Return bs, e')
    /\ posted e' = posted e.
Proof.
  set (f := fun k => b <- getBalance k ;; ret (k, b)).
  assert (Hf : forall k e,
             f k e = (Return (k, balanceOf (ensure_balance (currencyOf k) (_state e))
                                           (currencyOf k)),
                      set_state (ensure_balance (currencyOf k)) e))
    by reflexivity.
  induction ks as [|k ks IH]; intros e; cbn [promise_all].
  - by exists [], e.
  - rewrite Hf.
    destruct (IH (set_state (ensure_balance (currencyOf k)) e))
      as (bs & e' & -> & Hp).
    eexists _, _. split; [reflexivity|]. by rewrite Hp.
Qed.

Lemma getBalances_returns ks e :
  exists balance e',
    getBalances ks e = (Return balance, e') /\ posted e' = posted e.
Proof.
  unfold getBalances. rewrite bind_run. cbv beta iota delta [gets].
  rewrite bind_run.
  match goal with |- context [promise_all ?f ?l e] =>
    destruct (getBalances_loop_returns l e) as (bs & e' & E & Hp)
  end.
  rewrite E. cbv beta iota delta [ret]. eauto.
Qed.

Lemma getTotalBalanceFromMarkets_posted includeReserve ms fiat e :
  posted (snd (getTotalBalanceFromMarkets includeReserve ms fiat e)) = posted e.
Proof.
  unfold getTotalBalanceFromMarkets, getTotalBalance, markets, getTickers.
  rewrite !bind_run. cbv beta iota delta [gets ret].
  rewrite !bind_run. cbv beta iota delta [gets ret].
  match goal with |- context [getBalances ?ks e] =>
    destruct (getBalances_returns ks e) as (bs & e' & -> & Hp)
  end.
  by cbn.
Qed.


(** ** Properties kept by the methods *)

Section Keeps.
Context (Q : IExchangeState -> Prop).
Lemma keeps_ret {A} (a : A) : keeps Q (ret a).
Proof. by intros e. Qed.
Lemma keeps_throw {A} msg : keeps Q (@throw A msg).
Proof. by intros e. Qed.
Lemma keeps_get : keeps Q get.
Proof. by intros e. Qed.
Lemma keeps_gets {A} (f : IExchangeState -> A) : keeps Q (gets f).
Proof. by intros e. Qed.
Lemma keeps_post ty data : keeps Q (post ty data).
Proof. by intros e. Qed.
Lemma keeps_generateOrderId env : keeps Q (_generateOrderId env).
Proof. by intros e. Qed.
Lemma keeps_modify f : (forall s, Q s -> Q (f s)) -> keeps Q (modify f).
Proof. intros Hf e. cbn. apply Hf. Qed.
Lemma keeps_bind {A B} (c : M A) (k : A -> M B) :
  keeps Q c -> (forall a, keeps Q (k a)) -> keeps Q (bind c k).
Proof.
  intros Hc Hk e He. unfold bind. specialize (Hc e He).
  destruct (c e) as [[a|msg] e1]; cbn in *; [by apply Hk|done].
Qed.
Lemma keeps_try_catch {A} (c : M A) (h : string -> M A) :
  keeps Q c -> (forall msg, keeps Q (h msg)) -> keeps Q (try_catch c h).
Proof.
  intros Hc Hh e He. unfold try_catch. specialize (Hc e He).
  destruct (c e) as [[a|msg] e1]; cbn in *; [done|by apply Hh].
Qed.
Lemma keeps_promise_all {A B} (f : A -> M B) (l : list A) :
  (forall x, keeps Q (f x)) -> keeps Q (promise_all f l).
Proof.
  intros Hf. induction l as [|x l IH]; intros e He; cbn; [done|].
  specialize (Hf x e He). destruct (f x e) as [o1 e1]. cbn in Hf.
  specialize (IH e1 Hf). by destruct (promise_all f l e1) as [o2 e2].
Qed.
Lemma keeps_for_each {A} (f : A -> M unit) (l : list A) :
  (forall x, keeps Q (f x)) -> keeps Q (for_each f l).
Proof.
  intros Hf. induction l as [|x l IH]; cbn [for_each].
  - apply keeps_ret.
  - by apply keeps_bind.
Qed.
End Keeps.

Ltac keeps_step solve_modify :=
  lazymatch goal with
  | |- keeps _ (bind _ _) => apply keeps_bind; [|intros ?]
  | |- keeps _ (ret _) => apply keeps_ret
  | |- keeps _ (throw _) => apply keeps_throw
  | |- keeps _ get => apply keeps_get
  | |- keeps _ (gets _) => apply keeps_gets
  | |- keeps _ (post _ _) => apply keeps_post
  | |- keeps _ (_generateOrderId _) => apply keeps_generateOrderId
  | |- keeps _ (modify _) => apply keeps_modify; solve_modify
  | |- keeps _ (try_catch _ _) => apply keeps_try_catch; [|intros ?]
  | |- keeps _ (promise_all _ _) => apply keeps_promise_all; intros ?
  | |- keeps _ (for_each _ _) => apply keeps_for_each; intros ?
  | |- keeps _ (if ?b then _ else _) => destruct b
  | |- keeps _ (match ?x with _ => _ end) => destruct x
  | |- keeps _ (let _ := _ in _) => cbv zeta
  end.


(** *** The tickers *)

Lemma tickers_ensure_balance c s : tickers (ensure_balance c s) = tickers s.
Proof. by rewrite ensure_balance_eq. Qed.

Ltac keep_state :=
  intros ? ?; unfold tickers_are in *; to_set_balances; cbn; assumption.

Lemma keeps_getBalance T c : keeps (tickers_are T) (getBalance c).
Proof. unfold getBalance. cbv zeta. repeat keeps_step keep_state. Qed.

Lemma keeps_getTickers T ms : keeps (tickers_are T) (getTickers ms).
Proof. unfold getTickers. repeat keeps_step keep_state. Qed.

Lemma keeps_getTicker T m : keeps (tickers_are T) (getTicker m).
Proof. unfold getTicker. keeps_step keep_state; [apply keeps_getTickers|]. repeat keeps_step keep_state. Qed.

Lemma keeps_getOpenOrders T m sd f : keeps (tickers_are T) (getOpenOrders m sd f).
Proof. unfold getOpenOrders. repeat keeps_step keep_state. Qed.

Lemma keeps_cancelOrder T env o : keeps (tickers_are T) (cancelOrder env o).
Proof.
  unfold cancelOrder. cbv zeta.
  repeat first [apply keeps_getBalance | keeps_step keep_state].
Qed.

Lemma keeps_retrieveLatestCandle T m tf cd :
  keeps (tickers_are T) (retrieveLatestCandle m tf cd).
Proof. unfold retrieveLatestCandle, retrieveCandles. repeat keeps_step keep_state. Qed.

Lemma keeps_checkFullfillOrder T env o :
  keeps (tickers_are T) (_checkFullfillOrder env o).
Proof.
  unfold _checkFullfillOrder. cbv zeta.
  repeat first [apply keeps_getBalance | apply keeps_retrieveLatestCandle
               | keeps_step keep_state].
Qed.

Lemma keeps_fulfillLimitOrders T env m :
  keeps (tickers_are T) (fulfillLimitOrders env m).
Proof.
  unfold fulfillLimitOrders.
  repeat first [apply keeps_getOpenOrders | apply keeps_checkFullfillOrder
               | keeps_step keep_state].
Qed.

Lemma keeps_countOpenOrdersLoop T r dry skip ids : forall n,
  keeps (tickers_are T) (countOpenOrdersLoop r dry skip ids n).
Proof.
  induction ids as [|i ids IH]; intros n; cbn [countOpenOrdersLoop].
  - apply keeps_ret.
  - repeat first [apply IH | keeps_step keep_state].
Qed.

Lemma keeps_syncOrders T env m : keeps (tickers_are T) (syncOrders env m).
Proof.
  unfold syncOrders. cbv zeta.
  repeat first [apply keeps_getBalance | apply keeps_cancelOrder
               | apply keeps_countOpenOrdersLoop | keeps_step keep_state].
Qed.


(** ** Purging *)

Lemma foldl_delete_if (P : IOrder -> bool)
    (step : gmap string IOrder -> string -> gmap string IOrder)
    (ids : list string) :
  (forall m k, step m k = match m !! k with
                          | None => m
                          | Some o => if P o then delete k m else m
                          end) ->
  forall (m : gmap string IOrder) (i : string),
    foldl step m ids !! i
    = match m !! i with
      | Some o => if bool_decide (i ∈ ids) && P o then None else Some o
      | None => None
      end.
Proof.
  intros Hstep.
  induction ids as [|k ids IH]; intros m i; cbn [foldl]; rewrite ?Hstep.
  - destruct (m !! i); [|done]. by rewrite bool_decide_eq_false_2 by set_solver.
  - rewrite IH. destruct (m !! k) as [ok|] eqn:Ek.
    + destruct (P ok) eqn:EP.
      * rewrite lookup_delete. case_decide as Hki.
        -- subst. rewrite Ek, bool_decide_eq_true_2 by set_solver.
           cbn. by rewrite EP.
        -- destruct (m !! i) as [oi|]; [|done].
           destruct (decide (i ∈ ids)).
           ++ by rewrite !bool_decide_eq_true_2 by set_solver.
           ++ by rewrite !bool_decide_eq_false_2 by set_solver.
      * destruct (m !! i) as [oi|] eqn:Ei; [|done].
        destruct (decide (i = k)) as [->|Hne].
        -- assert (oi = ok) as -> by congruence.
           rewrite EP, !andb_false_r. done.
        -- destruct (decide (i ∈ ids)).
           ++ by rewrite !bool_decide_eq_true_2 by set_solver.
           ++ by rewrite !bool_decide_eq_false_2 by set_solver.
    + destruct (m !! i) as [oi|] eqn:Ei; [|done].
      assert (i ≠ k) by congruence.
      destruct (decide (i ∈ ids)).
      * by rewrite !bool_decide_eq_true_2 by set_solver.
      * by rewrite !bool_decide_eq_false_2 by set_solver.
Qed.

Lemma elem_of_keys {V} (m : gmap string V) i : i ∈ keys m <-> is_Some (m !! i).
Proof.
  unfold keys. rewrite list_elem_of_fmap. split.
  - intros ([k v] & -> & H). apply elem_of_map_to_list in H. by eexists.
  - intros [v H]. exists (i, v). split; [done|]. by apply elem_of_map_to_list.
Qed.

Lemma purgeClosed_lookup env market (m : gmap string IOrder) i :
  purgeClosed env market (keys m) m !! i
  = match m !! i with
    | Some o => if negb (otherMarket market o) && purgeDue env o
                then None else Some o
    | None => None
    end.
Proof.
  unfold purgeClosed.
  rewrite (foldl_delete_if
             (fun o => negb (otherMarket market o) && purgeDue env o)).
  2:{ intros m' k. destruct (m' !! k) as [o|]; [|done]. unfold otherMarket.
      by destruct (str_truthy market && _), (purgeDue env o). }
  destruct (m !! i) as [o|] eqn:E; [|done].
  rewrite bool_decide_eq_true_2; [done|]. apply elem_of_keys. by eexists.
Qed.

Lemma purgeCancelled_lookup env (m : gmap string IOrder) i :
  purgeCancelled env (keys m) m !! i
  = match m !! i with
    | Some o => if purgeDue env o then None else Some o
    | None => None
    end.
Proof.
  unfold purgeCancelled. rewrite (foldl_delete_if (purgeDue env)); [|done].
  destruct (m !! i) as [o|] eqn:E; [|done].
  rewrite bool_decide_eq_true_2; [done|]. apply elem_of_keys. by eexists.
Qed.

(** C5, as amended.  [purgeOrderList] removes from closedOrders exactly
    the orders, of the given market when one is given, whose creation
    [timestamp] lies more than seven days before the current time, and from
    cancelledOrders exactly the orders, of any market, whose creation
    [timestamp] does; every other closed or cancelled order stays as it
    is, and so do the open orders. *)
Theorem purgeOrderList_by_creation_time
    (env : Env) (market : option string) (e : Exchange) :
  let r := purgeOrderList env market e in
  fst r = Return tt
  /\ (forall i,
        closedOrders (_state (snd r)) !! i
        = match closedOrders (_state e) !! i with
          | Some o => if negb (otherMarket market o) && purgeDue env o
                      then None else Some o
          | None => None
          end)
  /\ (forall i,
        cancelledOrders (_state (snd r)) !! i
        = match cancelledOrders (_state e) !! i with
          | Some o => if purgeDue env o then None else Some o
          | None => None
          end)
  /\ openOrders (_state (snd r)) = openOrders (_state e).
Proof.
  cbv zeta. unfold purgeOrderList. run_body. cbn.
  split; [done|]. split; [|split; [|done]]; intros i.
  - apply purgeClosed_lookup.
  - apply purgeCancelled_lookup.
Qed.

(** C5 as stated fails: the purge goes by the creation time.  An order
    created at time 0 and closed one minute ago is purged at the time of
    eight days, although its closure lies within the last seven days. *)
Lemma purge_removes_recently_closed_order :
  let env := Scenario.env 691200000 in
  let o := Scenario.s5_order in
  let r := purgeOrderList env None Scenario.s5 in
  closedOrders (_state Scenario.s5) !! id o = Some o
  /\ timestampClosed o = Some (Fin 691140000)
  /\ (Fin 691140000 + purgeAge <? currentTime env)%js = false
  /\ closedOrders (_state (snd r)) !! id o = None.
Proof.
  cbv zeta. split; [by vm_compute|]. split; [reflexivity|].
  split; [reflexivity|]. by vm_compute.
Qed.

(** ** update without a ticker *)

Lemma autoCancelOrders_no_ticker env market e :
  tickers (_state e) !! key_of market = None ->
  autoCancelOrders env market e
  = (Throw ("Unable to retrieve ticker for market " ++ key_of market)%string, e).
Proof.
  intros H. unfold autoCancelOrders. by rewrite bind_run, getTicker_run, H.
Qed.

(** C9.  With lockdown off and a successful [syncOrders], [update] throws
    whenever no ticker is stored under the key of its market argument (the
    key "undefined" when the argument is left out): it neither completes
    nor returns false.  Unless the fulfilment step of the simulation has
    thrown before, the exception is the one of the ticker lookup in the
    auto-cancel step. *)
Theorem update_throws_without_ticker
    (env : Env) (market : option string) (e e1 : Exchange) :
  lockdown (_state e) = false ->
  syncOrders env market e = (Return true, e1) ->
  tickers (_state e) !! key_of market = None ->
  exists msg e',
    update env market e = (Throw msg, e')
    /\ ((simulation (_state e1) = true ->
         exists l, fst (fulfillLimitOrders env market e1) = Return l) ->
        msg = ("Unable to retrieve ticker for market " ++ key_of market)%string).
Proof.
  intros Hl Hsync Htk.
  assert (tickers (_state e1) = tickers (_state e)) as Ht1.
  { pose proof (keeps_syncOrders (tickers (_state e)) env market e eq_refl) as H.
    by rewrite Hsync in H. }
  unfold update. rewrite bind_run. cbv beta iota delta [get]. rewrite Hl.
  rewrite bind_run, Hsync. cbv beta iota delta [negb].
  rewrite bind_run. cbv beta iota delta [gets].
  destruct (simulation (_state e1)) eqn:Hsim.
  - rewrite !bind_run.
    pose proof (keeps_fulfillLimitOrders (tickers (_state e1)) env market e1
                  eq_refl) as Ht2.
    destruct (fulfillLimitOrders env market e1) as [[l|msg] e2] eqn:Hf;
      cbn [snd] in Ht2; unfold tickers_are in Ht2.
    + cbv beta iota delta [ret]. rewrite bind_run.
      rewrite autoCancelOrders_no_ticker by (by rewrite Ht2, Ht1).
      eexists _, _. split; [reflexivity|done].
    + eexists _, _. split; [reflexivity|]. intros H.
      destruct (H eq_refl) as [l Hl']. done.
  - rewrite !bind_run. cbv beta iota delta [ret]. rewrite bind_run.
    rewrite autoCancelOrders_no_ticker by (by rewrite Ht1).
    eexists _, _. split; [reflexivity|done].
Qed.

(** C9 at a concrete input: [update()] without a market argument on the
    simulated exchange of scenario S1. *)
Lemma update_throws_without_ticker_witness :
  lockdown (_state Scenario.s1) = false
  /\ syncOrders (Scenario.env 1000) None Scenario.s1
     = (Return true, Scenario.s1)
  /\ tickers (_state Scenario.s1) !! key_of None = None
  /\ exists e',
      update (Scenario.env 1000) None Scenario.s1
      = (Throw "Unable to retrieve ticker for market undefined", e').
Proof.
  split; [reflexivity|]. split; [reflexivity|]. split; [reflexivity|].
  destruct (update_throws_without_ticker (Scenario.env 1000) None
              Scenario.s1 Scenario.s1 eq_refl eq_refl eq_refl)
    as (msg & e' & Hu & Hmsg).
  exists e'. rewrite Hu. f_equal. f_equal. apply Hmsg.
  intros _. eexists. vm_compute. reflexivity.
Defined.

(** ** The open orders across a sticky update *)

Ltac keep_open :=
  let s := fresh "s" in let Hs := fresh "Hs" in
  intros s Hs; unfold open_from in *; to_set_balances; cbn;
  first [ assumption
        | let i := fresh "i" in let o := fresh "o" in
          intros i o; rewrite lookup_delete; case_decide; [done|apply Hs] ].

Lemma open_getBalance O good c : keeps (open_from O good) (getBalance c).
Proof. unfold getBalance. cbv zeta. repeat keeps_step keep_open. Qed.

Lemma open_getTicker O good m : keeps (open_from O good) (getTicker m).
Proof. intros e He. rewrite getTicker_run. by destruct (_ !! _). Qed.

Lemma open_cancelOrder O good env o : keeps (open_from O good) (cancelOrder env o).
Proof.
  unfold cancelOrder. cbv zeta.
  repeat first [apply open_getBalance | keeps_step keep_open].
Qed.

Lemma open_syncOrderBook O good ms : keeps (open_from O good) (syncOrderBook ms).
Proof. unfold syncOrderBook. repeat keeps_step keep_open. Qed.

Lemma open_getOrderBook O good m : keeps (open_from O good) (getOrderBook m).
Proof. unfold getOrderBook. repeat keeps_step keep_open. Qed.

Lemma open_getMinDealAmount O good m : keeps (open_from O good) (getMinDealAmount m).
Proof. unfold getMinDealAmount. repeat keeps_step keep_open. Qed.

Lemma openOrders_ensure_balance c s : openOrders (ensure_balance c s) = openOrders s.
Proof. by rewrite ensure_balance_eq. Qed.

Lemma openOrders_reservedState o s order :
  openOrders (reservedState o s order) = openOrders s.
Proof. unfold reservedState. destruct (o_side o); by to_set_balances. Qed.

Lemma open_createOrder O (good : IOrder -> Prop) env o :
  o_type o = Limit ->
  (forall ord, side ord = o_side o ->
               autoCancelAtPriceLevel ord
               = Some (default (defaultPriceLevel (o_side o))
                               (o_autoCancelAtPriceLevel o)) ->
               good ord) ->
  keeps (open_from O good) (createOrder env o).
Proof.
  intros Hty Hgood e He.
  destruct (tickers (_state e) !! o_market o) as [tk|] eqn:Htk.
  2:{ by destruct (createOrder_no_ticker env o e Htk) as [msg ->]. }
  destruct (createAccepts o (_state e) tk) eqn:Hacc.
  2:{ by destruct (createOrder_limit_rejected env o e tk Hty Htk Hacc) as [msg ->]. }
  rewrite (createOrder_limit_accepted env o e tk Hty Htk Hacc).
  unfold createdLimit.
  destruct (remoteCreate o e tk) as [[rid|]|]; cbn [snd _state];
    unfold open_from; rewrite ?openOrders_ensure_balance;
    cbn [openOrders set_openOrders]; rewrite ?openOrders_reservedState;
    try exact He;
    (intros i ord; rewrite lookup_insert; case_decide; [|apply He];
     intros [= <-]; right; by apply Hgood).
Qed.

(** C10.  Every open order that results from the sticky update of an
    order and was not open before (the replacement) carries the default
    price-level auto-cancel of the original's side, Infinity for a buy and
    0 for a sell, whatever the original's [autoCancelAtPriceLevel] was. *)
Theorem sticky_replacement_has_default_price_level
    (env : Env) (order : IOrder) (e : Exchange) (i : string) (o' : IOrder) :
  openOrders (_state (snd (_updateStickyOrder env order e))) !! i = Some o' ->
  openOrders (_state e) !! i <> Some o' ->
  side o' = side order
  /\ autoCancelAtPriceLevel o' = Some (defaultPriceLevel (side order)).
Proof.
  intros Hafter Hbefore.
  set (good := fun ord : IOrder =>
                 side ord = side order
                 /\ autoCancelAtPriceLevel ord
                    = Some (defaultPriceLevel (side order))).
  assert (keeps (open_from (openOrders (_state e)) good)
                (_updateStickyOrder env order)) as Hk.
  { unfold _updateStickyOrder. cbv zeta.
    repeat first [ apply open_getTicker | apply open_syncOrderBook
                 | apply open_getOrderBook | apply open_cancelOrder
                 | apply open_getMinDealAmount
                 | apply open_createOrder; [done|by intros ord ? ?]
                 | keeps_step keep_open ]. }
  destruct (Hk e (fun j o Ho => or_introl Ho) i o' Hafter) as [H|H]; done.
Qed.

(** C10 at a concrete input: the sticky buy of the repricing scenario,
    which carries a price level of 120, is replaced at the new bid 110 by
    an order whose price level is Infinity. *)
Lemma sticky_replacement_has_default_price_level_witness :
  let r := _updateStickyOrder (Scenario.env 2000) Scenario.s3_order
                              (Scenario.s3 110) in
  autoCancelAtPriceLevel Scenario.s3_order = Some (Fin 120)
  /\ exists o',
      openOrders (_state (snd r)) !! "r4nd0m1d00000000"%string = Some o'
      /\ openOrders (_state (Scenario.s3 110)) !! "r4nd0m1d00000000"%string
         <> Some o'
      /\ side o' = Buy
      /\ autoCancelAtPriceLevel o' = Some PInf.
Proof.
  cbv zeta. split; [reflexivity|].
  eexists. split; [vm_compute; reflexivity|].
  split; [by vm_compute|].
  apply (sticky_replacement_has_default_price_level
           (Scenario.env 2000) Scenario.s3_order (Scenario.s3 110)
           "r4nd0m1d00000000").
  - vm_compute. reflexivity.
  - by vm_compute.
Defined.

(** ** The sticky update *)

Lemma getMinDealAmount_run m e :
  getMinDealAmount m e = (Return (minDealAmountOf e m), e).
Proof.
  unfold getMinDealAmount, minDealAmountOf. run_body.
  destruct (minDealAmounts (_state e) !! m) as [v|];
    [destruct (truthy v)|]; by destruct (_exchange e).
Qed.

Lemma set_orderBooks_same e :
  set_state (set_orderBooks (fun _ => orderBooks (_state e))) e = e.
Proof. by destruct e as [[] ? ? ? ?]. Qed.

Lemma syncOrderBook_run ms e :
  exists b,
    syncOrderBook ms e
    = (Return b,
       set_state (set_orderBooks (fun _ => syncedOrderBooks e ms)) e).
Proof.
  unfold syncOrderBook, syncedOrderBooks. run_body.
  destruct (_exchange e) as [r|];
    [destruct (simulation (_state e));
     [|destruct (r_fetchOrderBook r ms) as [fetched|]]|];
    rewrite ?set_orderBooks_same; eexists; reflexivity.
Qed.

Lemma getOrderBook_run m e :
  getOrderBook m e
  = (Return (default (mkOrderBook [] []) (orderBooks (_state e) !! m)), e).
Proof. reflexivity. Qed.

Lemma cancelOrder_run env order e :
  lockdown (_state e) = false -> status order = "open"%string ->
  exists evs,
    cancelOrder env order e
    = (Return tt,
       mkExchange (afterCancel env order e) (_exchange e)
                  (_dryRun e) (evs ++ posted e) (generated e)).
Proof.
  destruct e as [s remote dry evs0 n]. cbn [_state]. intros Hl Hs.
  unfold cancelOrder, afterCancel, cancelGoesThrough, cancelledState,
    cancelled_order.
  cbv beta iota zeta delta [bind get ret throw modify post gets].
  cbn [_state set_state _exchange _dryRun posted generated].
  rewrite Hl, Hs. change (String.eqb "open" "open") with true.
  cbv beta iota.
  destruct (simulation s), dry;
    try (destruct remote as [r|]; [destruct (r_cancelOrder r order)|]).
  all: cbn [negb andb _state set_state _exchange _dryRun posted generated].
  all: repeat (rewrite ?getBalance_run, ?currencyOf_quote, ?currencyOf_base;
               cbn [_state set_state _exchange _dryRun posted generated]).
  all: try (exists (@nil IEvent); reflexivity).
  all: destruct (side order), (filled order >? 0)%js;
    cbn [_state set_state _exchange _dryRun posted generated];
    repeat (rewrite ?getBalance_run, ?currencyOf_quote, ?currencyOf_base;
            cbn [_state set_state _exchange _dryRun posted generated]);
    eexists [_]; reflexivity.
Qed.

Lemma ensureB_present c (m : gmap string IBalance) :
  is_Some (m !! c) -> ensureB c m = m.
Proof. intros [b H]. unfold ensureB. by rewrite H. Qed.

Lemma ensureB_lookup_same c (m : gmap string IBalance) :
  is_Some (ensureB c m !! c).
Proof.
  unfold ensureB. destruct (m !! c) eqn:E; [by rewrite E|].
  rewrite lookup_insert_eq. by eexists.
Qed.

Lemma ensureB_lookup_mono c c' (m : gmap string IBalance) :
  is_Some (m !! c) -> is_Some (ensureB c' m !! c).
Proof.
  intros H. unfold ensureB. destruct (m !! c') eqn:E; [done|].
  rewrite lookup_insert. by case_decide.
Qed.

Lemma balanceOf_frame s s' c :
  balances s' = balances s -> reserves s' = reserves s ->
  balanceOf s' c = balanceOf s c.
Proof. intros Hb Hr. unfold balanceOf. by rewrite Hb, Hr. Qed.

Section CancelledState.
Context (env : Env) (order : IOrder) (s : IExchangeState).

Ltac frame_cancelled :=
  unfold cancelledState;
  destruct (side order), (filled order >? Fin 0)%js;
  to_set_balances; reflexivity.

Lemma openOrders_cancelledState :
  openOrders (cancelledState env order s) = delete (id order) (openOrders s).
Proof. frame_cancelled. Qed.

Lemma cancelledOrders_cancelledState :
  cancelledOrders (cancelledState env order s)
  = <[id order := cancelled_order env order]> (cancelledOrders s).
Proof. frame_cancelled. Qed.

Lemma closedOrders_cancelledState :
  closedOrders (cancelledState env order s)
  = if (filled order >? Fin 0)%js
    then <[id order := cancelled_order env order]> (closedOrders s)
    else closedOrders s.
Proof. frame_cancelled. Qed.

Lemma tickers_cancelledState :
  tickers (cancelledState env order s) = tickers s.
Proof. frame_cancelled. Qed.

Lemma lockdown_cancelledState :
  lockdown (cancelledState env order s) = lockdown s.
Proof. frame_cancelled. Qed.

Lemma forceAutoCancel_cancelledState :
  forceAutoCancel (cancelledState env order s) = forceAutoCancel s.
Proof. frame_cancelled. Qed.

Lemma simulation_cancelledState :
  simulation (cancelledState env order s) = simulation s.
Proof. frame_cancelled. Qed.

Lemma minDealAmounts_cancelledState :
  minDealAmounts (cancelledState env order s) = minDealAmounts s.
Proof. frame_cancelled. Qed.

Lemma balances_cancelledState_present :
  is_Some (balances (cancelledState env order s)
           !! quoteCurrencyOf (market order))
  /\ is_Some (balances (cancelledState env order s)
              !! baseCurrencyOf (market order)).
Proof.
  unfold cancelledState.
  rewrite !(ensure_balance_eq _ (set_openOrders _ _)).
  rewrite ensure_balance_eq. cbn [balances set_balances]. split.
  - apply ensureB_lookup_mono, ensureB_lookup_same.
  - apply ensureB_lookup_same.
Qed.
End CancelledState.

Section AfterCancel.
Context (env : Env) (order : IOrder) (e : Exchange).

Ltac frame_after lem :=
  unfold afterCancel; destruct (cancelGoesThrough e order);
  [apply lem | by rewrite !ensure_balance_eq].

Lemma openOrders_afterCancel :
  openOrders (afterCancel env order e)
  = if cancelGoesThrough e order
    then delete (id order) (openOrders (_state e))
    else openOrders (_state e).
Proof. frame_after openOrders_cancelledState. Qed.

Lemma cancelledOrders_afterCancel :
  delete (id order) (cancelledOrders (afterCancel env order e))
  = delete (id order) (cancelledOrders (_state e)).
Proof.
  unfold afterCancel. destruct (cancelGoesThrough e order).
  - by rewrite cancelledOrders_cancelledState, delete_insert_eq.
  - by rewrite !ensure_balance_eq.
Qed.

Lemma tickers_afterCancel :
  tickers (afterCancel env order e) = tickers (_state e).
Proof. frame_after tickers_cancelledState. Qed.

Lemma lockdown_afterCancel :
  lockdown (afterCancel env order e) = lockdown (_state e).
Proof. frame_after lockdown_cancelledState. Qed.

Lemma forceAutoCancel_afterCancel :
  forceAutoCancel (afterCancel env order e) = forceAutoCancel (_state e).
Proof. frame_after forceAutoCancel_cancelledState. Qed.

Lemma simulation_afterCancel :
  simulation (afterCancel env order e) = simulation (_state e).
Proof. frame_after simulation_cancelledState. Qed.

Lemma minDealAmounts_afterCancel :
  minDealAmounts (afterCancel env order e) = minDealAmounts (_state e).
Proof. frame_after minDealAmounts_cancelledState. Qed.

Lemma balances_afterCancel_present :
  is_Some (balances (afterCancel env order e)
           !! quoteCurrencyOf (market order))
  /\ is_Some (balances (afterCancel env order e)
              !! baseCurrencyOf (market order)).
Proof.
  unfold afterCancel. destruct (cancelGoesThrough e order).
  - apply balances_cancelledState_present.
  - rewrite !ensure_balance_eq. cbn [balances set_balances]. split.
    + apply ensureB_lookup_mono, ensureB_lookup_same.
    + apply ensureB_lookup_same.
Qed.
End AfterCancel.

Lemma createAccepts_frame o s s' tk :
  lockdown s' = lockdown s -> forceAutoCancel s' = forceAutoCancel s ->
  createAccepts o s' tk = createAccepts o s tk.
Proof. intros Hl Hf. unfold createAccepts. by rewrite Hl, Hf. Qed.

Lemma remoteCreate_frame o e e' tk :
  _exchange e' = _exchange e ->
  simulation (_state e') = simulation (_state e) ->
  _dryRun e' = _dryRun e ->
  remoteCreate o e' tk = remoteCreate o e tk.
Proof. intros He Hs Hd. unfold remoteCreate. by rewrite He, Hs, Hd. Qed.

(** The sticky update of a sticky open order once the order book is
    synced, step by step. *)
Lemma updateStickyOrder_run env order e e0 tk b :
  syncOrderBook [market order] e = (Return b, e0) ->
  tickers (_state e) !! market order = Some tk ->
  tickers (_state e0) !! market order = Some tk ->
  lockdown (_state e0) = false ->
  sticky order = Some true ->
  status order = "open"%string ->
  let book :=
    default (mkOrderBook [] []) (orderBooks (_state e0) !! market order) in
  let target := stickyPrice tk book order in
  let opts := replacementOptions env order target in
  exists evs,
  let e1 :=
    mkExchange
      (set_cancelledOrders (delete (id order)) (afterCancel env order e0))
      (_exchange e0) (_dryRun e0) (evs ++ posted e0) (generated e0) in
  _updateStickyOrder env order e
  = if (price order === target)%js then (Return tt, e0)
    else if replaceCondition env order (minDealAmountOf e0 (market order))
            && createAccepts opts (_state e0) tk
         then (Return tt, snd (createdLimit env opts e1 tk))
         else (Return tt, e1).
Proof.
  intros Hsync Htk Htk0 Hl Hst Hs book target opts.
  destruct (cancelOrder_run env order e0 Hl Hs) as [evs Hc].
  exists evs. cbv zeta. unfold _updateStickyOrder. rewrite Hst.
  cbn [default from_option negb Datatypes.id].
  rewrite bind_run, getTicker_run, Htk.
  rewrite bind_run, Hsync.
  rewrite bind_run, getOrderBook_run. fold book. fold target.
  destruct (price order === target)%js; [reflexivity|].
  unfold try_catch. rewrite bind_run, Hc.
  rewrite bind_run. cbv beta iota delta [modify].
  cbn [set_state _state _exchange _dryRun posted generated].
  rewrite bind_run, getMinDealAmount_run.
  match goal with |- context [minDealAmountOf ?e1 ?m] =>
    change (minDealAmountOf e1 m) with
      (match minDealAmounts (set_cancelledOrders (delete (id order))
                               (afterCancel env order e0)) !! m with
       | Some v => if truthy v then v
                   else match _exchange e0 with
                        | Some r => r_getMinDealAmount r m | None => Fin 1 end
       | None => match _exchange e0 with
                 | Some r => r_getMinDealAmount r m | None => Fin 1 end
       end)
  end.
  cbn [minDealAmounts set_cancelledOrders].
  rewrite minDealAmounts_afterCancel.
  fold (minDealAmountOf e0 (market order)).
  fold (replaceCondition env order (minDealAmountOf e0 (market order))).
  fold opts.
  destruct (replaceCondition env order _); cbn [andb]; [|reflexivity].
  change (mkExchange
            (set_cancelledOrders (delete (id order))
               (afterCancel env order e0))
            (_exchange e0) (_dryRun e0) (evs ++ posted e0) (generated e0))
    with (set_state (set_cancelledOrders (delete (id order)))
            (mkExchange (afterCancel env order e0)
               (_exchange e0) (_dryRun e0) (evs ++ posted e0) (generated e0))).
  set (e1 := set_state _ (mkExchange _ _ _ _ _)).
  change (mkOptions _ _ _ _ _ _ _ _ _) with opts.
  assert (tickers (_state e1) !! o_market opts = Some tk) as Htk1.
  { subst e1. cbn. by rewrite tickers_afterCancel. }
  assert (createAccepts opts (_state e1) tk = createAccepts opts (_state e0) tk)
    as Hacc1.
  { apply createAccepts_frame; subst e1; cbn.
    - apply lockdown_afterCancel.
    - apply forceAutoCancel_afterCancel. }
  rewrite bind_run.
  destruct (createAccepts opts (_state e0) tk) eqn:Hacc.
  - rewrite (createOrder_limit_accepted env opts e1 tk eq_refl Htk1)
      by (by rewrite Hacc1).
    unfold createdLimit.
    by destruct (remoteCreate opts e1 tk) as [[rid|]|].
  - destruct (createOrder_limit_rejected env opts e1 tk eq_refl Htk1)
      as [msg ->]; [by rewrite Hacc1|]. reflexivity.
Qed.
Lemma cancelledOrders_reservedState o s order :
  cancelledOrders (reservedState o s order) = cancelledOrders s.
Proof. unfold reservedState. destruct (o_side o); by to_set_balances. Qed.

Lemma closedOrders_reservedState o s order :
  closedOrders (reservedState o s order) = closedOrders s.
Proof. unfold reservedState. destruct (o_side o); by to_set_balances. Qed.

Lemma cancelledOrders_ensure_balance c s :
  cancelledOrders (ensure_balance c s) = cancelledOrders s.
Proof. by rewrite ensure_balance_eq. Qed.

Lemma closedOrders_ensure_balance c s :
  closedOrders (ensure_balance c s) = closedOrders s.
Proof. by rewrite ensure_balance_eq. Qed.

Lemma ensure_balance_present c s :
  is_Some (balances s !! c) -> ensure_balance c s = s.
Proof. intros [b H]. unfold ensure_balance. by rewrite H. Qed.

Lemma afterCancel_set_orderBooks env order e books :
  afterCancel env order (set_state (set_orderBooks (fun _ => books)) e)
  = set_orderBooks (fun _ => books) (afterCancel env order e).
Proof.
  unfold afterCancel.
  change (cancelGoesThrough (set_state _ e) order)
    with (cancelGoesThrough e order).
  destruct (cancelGoesThrough e order).
  - unfold cancelledState. cbn [_state set_state].
    destruct (side order), (filled order >? Fin 0)%js;
      to_set_balances; reflexivity.
  - cbn [_state set_state]. by rewrite !ensure_balance_eq.
Qed.




(* ================================================================== *)
(** * Further properties of the exchange *)
(* ================================================================== *)

(** ** Balances and reserves *)

(** Case analysis on the comparisons of rationals that the arithmetic of
    ordinary numbers leaves. *)
Ltac q_hyps :=
  repeat match goal with
         | H : Qle_bool _ _ = true |- _ => apply Qle_bool_iff in H
         | H : Qle_bool ?a ?b = false |- _ =>
             assert (~ (a <= b)%Q)
               by (rewrite <- Qle_bool_iff; rewrite H; discriminate);
             clear H
         | H : Qeq_bool _ _ = true |- _ => apply Qeq_bool_iff in H
         | H : Qeq_bool _ _ = false |- _ => apply Qeq_bool_neq in H
         end.

Ltac q_cases :=
  repeat match goal with
         | |- context [Qle_bool ?a ?b] =>
             let E := fresh "E" in destruct (Qle_bool a b) eqn:E; cbn
         | |- context [Qeq_bool ?a ?b] =>
             let E := fresh "E" in destruct (Qeq_bool a b) eqn:E; cbn
         end;
  q_hyps.

Lemma Qlt_bool_false x y : (y <= x)%Q -> Qlt_bool x y = false.
Proof. intros H. unfold Qlt_bool. by apply negb_false_iff, Qle_bool_iff. Qed.

Lemma Qlt_bool_true x y : (x < y)%Q -> Qlt_bool x y = true.
Proof.
  intros H. unfold Qlt_bool. apply negb_true_iff.
  destruct (Qle_bool y x) eqn:E; [|done]. apply Qle_bool_iff in E. lra.
Qed.

Lemma balances_ensure_balance_same c s :
  balances (ensure_balance c s) !! c
  = Some (default zeroBalance (balances s !! c)).
Proof.
  unfold ensure_balance. destruct (balances s !! c) eqn:E; cbn; [done|].
  by rewrite lookup_insert_eq.
Qed.

Lemma balanceOf_ensure_balance c s :
  balanceOf (ensure_balance c s) c = balanceOf s c.
Proof.
  unfold balanceOf. rewrite balances_ensure_balance_same.
  rewrite ensure_balance_eq. cbn [reserves set_balances]. reflexivity.
Qed.

(** What [getBalance] reports for a stored free amount [f] and a reserve
    [r]: the locked part and the part that is left. *)
Lemma available_locked (f r : Q) :
  let locked := or_else (min (Fin r) (Fin f)) (Fin 0) in
  let available := max (Fin 0) (Fin f - locked)%js in
  (available + locked ≈ Fin f)%js
  /\ (available ≈ max (Fin f - Fin r) (Fin 0))%js
  /\ (locked ≈ min (Fin r) (Fin f))%js.
Proof.
  cbv zeta. unfold or_else, min, max, truthy. cbn.
  destruct (Qle_bool r f) eqn:E1; cbn.
  - destruct (Qeq_bool r 0) eqn:E2; cbn; q_cases; repeat split; lra.
  - destruct (Qeq_bool f 0) eqn:E2; cbn; q_cases; repeat split; lra.
Qed.


Lemma reserves_ensure_balance c s : reserves (ensure_balance c s) = reserves s.
Proof. by rewrite ensure_balance_eq. Qed.

(** X2.  A reserve set with [setReserve] is what [getReserve] returns
    (0 for a reserve of 0 or NaN) and what [getBalance] holds back: the
    available amount is [max(stored free - reserve, 0)].  After
    [clearReserve] the reserve reads 0 and nothing is held back. *)
Theorem setReserve_holds_back (c : string) (e : Exchange) (f r : Q) :
  has_slash c = false ->
  free (default zeroBalance (balances (_state e) !! c)) = Fin f ->
  let e1 := snd (setReserve c (Fin r) e) in
  let e2 := snd (clearReserve c e1) in
  fst (getReserve c e1) = Return (or_else (Fin r) (Fin 0))
  /\ (exists balance,
        fst (getBalance c e1) = Return balance
        /\ (Balance_free balance ≈ max (Fin f - Fin r) (Fin 0))%js
        /\ (Balance_locked balance ≈ min (Fin r) (Fin f))%js)
  /\ fst (getReserve c e2) = Return (Fin 0)
  /\ (exists balance,
        fst (getBalance c e2) = Return balance
        /\ (Balance_free balance ≈ max (Fin f) (Fin 0))%js
        /\ (Balance_locked balance ≈ min (Fin 0) (Fin f))%js).
Proof.
  intros Hc Hf e1 e2.
  assert (currencyOf c = c) as Hcur by (unfold currencyOf; by rewrite Hc).
  split; [|split; [|split]].
  - unfold getReserve, setReserve. run_body. cbn. by rewrite lookup_insert_eq.
  - rewrite getBalance_run, Hcur. eexists. split; [reflexivity|].
    rewrite balanceOf_ensure_balance. unfold balanceOf.
    subst e1. cbn [setReserve modify snd _state set_state balances reserves
                   set_reserves].
    rewrite lookup_insert_eq. fold zeroBalance. rewrite Hf.
    unfold Balance_free, Balance_locked. cbn [_free _locked opt_or_else].
    destruct (available_locked f r) as (H1 & H2 & H3). cbv zeta in *.
    assert (or_else (min (or_else (Fin r) (Fin 0)) (Fin f)) (Fin 0)
            = or_else (min (Fin r) (Fin f)) (Fin 0)) as ->; [|done].
    unfold or_else, truthy, min. cbn.
    destruct (Qeq_bool r 0) eqn:E; cbn; [|done].
    apply Qeq_bool_iff in E.
    assert (Qle_bool 0 f = Qle_bool r f) as ->.
    { destruct (Qle_bool 0 f) eqn:E1, (Qle_bool r f) eqn:E2; q_hyps;
        try done; lra. }
    destruct (Qle_bool r f); cbn; [|done].
    destruct (Qeq_bool r 0) eqn:E3; [done|]. q_hyps. lra.
  - unfold getReserve, clearReserve, setReserve. run_body. cbn.
    by rewrite lookup_delete_eq.
  - rewrite getBalance_run, Hcur. eexists. split; [reflexivity|].
    rewrite balanceOf_ensure_balance. unfold balanceOf.
    subst e2 e1. cbn [setReserve clearReserve modify snd _state set_state
                      balances reserves set_reserves].
    rewrite lookup_delete_eq. fold zeroBalance. rewrite Hf.
    unfold Balance_free, Balance_locked. cbn [_free _locked opt_or_else].
    destruct (available_locked f 0) as (H1 & H2 & H3). cbv zeta in *.
    split; [|done].
    eapply num_eq_trans; [exact H2|].
    unfold max. cbn. q_cases; lra.
Qed.

(** ** Deposits and withdrawals *)


Lemma quiet_post_nothing : quiet_post post_nothing.
Proof. by intros ty c b1 b2 e. Qed.

Lemma ensureB_twice c (m : gmap string IBalance) :
  ensureB c (ensureB c m) = ensureB c m.
Proof. apply ensureB_present, ensureB_lookup_same. Qed.

Lemma ensureB_lookup_or c c' (m : gmap string IBalance) :
  default zeroBalance (ensureB c' m !! c) = default zeroBalance (m !! c).
Proof.
  unfold ensureB. destruct (m !! c') eqn:E; [done|].
  destruct (decide (c = c')) as [->|Hne].
  - by rewrite lookup_insert_eq, E.
  - by rewrite lookup_insert_ne.
Qed.

Lemma alter_ensureB (g : IBalance -> IBalance) c (m : gmap string IBalance) :
  alter g c (ensureB c m) = <[c := g (default zeroBalance (m !! c))]> m.
Proof.
  unfold ensureB. destruct (m !! c) eqn:E; cbn.
  - apply map_eq. intros j. destruct (decide (j = c)) as [->|Hne].
    + by rewrite lookup_alter_eq, lookup_insert_eq, E.
    + by rewrite lookup_alter_ne, lookup_insert_ne.
  - by rewrite alter_insert_eq.
Qed.

(** The simulated deposit, step by step. *)
Lemma deposit_simulation_run post_transfer wallet c a address e :
  quiet_post post_transfer ->
  lockdown (_state e) = false -> simulation (_state e) = true ->
  let m := ensureB (currencyOf c) (balances (_state e)) in
  let stored := default zeroBalance (balances (_state e) !! c) in
  fst (deposit post_transfer wallet c a address e) = Return tt
  /\ _state (snd (deposit post_transfer wallet c a address e))
     = set_balances
         (fun _ => ensureB (currencyOf c)
                     (<[c := mkIBalance (free stored + a)%js (used stored)]> m))
         (_state e).
Proof.
  intros Hpost Hl Hsim m stored. unfold deposit.
  cbv beta iota zeta delta [bind get ret throw modify gets].
  rewrite Hl, Hsim. rewrite !getBalance_run.
  cbn [fst snd _state set_state].
  unfold try_catch.
  match goal with |- context [post_transfer ?t ?c ?b1 ?b2 ?e0] =>
    pose proof (Hpost t c b1 b2 e0) as Hs;
    destruct (post_transfer t c b1 b2 e0) as [[[]|msg] e1] end.
  all: cbn [fst snd ret] in *; rewrite Hs; cbn [_state set_state].
  all: split; [done|]; to_set_balances; unfold set_balances at 1 2 3 4;
    cbn [balances reserves simulation minDealAmounts fee_rate fiatCurrency
         forceAutoCancel lockdown cancelledOrders closedOrders openOrders
         tickers orderBooks];
    rewrite alter_ensureB; subst m stored;
    rewrite ensureB_lookup_or; done.
Qed.

(** The simulated withdrawal, step by step. *)
Lemma withdraw_simulation_run post_transfer wallet c a address e :
  quiet_post post_transfer ->
  lockdown (_state e) = false -> simulation (_state e) = true ->
  let m := ensureB (currencyOf c) (balances (_state e)) in
  let stored := default zeroBalance (balances (_state e) !! c) in
  let available := Balance_free (balanceOf (_state e) (currencyOf c)) in
  let r := withdraw post_transfer wallet c a address e in
  if (available <? a)%js
  then fst r = Throw "Withdrawal amount higher than balance."
       /\ _state (snd r) = set_balances (fun _ => m) (_state e)
  else fst r = Return tt
       /\ _state (snd r)
          = set_balances
              (fun _ =>
                 ensureB (currencyOf c)
                   (<[c := mkIBalance (free stored - a)%js (used stored)]> m))
              (_state e).
Proof.
  intros Hpost Hl Hsim m stored available r. subst r. unfold withdraw.
  cbv beta iota zeta delta [bind get ret throw modify gets].
  rewrite Hl, Hsim. rewrite !getBalance_run.
  cbn [fst snd _state set_state]. rewrite balanceOf_ensure_balance.
  fold available. destruct (available <? a)%js.
  { cbn [fst snd _state set_state]. to_set_balances. done. }
  rewrite !getBalance_run. cbn [fst snd _state set_state].
  unfold try_catch.
  match goal with |- context [post_transfer ?t ?c ?b1 ?b2 ?e0] =>
    pose proof (Hpost t c b1 b2 e0) as Hs;
    destruct (post_transfer t c b1 b2 e0) as [[[]|msg] e1] end.
  all: cbn [fst snd ret] in *; rewrite Hs; cbn [_state set_state].
  all: split; [done|]; to_set_balances; unfold set_balances at 1 2 3 4;
    cbn [balances reserves simulation minDealAmounts fee_rate fiatCurrency
         forceAutoCancel lockdown cancelledOrders closedOrders openOrders
         tickers orderBooks];
    rewrite alter_ensureB; subst m stored;
    rewrite ensureB_lookup_or; done.
Qed.

Lemma currencyOf_plain c : has_slash c = false -> currencyOf c = c.
Proof. intros H. unfold currencyOf. by rewrite H. Qed.

Lemma ensureB_insert_same c b (m : gmap string IBalance) :
  ensureB c (<[c := b]> m) = <[c := b]> m.
Proof. apply ensureB_present. rewrite lookup_insert_eq. by eexists. Qed.

Lemma insert_ensureB_same c b (m : gmap string IBalance) :
  <[c := b]> (ensureB c m) = <[c := b]> m.
Proof.
  unfold ensureB. destruct (m !! c); [done|]. by rewrite insert_insert_eq.
Qed.



(** ** Lockdown *)

(** X5.  Once [lockdown()] has been called, [isInLockdown] is true and
    [createOrder], [cancelOrder], [cancelOrderById], [deposit] and
    [withdraw] throw and leave the object as it is, and [update] returns
    undefined without touching it; [resetLockdown()] lifts the
    lockdown. *)
Theorem lockdown_blocks_every_operation
    (env : Env)
    (post_transfer : string -> string -> Balance -> Balance -> M unit)
    (wallet : ICcxtWallet) (options : ICreateOrderOptions) (order : IOrder)
    (orderId currency : string) (amount : number) (address : option string)
    (market : option string) (e : Exchange) :
  let locked := snd (Methods.lockdown e) in
  let blocked := Throw "Exchange is in lockdown mode." in
  fst (Methods.isInLockdown locked) = Return true
  /\ (exists msg, createOrder env options locked = (Throw msg, locked))
  /\ cancelOrder env order locked = (blocked, locked)
  /\ cancelOrderById env orderId locked = (blocked, locked)
  /\ deposit post_transfer wallet currency amount address locked
     = (blocked, locked)
  /\ withdraw post_transfer wallet currency amount address locked
     = (blocked, locked)
  /\ update env market locked = (Return None, locked)
  /\ fst (Methods.isInLockdown (snd (Methods.resetLockdown locked)))
     = Return false.
Proof.
  intros locked blocked.
  assert (lockdown (_state locked) = true) as Hl by reflexivity.
  split; [reflexivity|]. split.
  { destruct (tickers (_state locked) !! o_market options) as [tk|] eqn:Htk.
    - unfold createOrder. rewrite bind_run, getTicker_run, Htk. run_body.
      rewrite Hl. eauto.
    - apply createOrder_no_ticker. exact Htk. }
  split; [unfold cancelOrder; run_body; by rewrite Hl|].
  split; [unfold cancelOrderById; run_body; by rewrite Hl|].
  split; [unfold deposit; run_body; by rewrite Hl|].
  split; [unfold withdraw; run_body; by rewrite Hl|].
  split; [unfold update; run_body; by rewrite Hl|].
  reflexivity.
Qed.

(** ** Orders: creating, looking up and cancelling *)


Lemma storedBalance_ensure_balance c' s c :
  storedBalance (ensure_balance c' s) c = storedBalance s c.
Proof.
  unfold storedBalance. rewrite ensure_balance_eq. cbn [balances set_balances].
  apply ensureB_lookup_or.
Qed.

Lemma storedBalance_alter (g : IBalance -> IBalance) c' s c :
  storedBalance (set_balances (fun m => alter g c' (ensureB c' m)) s) c
  = if decide (c = c') then g (storedBalance s c) else storedBalance s c.
Proof.
  unfold storedBalance. cbn [balances set_balances]. rewrite alter_ensureB.
  destruct (decide (c = c')) as [->|Hne].
  - by rewrite lookup_insert_eq.
  - by rewrite lookup_insert_ne.
Qed.

Lemma storedBalance_frame s s' c :
  balances s' = balances s -> storedBalance s' c = storedBalance s c.
Proof. unfold storedBalance. by intros ->. Qed.


Lemma storedBalance_reservedState o s order c :
  storedBalance (reservedState o s order) c
  = if decide (c = heldCurrency (o_side o) (o_market o))
    then
      let b := storedBalance s c in
      let wanted :=
        match o_side o with
        | Buy => (amount order * price order)%js
        | Sell => amount order
        end in
      let taken :=
        min wanted
            (max (free b - opt_or_else (reserves s !! c) (Fin 0))%js (Fin 0)) in
      mkIBalance (free b - taken)%js (used b + taken)%js
    else storedBalance s c.
Proof.
  unfold reservedState, heldCurrency.
  destruct (o_side o); rewrite _reserve_eq, storedBalance_alter;
    rewrite !reserves_ensure_balance, !storedBalance_ensure_balance;
    destruct (decide _) as [->|]; reflexivity.
Qed.

Lemma storedBalance_set_openOrders f s c :
  storedBalance (set_openOrders f s) c = storedBalance s c.
Proof. reflexivity. Qed.
Lemma storedBalance_set_closedOrders f s c :
  storedBalance (set_closedOrders f s) c = storedBalance s c.
Proof. reflexivity. Qed.
Lemma storedBalance_set_cancelledOrders f s c :
  storedBalance (set_cancelledOrders f s) c = storedBalance s c.
Proof. reflexivity. Qed.

Lemma storedBalance_cancelledState env order s c :
  storedBalance (cancelledState env order s) c
  = if decide (c = heldCurrency (side order) (market order))
    then
      let b := storedBalance s c in
      let held :=
        match side order with
        | Buy => (price order * amount order)%js
        | Sell => amount order
        end in
      let given := min held (used b) in
      mkIBalance (free b + given)%js (used b - given)%js
    else storedBalance s c.
Proof.
  unfold cancelledState, heldCurrency.
  rewrite !storedBalance_ensure_balance.
  destruct (side order), (filled order >? Fin 0)%js;
    rewrite ?storedBalance_set_openOrders, ?storedBalance_set_closedOrders,
      ?storedBalance_set_cancelledOrders;
    rewrite _release_eq, storedBalance_alter, !storedBalance_ensure_balance;
    destruct (decide _) as [->|]; reflexivity.
Qed.

Lemma reserves_reservedState o s order :
  reserves (reservedState o s order) = reserves s.
Proof. unfold reservedState. destruct (o_side o); by to_set_balances. Qed.

(** *** Arithmetic of a reservation that is given back *)

Lemma min_Fin x y :
  exists z, min (Fin x) (Fin y) = Fin z
            /\ (z <= x)%Q /\ (z <= y)%Q /\ (z == x \/ z == y)%Q.
Proof.
  unfold min. cbn. destruct (Qle_bool x y) eqn:E; q_hyps; eexists;
    (split; [reflexivity|]); (split; [lra|]); (split; [lra|]);
    [left|right]; lra.
Qed.

Lemma max_Fin x y :
  exists z, max (Fin x) (Fin y) = Fin z
            /\ (x <= z)%Q /\ (y <= z)%Q /\ (z == x \/ z == y)%Q.
Proof.
  unfold max. cbn. destruct (Qle_bool x y) eqn:E; q_hyps; eexists;
    (split; [reflexivity|]); (split; [lra|]); (split; [lra|]);
    [right|left]; lra.
Qed.

Lemma or_else_Fin x : exists z, or_else (Fin x) (Fin 0) = Fin z /\ (z == x)%Q.
Proof.
  unfold or_else, truthy. destruct (Qeq_bool x 0) eqn:E; q_hyps; cbn;
    eexists; (split; [reflexivity|]); lra.
Qed.

Lemma div_Fin x p : (0 < p)%Q -> (Fin x / Fin p)%js = Fin (x / p).
Proof.
  intros Hp. cbn. destruct (Qeq_bool p 0) eqn:E; [|done]. q_hyps. lra.
Qed.

(** Names the result of a [min], [max] or [x || 0] on ordinary numbers
    and keeps what is known of it. *)
Ltac name_num :=
  match goal with
  | |- context [min (Fin ?x) (Fin ?y)] =>
      let z := fresh "z" in
      destruct (min_Fin x y) as (z & -> & ? & ? & ?)
  | |- context [max (Fin ?x) (Fin ?y)] =>
      let z := fresh "z" in
      destruct (max_Fin x y) as (z & -> & ? & ? & ?)
  | |- context [or_else (Fin ?x) (Fin 0)] =>
      let z := fresh "z" in
      destruct (or_else_Fin x) as (z & -> & ?)
  end; cbn [add sub mul neg].

Lemma given_back_buy (f u r p a : Q) :
  (0 < p)%Q -> (0 <= u)%Q ->
  let available :=
    max (Fin 0) (Fin f - or_else (min (Fin r) (Fin f)) (Fin 0))%js in
  let amount := (min (Fin p * Fin a) available / Fin p)%js in
  let taken := min (amount * Fin p)%js (max (Fin f - Fin r) (Fin 0))%js in
  let given := min (Fin p * amount)%js (Fin u + taken)%js in
  (Fin f - taken + given ≈ Fin f)%js /\ (Fin u + taken - given ≈ Fin u)%js.
Proof.
  intros Hp Hu. cbv zeta. cbn [add sub mul neg].
  repeat name_num. rewrite (div_Fin _ _ Hp). cbn [add sub mul neg].
  match goal with |- context [Fin (?x / p * p)] =>
    assert (x / p * p == x)%Q as E1 by (field; lra);
    assert (p * (x / p) == x)%Q as E2 by (field; lra);
    set (x1 := (x / p * p)%Q) in *; set (x2 := (p * (x / p))%Q) in *
  end.
  repeat name_num. cbn. split; lra.
Qed.

Lemma given_back_sell (f u r a : Q) :
  (0 <= u)%Q ->
  let available :=
    max (Fin 0) (Fin f - or_else (min (Fin r) (Fin f)) (Fin 0))%js in
  let amount := min available (Fin a) in
  let taken := min amount (max (Fin f - Fin r) (Fin 0))%js in
  let given := min amount (Fin u + taken)%js in
  (Fin f - taken + given ≈ Fin f)%js /\ (Fin u + taken - given ≈ Fin u)%js.
Proof.
  intros Hu. cbv zeta. cbn [add sub mul neg].
  repeat name_num. cbn. split; lra.
Qed.

Lemma remoteCreate_simulation o e tk :
  simulation (_state e) = true -> remoteCreate o e tk = None.
Proof.
  intros Hs. unfold remoteCreate. rewrite Hs. by destruct (_exchange e).
Qed.

Lemma createAccepts_inv o s tk (p a : Q) :
  createAccepts o s tk = true ->
  limitPrice o tk = Fin p -> o_amount o = Fin a ->
  lockdown s = false /\ (0 < p)%Q /\ (0 < a)%Q.
Proof.
  unfold createAccepts. intros H Hp Ha. rewrite Hp, Ha in H.
  apply andb_true_iff in H as [H H4]. apply andb_true_iff in H as [H H3].
  apply andb_true_iff in H as [H1 H2].
  apply negb_true_iff in H1, H3, H4.
  apply orb_false_iff in H3 as [_ H3], H4 as [_ H4]. cbn in H3, H4.
  q_hyps. repeat split; [done|lra|lra].
Qed.

(** The state a simulated [createOrder] leaves for an accepted limit
    order. *)
Lemma createdLimit_simulation env o e tk :
  simulation (_state e) = true ->
  let q := quoteCurrencyOf (o_market o) in
  let b := baseCurrencyOf (o_market o) in
  let order := createdOrder env o (_state e) tk (orderIds env (generated e)) in
  fst (createdLimit env o e tk) = Return (Some (orderIds env (generated e)))
  /\ _state (snd (createdLimit env o e tk))
     = ensure_balance b
         (ensure_balance q
            (set_openOrders (insert (orderIds env (generated e)) order)
               (reservedState o (_state e) order)))
  /\ _exchange (snd (createdLimit env o e tk)) = _exchange e
  /\ _dryRun (snd (createdLimit env o e tk)) = _dryRun e.
Proof.
  intros Hsim. cbv zeta. unfold createdLimit.
  rewrite (remoteCreate_simulation o e tk Hsim). done.
Qed.

Lemma lockdown_ensure_balance c s :
  lockdown (ensure_balance c s) = lockdown s.
Proof. by rewrite ensure_balance_eq. Qed.

Lemma lockdown_reservedState o s order :
  lockdown (reservedState o s order) = lockdown s.
Proof. unfold reservedState. destruct (o_side o); by to_set_balances. Qed.

Lemma simulation_reservedState o s order :
  simulation (reservedState o s order) = simulation s.
Proof. unfold reservedState. destruct (o_side o); by to_set_balances. Qed.

Lemma balanceOf_ensure_balance_any c' s c :
  balanceOf (ensure_balance c' s) c = balanceOf s c.
Proof.
  unfold balanceOf. rewrite reserves_ensure_balance.
  rewrite ensure_balance_eq. cbn [balances set_balances].
  fold zeroBalance. by rewrite ensureB_lookup_or.
Qed.

Lemma balanceOf_stored s c (f u r : Q) :
  storedBalance s c = mkIBalance (Fin f) (Fin u) ->
  opt_or_else (reserves s !! c) (Fin 0) = Fin r ->
  Balance_free (balanceOf s c)
  = max (Fin 0) (Fin f - or_else (min (Fin r) (Fin f)) (Fin 0))%js.
Proof.
  unfold storedBalance, balanceOf, Balance_free. fold zeroBalance.
  intros -> ->. reflexivity.
Qed.


Lemma taken_bounds_buy (f r p a : Q) :
  (0 < p)%Q -> (0 < a)%Q ->
  let available :=
    max (Fin 0) (Fin f - or_else (min (Fin r) (Fin f)) (Fin 0))%js in
  let amount := (min (Fin p * Fin a) available / Fin p)%js in
  let taken := min (amount * Fin p)%js (max (Fin f - Fin r) (Fin 0))%js in
  exists t, taken = Fin t /\ (0 <= t)%Q /\ (t <= f - r \/ t == 0)%Q.
Proof.
  intros Hp Ha. cbv zeta. cbn [add sub mul neg].
  repeat name_num. rewrite (div_Fin _ _ Hp). cbn [add sub mul neg].
  match goal with |- context [Fin (?x / p * p)] =>
    assert (x / p * p == x)%Q as E1 by (field; lra);
    set (x1 := (x / p * p)%Q) in *
  end.
  assert (0 < p * a)%Q by nra.
  repeat name_num. eexists. split; [reflexivity|]. split; [lra|].
  destruct (Qlt_le_dec (f - r) 0); [right|left]; lra.
Qed.

Lemma taken_bounds_sell (f r a : Q) :
  (0 < a)%Q ->
  let available :=
    max (Fin 0) (Fin f - or_else (min (Fin r) (Fin f)) (Fin 0))%js in
  let amount := min available (Fin a) in
  let taken := min amount (max (Fin f - Fin r) (Fin 0))%js in
  exists t, taken = Fin t /\ (0 <= t)%Q /\ (t <= f - r \/ t == 0)%Q.
Proof.
  intros Ha. cbv zeta. cbn [add sub mul neg].
  repeat name_num. eexists. split; [reflexivity|]. split; [lra|].
  destruct (Qlt_le_dec (f - r) 0); [right|left]; lra.
Qed.

Lemma storedBalance_createdLimit env o e tk c :
  storedBalance (_state (snd (createdLimit env o e tk))) c
  = storedBalance
      (reservedState o (_state e)
         (createdOrder env o (_state e) tk (orderIds env (generated e)))) c.
Proof.
  unfold createdLimit.
  destruct (remoteCreate o e tk) as [[rid|]|]; cbn [snd _state];
    rewrite ?storedBalance_ensure_balance; reflexivity.
Qed.


(** ** Cancelling many orders *)

Lemma cancelOrder_offline env order e :
  lockdown (_state e) = false -> status order = "open"%string ->
  offline e = true ->
  exists e',
    cancelOrder env order e = (Return tt, e')
    /\ _state e' = cancelledState env order (_state e)
    /\ lockdown (_state e') = false /\ offline e' = true.
Proof.
  intros Hl Hs Hoff. destruct (cancelOrder_run env order e Hl Hs) as [evs ->].
  eexists. split; [reflexivity|]. cbn [_state].
  assert (cancelGoesThrough e order = true) as Hgo.
  { unfold cancelGoesThrough. unfold offline in Hoff.
    destruct (simulation (_state e)), (_dryRun e); done. }
  unfold afterCancel. rewrite Hgo. split; [done|].
  split; [by rewrite lockdown_cancelledState|].
  unfold offline. cbn [_state _dryRun]. by rewrite simulation_cancelledState.
Qed.


Lemma cancelIfSelected_all env market side' (l : list string) :
  forall e,
    NoDup l ->
    lockdown (_state e) = false -> offline e = true ->
    keyed_on l (openOrders (_state e)) ->
    exists us e',
      promise_all (cancelIfSelected env market side') l e = (Return us, e')
      /\ (forall k,
            openOrders (_state e') !! k
            = match openOrders (_state e) !! k with
              | Some o =>
                  if bool_decide (k ∈ l) && negb (notSelected market side' o)
                  then None else Some o
              | None => None
              end)
      /\ (forall k,
            cancelledOrders (_state e') !! k
            = match openOrders (_state e) !! k with
              | Some o =>
                  if bool_decide (k ∈ l) && negb (notSelected market side' o)
                  then Some (cancelled_order env o)
                  else cancelledOrders (_state e) !! k
              | None => cancelledOrders (_state e) !! k
              end).
Proof.
  induction l as [|x l IH]; intros e Hnd Hl Hoff Hkeys.
  { exists [], e. split; [done|]. split.
    - intros k. destruct (openOrders (_state e) !! k); [|done].
      rewrite bool_decide_eq_false_2; [done|]. set_solver.
    - intros k. destruct (openOrders (_state e) !! k); [|done].
      rewrite bool_decide_eq_false_2; [done|]. set_solver. }
  apply NoDup_cons in Hnd as [Hx Hnd].
  destruct (Hkeys x) as (o & Hox & Hid & Hst); [set_solver|].
  cbn [promise_all].
  assert (exists e1,
             cancelIfSelected env market side' x e = (Return tt, e1)
             /\ lockdown (_state e1) = false /\ offline e1 = true
             /\ openOrders (_state e1)
                = (if notSelected market side' o then openOrders (_state e)
                   else delete x (openOrders (_state e)))
             /\ (forall k,
                   cancelledOrders (_state e1) !! k
                   = if notSelected market side' o
                     then cancelledOrders (_state e) !! k
                     else <[x := cancelled_order env o]>
                            (cancelledOrders (_state e)) !! k))
    as (e1 & Hrun & Hl1 & Hoff1 & Hopen1 & Hcan1).
  { unfold cancelIfSelected. run_body. rewrite Hox. unfold notSelected.
    destruct side' as [sd|].
    - destruct (negb (bool_decide (side o = sd))); cbn [orb].
      + exists e. done.
      + destruct (str_truthy market && _).
        * exists e. done.
        * destruct (cancelOrder_offline env o e Hl Hst Hoff)
            as (e1 & -> & Hs1 & ? & ?).
          exists e1. rewrite Hs1, openOrders_cancelledState, Hid.
          cbn [orb]. split; [done|].
          split; [by rewrite lockdown_cancelledState|]. do 2 (split; [done|]).
          intros k. by rewrite cancelledOrders_cancelledState, Hid.
    - cbn [orb]. destruct (str_truthy market && _).
      + exists e. done.
      + destruct (cancelOrder_offline env o e Hl Hst Hoff)
          as (e1 & -> & Hs1 & ? & ?).
        exists e1. rewrite Hs1, openOrders_cancelledState, Hid.
        cbn [orb]. split; [done|].
          split; [by rewrite lockdown_cancelledState|]. do 2 (split; [done|]).
        intros k. by rewrite cancelledOrders_cancelledState, Hid. }
  rewrite Hrun.
  assert (keyed_on l (openOrders (_state e1))) as Hkeys1.
  { intros k Hk. destruct (Hkeys k) as (o' & Ho' & ?); [set_solver|].
    exists o'. split; [|done]. rewrite Hopen1.
    destruct (notSelected market side' o); [done|].
    rewrite lookup_delete_ne; [done|]. intros ->. done. }
  destruct (IH e1 Hnd Hl1 Hoff1 Hkeys1) as (us & e' & Hall & Hopen & Hcan).
  rewrite Hall. exists (tt :: us), e'. split; [done|]. split.
  - intros k. rewrite Hopen, Hopen1.
    destruct (decide (k = x)) as [->|Hne].
    + rewrite Hox. rewrite (bool_decide_eq_true_2 (x ∈ x :: l)) by set_solver.
      rewrite (bool_decide_eq_false_2 (x ∈ l)) by done.
      destruct (notSelected market side' o) eqn:Hsel; cbn [negb andb].
      * by rewrite Hox.
      * by rewrite lookup_delete_eq.
    + assert ((if notSelected market side' o then openOrders (_state e)
               else delete x (openOrders (_state e))) !! k
              = openOrders (_state e) !! k) as ->.
      { destruct (notSelected market side' o); [done|].
        by rewrite lookup_delete_ne. }
      destruct (openOrders (_state e) !! k); [|done].
      assert (bool_decide (k ∈ x :: l) = bool_decide (k ∈ l)) as ->; [|done].
      apply bool_decide_ext. set_solver.
  - intros k. rewrite Hcan, Hopen1, Hcan1.
    destruct (decide (k = x)) as [->|Hne].
    + rewrite Hox. rewrite (bool_decide_eq_true_2 (x ∈ x :: l)) by set_solver.
      rewrite (bool_decide_eq_false_2 (x ∈ l)) by done.
      destruct (notSelected market side' o) eqn:Hsel; cbn [negb andb].
      * by rewrite Hox.
      * by rewrite lookup_delete_eq, lookup_insert_eq.
    + assert ((if notSelected market side' o then openOrders (_state e)
               else delete x (openOrders (_state e))) !! k
              = openOrders (_state e) !! k) as ->.
      { destruct (notSelected market side' o); [done|].
        by rewrite lookup_delete_ne. }
      assert ((if notSelected market side' o
               then cancelledOrders (_state e) !! k
               else <[x := cancelled_order env o]>
                      (cancelledOrders (_state e)) !! k)
              = cancelledOrders (_state e) !! k) as ->.
      { destruct (notSelected market side' o); [done|].
        by rewrite lookup_insert_ne. }
      assert (bool_decide (k ∈ x :: l) = bool_decide (k ∈ l)) as ->; [|done].
      apply bool_decide_ext. set_solver.
Qed.

Lemma NoDup_keys {V} (m : gmap string V) : NoDup (keys m).
Proof. unfold keys. apply NoDup_fst_map_to_list. Qed.

Lemma well_keyed_keyed_on (m : gmap string IOrder) :
  well_keyed m -> keyed_on (keys m) m.
Proof.
  intros Hm k Hk. apply elem_of_keys in Hk as [o Ho].
  exists o. split; [done|]. by apply Hm.
Qed.


Lemma cancelOrder_all env (os : list IOrder) :
  forall e,
    lockdown (_state e) = false -> offline e = true ->
    (forall o, o ∈ os -> status o = "open"%string) ->
    exists us e',
      promise_all (cancelOrder env) os e = (Return us, e')
      /\ forall k,
           openOrders (_state e') !! k
           = if bool_decide (k ∈ map id os) then None
             else openOrders (_state e) !! k.
Proof.
  induction os as [|o os IH]; intros e Hl Hoff Hst.
  { exists [], e. split; [done|]. intros k.
    rewrite bool_decide_eq_false_2; [done|]. set_solver. }
  cbn [promise_all].
  destruct (cancelOrder_offline env o e Hl (Hst o ltac:(set_solver)) Hoff)
    as (e1 & -> & Hs1 & Hl1 & Hoff1).
  destruct (IH e1 Hl1 Hoff1 ltac:(set_solver)) as (us & e' & -> & Hopen).
  exists (tt :: us), e'. split; [done|]. intros k.
  rewrite Hopen, Hs1, openOrders_cancelledState. cbn [map].
  destruct (decide (k = id o)) as [->|Hne].
  - rewrite (bool_decide_eq_true_2 (id o ∈ id o :: map id os)) by set_solver.
    rewrite lookup_delete_eq. by destruct (bool_decide _).
  - rewrite lookup_delete_ne by done.
    assert (bool_decide (k ∈ id o :: map id os)
            = bool_decide (k ∈ map id os)) as ->; [|done].
    apply bool_decide_ext. set_solver.
Qed.

Lemma elem_of_orders_of (m : gmap string IOrder) o :
  o ∈ orders_of m <-> exists k, m !! k = Some o.
Proof.
  unfold orders_of. rewrite list_elem_of_fmap. split.
  - intros ([k v] & -> & H). apply elem_of_map_to_list in H. by exists k.
  - intros [k H]. exists (k, o). split; [done|]. by apply elem_of_map_to_list.
Qed.


(** ** Orders: auto-cancel time and queries *)

(** X10.  [setOrderAutoCancel(id, ms)] throws for an id that is not
    open and leaves the object as it is.  For an open order it stores
    [ms] plus the age of the order, so that, for ordinary numbers, the
    order is due [ms] after the current time: [timestamp + autoCancel] is
    [currentTime + ms].  The other fields of the order and the other open
    orders stay as they are. *)
Theorem setOrderAutoCancel_counts_from_now
    (env : Env) (orderId : string) (ms : number) (e : Exchange) :
  let out := setOrderAutoCancel env orderId (ACMs ms) e in
  match openOrders (_state e) !! orderId with
  | None =>
      out = (Throw ("Unknown order id: " ++ orderId ++ "."), e)
  | Some order =>
      fst out = Return tt
      /\ (exists order',
            openOrders (_state (snd out)) !! orderId = Some order'
            /\ order' = set_autoCancel (autoCancel order') order
            /\ (is_fin ms -> is_fin (timestamp order) ->
                is_fin (currentTime env) ->
                (timestamp order' + toNumber (autoCancel order')
                 ≈ currentTime env + ms)%js))
      /\ (forall k, k <> orderId ->
            openOrders (_state (snd out)) !! k = openOrders (_state e) !! k)
      /\ balances (_state (snd out)) = balances (_state e)
      /\ closedOrders (_state (snd out)) = closedOrders (_state e)
  end.
Proof.
  intros out. subst out. unfold setOrderAutoCancel. run_body.
  destruct (openOrders (_state e) !! orderId) as [order|] eqn:Ho; [|done].
  cbn [fst snd _state set_state openOrders set_openOrders balances
       closedOrders].
  split; [done|]. split.
  - eexists. split; [apply lookup_insert_eq|]. split; [done|].
    intros Hms Ht Hnow. cbn [set_autoCancel timestamp autoCancel toNumber
                             default from_option Datatypes.id].
    fin_inv. cbn. ring.
  - split; [|done]. intros k Hk. by rewrite lookup_insert_ne.
Qed.

Lemma closedMatch_steps market since filter' order :
  closedMatch market since filter' order
  = negb (str_truthy market
          && negb (String.eqb (Data.market order) (key_of market)))
    && negb (truthy_opt since && (timestamp order <? toNumber since)%js)
    && negb (match filter' with Some f => negb (f order) | None => false end).
Proof.
  unfold closedMatch. f_equal. destruct filter' as [f|]; [|done].
  by rewrite negb_involutive.
Qed.

Lemma lengthOf_geb {A} (l : list A) (n : nat) :
  (lengthOf l >=? Fin (inject_Z (Z.of_nat n)))%js = bool_decide (n <= length l)%nat.
Proof.
  unfold lengthOf, geb, leb.
  destruct (Qle_bool _ _) eqn:E.
  - apply Qle_bool_iff in E. rewrite <- Zle_Qle in E.
    rewrite bool_decide_eq_true_2; [done|]. lia.
  - rewrite bool_decide_eq_false_2; [done|]. intros H.
    assert (Qle_bool (inject_Z (Z.of_nat n)) (inject_Z (Z.of_nat (length l)))
            = true); [|congruence].
    apply Qle_bool_iff. rewrite <- Zle_Qle. lia.
Qed.

Lemma getClosedOrdersLoop_unlimited market since limit filter' orders :
  truthy_opt limit = false ->
  forall result,
    getClosedOrdersLoop market since limit filter' orders result
    = result ++ List.filter (closedMatch market since filter') orders.
Proof.
  intros Hlim. induction orders as [|order rest IH]; intros result.
  { cbn. by rewrite app_nil_r. }
  cbn [getClosedOrdersLoop List.filter]. rewrite closedMatch_steps, Hlim.
  destruct (str_truthy market && _); cbn [negb andb]; [apply IH|].
  destruct (truthy_opt since && _); cbn [negb andb]; [apply IH|].
  destruct (match filter' with Some f => negb (f order) | None => false end);
    cbn [negb]; [apply IH|].
  rewrite IH. by rewrite <- app_assoc.
Qed.

Lemma getClosedOrdersLoop_limited market since filter' (n : nat) orders :
  (0 < n)%nat ->
  forall result,
    (length result <= n)%nat ->
    getClosedOrdersLoop market since (Some (Fin (inject_Z (Z.of_nat n))))
                        filter' orders result
    = result ++ take (n - length result)
                     (List.filter (closedMatch market since filter') orders).
Proof.
  intros Hn. induction orders as [|order rest IH]; intros result Hlen.
  { cbn. by rewrite take_nil, app_nil_r. }
  cbn [getClosedOrdersLoop List.filter]. rewrite closedMatch_steps.
  assert (truthy_opt (Some (Fin (inject_Z (Z.of_nat n)))) = true) as ->.
  { cbn. destruct (Qeq_bool _ 0) eqn:E; [|done]. apply Qeq_bool_iff in E.
    unfold Qeq in E. cbn in E. lia. }
  cbn [toNumber default from_option Datatypes.id].
  rewrite lengthOf_geb.
  destruct (str_truthy market && _); cbn [negb andb]; [by apply IH|].
  destruct (truthy_opt since && _); cbn [negb andb]; [by apply IH|].
  destruct (bool_decide (n <= length result)%nat) eqn:Hfull.
  { apply bool_decide_eq_true in Hfull.
    replace (n - length result)%nat with 0%nat by lia.
    by rewrite take_0, app_nil_r. }
  apply bool_decide_eq_false in Hfull.
  destruct (match filter' with Some f => negb (f order) | None => false end);
    cbn [negb]; [by apply IH|].
  rewrite IH by (rewrite length_app; cbn; lia).
  rewrite length_app. cbn [length].
  replace (n - length result)%nat with (S (n - (length result + 1)))%nat by lia.
  cbn [take]. by rewrite <- app_assoc.
Qed.


Lemma lastClosedStep_match market side' filter' acc order :
  lastClosedStep market side' filter' acc order
  = if lastMatch market side' filter' order
    then match acc with
         | None => Some order
         | Some l =>
             if (timestamp order >? timestamp l)%js then Some order else Some l
         end
    else acc.
Proof.
  unfold lastClosedStep, lastMatch.
  destruct (String.eqb (Data.market order) market); cbn [negb andb]; [|done].
  destruct side' as [sd|]; [destruct (bool_decide (sd = side order))|];
    cbn [negb andb]; try done;
    destruct filter' as [f|]; try done; by destruct (f order).
Qed.

Lemma gtb_false_leb x y :
  is_fin x -> is_fin y -> (x >? y)%js = false -> (x <=? y)%js = true.
Proof.
  intros Hx Hy. fin_inv. unfold gtb, ltb, leb, Qlt_bool.
  intros H. by apply negb_false_iff in H.
Qed.

Lemma gtb_true_leb x y :
  is_fin x -> is_fin y -> (x >? y)%js = true -> (y <=? x)%js = true.
Proof.
  intros Hx Hy. fin_inv. unfold gtb, ltb, leb, Qlt_bool.
  intros H. apply negb_true_iff in H. q_hyps. apply Qle_bool_iff. lra.
Qed.

Lemma leb_trans x y z :
  (x <=? y)%js = true -> (y <=? z)%js = true -> (x <=? z)%js = true.
Proof.
  destruct x, y, z; cbn; try done. intros. q_hyps. apply Qle_bool_iff. lra.
Qed.

Lemma leb_refl x : is_fin x -> (x <=? x)%js = true.
Proof. intros. fin_inv. cbn. apply Qle_bool_iff. lra. Qed.

Lemma lastClosed_fold market side' filter' (orders : list IOrder) :
  (forall o, o ∈ orders -> is_fin (timestamp o)) ->
  forall acc,
    (forall a, acc = Some a -> is_fin (timestamp a)) ->
    match foldl (lastClosedStep market side' filter') acc orders with
    | None =>
        acc = None
        /\ forall o, o ∈ orders -> lastMatch market side' filter' o = false
    | Some r =>
        (acc = Some r \/ (r ∈ orders /\ lastMatch market side' filter' r = true))
        /\ (forall a, acc = Some a -> (timestamp a <=? timestamp r)%js = true)
        /\ (forall o, o ∈ orders -> lastMatch market side' filter' o = true ->
                      (timestamp o <=? timestamp r)%js = true)
    end.
Proof.
  induction orders as [|order rest IH]; intros Hfin acc Hacc.
  { cbn. destruct acc as [a|].
    - split; [by left|]. split; [|set_solver].
      intros ? [= <-]. apply leb_refl. eauto.
    - split; [done|]. set_solver. }
  cbn [foldl]. rewrite lastClosedStep_match.
  assert (is_fin (timestamp order)) as Hto by (apply Hfin; set_solver).
  assert (forall o, o ∈ rest -> is_fin (timestamp o)) as Hfin'
    by (intros; apply Hfin; set_solver).
  destruct (lastMatch market side' filter' order) eqn:Hm.
  2:{ specialize (IH Hfin' acc Hacc).
      destruct (foldl _ acc rest) as [r|].
      - destruct IH as (H1 & H2 & H3). split; [|split; [done|]].
        + destruct H1 as [?|[? ?]]; [by left|right]. split; [set_solver|done].
        + intros o Ho Hmo. apply elem_of_cons in Ho as [->|Ho];
            [congruence|by apply H3].
      - destruct IH as [H1 H2]. split; [done|].
        intros o Ho. apply elem_of_cons in Ho as [->|Ho]; [done|by apply H2]. }
  destruct acc as [a|].
  - assert (is_fin (timestamp a)) as Hta by eauto.
    destruct (timestamp order >? timestamp a)%js eqn:Hgt.
    + specialize (IH Hfin' (Some order) ltac:(by intros ? [= <-])).
      destruct (foldl _ (Some order) rest) as [r|]; [|by destruct IH].
      destruct IH as (H1 & H2 & H3). split; [|split].
      * right. destruct H1 as [[= <-]|[? ?]]; (split; [set_solver|done]).
      * intros ? [= <-]. eapply leb_trans; [|by apply H2].
        by apply gtb_true_leb.
      * intros o Ho Hmo. apply elem_of_cons in Ho as [->|Ho];
          [by apply H2|by apply H3].
    + specialize (IH Hfin' (Some a) Hacc).
      destruct (foldl _ (Some a) rest) as [r|]; [|by destruct IH].
      destruct IH as (H1 & H2 & H3). split; [|split; [done|]].
      * destruct H1 as [?|[? ?]]; [by left|right]. split; [set_solver|done].
      * intros o Ho Hmo. apply elem_of_cons in Ho as [->|Ho];
          [|by apply H3].
        eapply leb_trans; [|by apply H2]. by apply gtb_false_leb.
  - specialize (IH Hfin' (Some order) ltac:(by intros ? [= <-])).
    destruct (foldl _ (Some order) rest) as [r|]; [|by destruct IH].
    destruct IH as (H1 & H2 & H3). split; [|split; [done|]].
    + right. destruct H1 as [[= <-]|[? ?]]; (split; [set_solver|done]).
    + intros o Ho Hmo. apply elem_of_cons in Ho as [->|Ho];
        [by apply H2|by apply H3].
Qed.

(** X12.  [getLastClosedOrder(market, side, filter)] leaves the object
    alone.  It returns null exactly when no closed order is of the market,
    of the side (when one is given) and passes the filter; otherwise, for
    creation timestamps that are ordinary numbers, it returns one of
    these orders, and none of them has a later creation timestamp. *)
Theorem getLastClosedOrder_returns_a_latest_match
    (market : string) (side' : option OrderSide)
    (filter' : option (IOrder -> bool)) (e : Exchange) :
  (forall k o, closedOrders (_state e) !! k = Some o -> is_fin (timestamp o)) ->
  exists result,
    getLastClosedOrder market side' filter' e = (Return result, e)
    /\ match result with
       | None =>
           forall k o, closedOrders (_state e) !! k = Some o ->
                       lastMatch market side' filter' o = false
       | Some r =>
           (exists k, closedOrders (_state e) !! k = Some r)
           /\ lastMatch market side' filter' r = true
           /\ forall k o, closedOrders (_state e) !! k = Some o ->
                          lastMatch market side' filter' o = true ->
                          (timestamp o <=? timestamp r)%js = true
       end.
Proof.
  intros Hfin. eexists. split; [reflexivity|].
  pose proof (lastClosed_fold market side' filter'
                (orders_of (closedOrders (_state e)))) as H.
  specialize (H ltac:(intros o Ho; apply elem_of_orders_of in Ho as [k Hk]; eauto)
                None ltac:(done)).
  destruct (foldl _ None _) as [r|].
  - destruct H as (H1 & _ & H3). destruct H1 as [?|[Hr Hm]]; [done|].
    split; [by apply elem_of_orders_of|]. split; [done|].
    intros k o Ho. apply H3. apply elem_of_orders_of. by exists k.
  - destruct H as [_ H]. intros k o Ho. apply H.
    apply elem_of_orders_of. by exists k.
Qed.

(** ** Filling limit orders *)

Lemma closedOrders_ensure_balance' c s :
  closedOrders (ensure_balance c s) = closedOrders s.
Proof. by rewrite ensure_balance_eq. Qed.


Lemma storedBalance_withdrawFromUsed c' a s c :
  storedBalance (_withdrawFromUsed c' a s) c
  = if decide (c = c')
    then mkIBalance (free (storedBalance s c)) (used (storedBalance s c) - a)%js
    else storedBalance s c.
Proof. by rewrite _withdrawFromUsed_eq, storedBalance_alter. Qed.

Lemma storedBalance_deposit c' a s c :
  storedBalance (_deposit c' a s) c
  = if decide (c = c')
    then mkIBalance (free (storedBalance s c) + a)%js (used (storedBalance s c))
    else storedBalance s c.
Proof. by rewrite _deposit_eq, storedBalance_alter. Qed.

Lemma storedBalance_withdraw c' a s c :
  storedBalance (_withdraw c' a s) c
  = if decide (c = c')
    then mkIBalance (free (storedBalance s c) - a)%js (used (storedBalance s c))
    else storedBalance s c.
Proof. by rewrite _withdraw_eq, storedBalance_alter. Qed.

Ltac stored_balances :=
  repeat (rewrite ?storedBalance_ensure_balance,
            ?storedBalance_set_closedOrders, ?storedBalance_set_openOrders,
            ?storedBalance_set_cancelledOrders,
            ?storedBalance_deposit, ?storedBalance_withdraw,
            ?storedBalance_withdrawFromUsed).


(** ** Market orders *)



(** ** A remote exchange that rejects the order *)

Lemma taken_exact_buy (f r p a : Q) :
  (0 < p)%Q -> (p * a <= f - r)%Q ->
  let available :=
    max (Fin 0) (Fin f - or_else (min (Fin r) (Fin f)) (Fin 0))%js in
  let amount := (min (Fin p * Fin a) available / Fin p)%js in
  let taken := min (amount * Fin p)%js (max (Fin f - Fin r) (Fin 0))%js in
  exists t, taken = Fin t /\ (t == p * a)%Q.
Proof.
  intros Hp Hfunds. cbv zeta. cbn [add sub mul neg].
  repeat name_num. rewrite (div_Fin _ _ Hp). cbn [add sub mul neg].
  match goal with |- context [Fin (?x / p * p)] =>
    assert (x / p * p == x)%Q as E1 by (field; lra);
    set (x1 := (x / p * p)%Q) in *
  end.
  set (pa := (p * a)%Q) in *.
  repeat name_num. eexists. split; [reflexivity|]. lra.
Qed.

Lemma taken_exact_sell (f r a : Q) :
  (a <= f - r)%Q ->
  let available :=
    max (Fin 0) (Fin f - or_else (min (Fin r) (Fin f)) (Fin 0))%js in
  let amount := min available (Fin a) in
  let taken := min amount (max (Fin f - Fin r) (Fin 0))%js in
  exists t, taken = Fin t /\ (t == a)%Q.
Proof.
  intros Hfunds. cbv zeta. cbn [add sub mul neg].
  repeat name_num. eexists. split; [reflexivity|]. lra.
Qed.



(** ** Conversions *)


(** ** Cleaning candle data *)

Lemma incomplete_complete candle :
  incomplete candle = false <-> complete candle.
Proof.
  unfold incomplete, complete.
  destruct (truthy (c_open candle)), (truthy (high candle)),
    (truthy (low candle)), (truthy (c_close candle)); cbn; intuition congruence.
Qed.

Lemma initialPrice_truthy candles :
  (exists candle, candle ∈ candles /\ truthy (c_close candle) = true)
  -> truthy (initialPrice candles) = true.
Proof.
  induction candles as [|c rest IH]; intros (candle & Hin & Ht); [set_solver|].
  cbn [initialPrice]. destruct (truthy (c_close c)) eqn:E; [done|].
  apply IH. exists candle. split; [|done].
  apply elem_of_cons in Hin as [->|Hin]; [congruence|done].
Qed.

Lemma initialPrice_none candles :
  (forall candle, candle ∈ candles -> truthy (c_close candle) = false)
  -> initialPrice candles = Fin 0.
Proof.
  induction candles as [|c rest IH]; intros H; [done|].
  cbn [initialPrice]. rewrite (H c ltac:(set_solver)). apply IH.
  intros. apply H. set_solver.
Qed.

Lemma cleanLoop_complete candles :
  forall lastClose,
    truthy lastClose = true -> Forall complete (cleanLoop lastClose candles).
Proof.
  induction candles as [|c rest IH]; intros lastClose Ht; cbn [cleanLoop];
    [constructor|].
  destruct (incomplete c) eqn:E.
  - constructor; [done|]. apply IH. done.
  - apply incomplete_complete in E. constructor; [done|].
    apply IH. by destruct E as (_ & _ & _ & ?).
Qed.

Lemma cleanLoop_of_complete candles :
  Forall complete candles ->
  forall lastClose, cleanLoop lastClose candles = candles.
Proof.
  induction 1 as [|c rest Hc Hrest IH]; intros lastClose; [done|].
  cbn [cleanLoop]. apply incomplete_complete in Hc. rewrite Hc.
  by rewrite IH.
Qed.

Lemma cleanLoop_timestamps candles :
  forall lastClose,
    map c_timestamp (cleanLoop lastClose candles) = map c_timestamp candles.
Proof.
  induction candles as [|c rest IH]; intros lastClose; [done|].
  cbn [cleanLoop map]. rewrite IH. by destruct (incomplete c).
Qed.

Lemma cleanLoop_keeps_complete candles :
  forall lastClose i candle,
    candles !! i = Some candle -> complete candle ->
    cleanLoop lastClose candles !! i = Some candle.
Proof.
  induction candles as [|c rest IH]; intros lastClose i candle Hi Hc; [done|].
  cbn [cleanLoop]. destruct i as [|i]; cbn in *.
  - injection Hi as ->. apply incomplete_complete in Hc. by rewrite Hc.
  - by apply IH.
Qed.


Lemma cleanLoop_all_unset candles :
  (forall candle, candle ∈ candles -> truthy (c_close candle) = false) ->
  cleanLoop (Fin 0) candles = map flatZero candles.
Proof.
  induction candles as [|c rest IH]; intros H; [done|].
  cbn [cleanLoop map].
  assert (incomplete c = true) as ->.
  { unfold incomplete. rewrite (H c ltac:(set_solver)). cbn.
    by rewrite !orb_true_r. }
  cbn [c_close]. rewrite IH by (intros; apply H; set_solver). done.
Qed.

(** X14.  [cleanCandleData] keeps the number of candles and their
    timestamps and leaves every candle alone whose four prices are set.
    When at least one candle has a close price that is set, every candle
    has its four prices set afterwards; when none has, every candle ends
    with the four prices and the volume 0. *)
Theorem cleanCandleData_fills_the_gaps (candles : list Candle) :
  map c_timestamp (cleanCandleData candles) = map c_timestamp candles
  /\ (forall i candle,
        candles !! i = Some candle -> complete candle ->
        cleanCandleData candles !! i = Some candle)
  /\ ((exists candle, candle ∈ candles /\ truthy (c_close candle) = true) ->
      Forall complete (cleanCandleData candles))
  /\ ((forall candle, candle ∈ candles -> truthy (c_close candle) = false) ->
      cleanCandleData candles = map flatZero candles).
Proof.
  unfold cleanCandleData. split; [apply cleanLoop_timestamps|].
  split; [intros; by apply cleanLoop_keeps_complete|]. split.
  - intros H. apply cleanLoop_complete. by apply initialPrice_truthy.
  - intros H. rewrite (initialPrice_none _ H). by apply cleanLoop_all_unset.
Qed.

(** X15.  [cleanCandleData] is idempotent: cleaning candles that have
    been cleaned changes nothing. *)
Theorem cleanCandleData_idempotent (candles : list Candle) :
  cleanCandleData (cleanCandleData candles) = cleanCandleData candles.
Proof.
  destruct (decide (Exists (fun candle => truthy (c_close candle) = true)
                           candles)) as [Hset|Hnone].
  - apply Exists_exists in Hset.
    unfold cleanCandleData at 1. apply cleanLoop_of_complete.
    unfold cleanCandleData. apply cleanLoop_complete.
    by apply initialPrice_truthy.
  - assert (forall candle, candle ∈ candles -> truthy (c_close candle) = false)
      as H.
    { intros candle Hin. destruct (truthy (c_close candle)) eqn:E; [|done].
      exfalso. apply Hnone, Exists_exists. by exists candle. }
    unfold cleanCandleData at 2 3.
    rewrite (initialPrice_none _ H), (cleanLoop_all_unset _ H).
    unfold cleanCandleData.
    assert (forall candle, candle ∈ map flatZero candles ->
                           truthy (c_close candle) = false) as H'.
    { intros candle Hin. apply list_elem_of_fmap in Hin as (c & -> & _). done. }
    rewrite (initialPrice_none _ H'), (cleanLoop_all_unset _ H').
    rewrite map_map. done.
Qed.

(** ** The drawdown guard *)

Lemma getTotalBalanceFromMarkets_returns includeReserve ms fiat e :
  exists total e1,
    getTotalBalanceFromMarkets includeReserve ms fiat e = (Return total, e1).
Proof.
  unfold getTotalBalanceFromMarkets, getTotalBalance, markets, getTickers.
  rewrite !bind_run. cbv beta iota delta [gets ret].
  rewrite !bind_run. cbv beta iota delta [gets ret].
  match goal with |- context [getBalances ?ks e] =>
    destruct (getBalances_returns ks e) as (bs & e' & -> & Hp)
  end.
  cbn. eauto.
Qed.

Lemma peak_not_lowered (total p : number) :
  is_nan p = false ->
  is_nan (max total (or_else p (Fin 0))) = false ->
  (p <=? max total (or_else p (Fin 0)))%js = true.
Proof.
  unfold max, or_else, truthy.
  destruct p as [p| | |], total as [t| | |]; cbn; try done;
    repeat (match goal with
            | |- context [Qeq_bool ?a ?b] =>
                let E := fresh "E" in destruct (Qeq_bool a b) eqn:E
            | |- context [Qle_bool ?a ?b] =>
                let E := fresh "E" in destruct (Qle_bool a b) eqn:E
            end; cbn);
    try done; intros _ _; q_hyps; try apply Qle_bool_iff; lra.
Qed.

(** X16.  [checkDrawdown] always returns.  It leaves the market state
    and maxDrawdown of the agent alone, never takes a pause back, and
    never lowers the peak: a peak that is a number is at most the peak
    afterwards, unless that one is NaN. *)
Theorem checkDrawdown_never_lowers_the_peak
    (agent : TradingAgent) (e : Exchange) :
  exists agent',
    fst (checkDrawdown agent e) = Return agent'
    /\ marketState agent' = marketState agent
    /\ maxDrawdown agent' = maxDrawdown agent
    /\ (paused agent = Some true -> paused agent' = Some true)
    /\ (forall p, peakMarketAmount agent = Some p ->
          exists p', peakMarketAmount agent' = Some p'
                     /\ (is_nan p = false -> is_nan p' = false ->
                         (p <=? p')%js = true)).
Proof.
  unfold checkDrawdown. rewrite bind_run.
  destruct (getTotalBalanceFromMarkets_returns false
              (default [] (marketState agent)) true e) as (total & e1 & ->).
  destruct total as [total|].
  2:{ exists agent. cbn. repeat split; try done. intros p Hp. exists p.
      split; [done|]. intros Hn _. destruct p; cbn in *; try done.
      apply Qle_bool_iff. lra. }
  cbv zeta. cbn [maxDrawdown marketState paused peakMarketAmount].
  assert (forall p, peakMarketAmount agent = Some p ->
            is_nan p = false ->
            is_nan (max total (opt_or_else (peakMarketAmount agent) (Fin 0)))
            = false ->
            (p <=? max total (opt_or_else (peakMarketAmount agent) (Fin 0)))%js
            = true) as Hpeak.
  { intros p ->. cbn [opt_or_else]. apply peak_not_lowered. }
  destruct (_ >? _)%js.
  - rewrite bind_run.
    destruct (getBalances_returns None e1) as (balance & e2 & -> & _).
    cbn. eexists. split; [reflexivity|]. cbn.
    repeat split; try done. intros p Hp. eexists. split; [done|]. by apply Hpeak.
  - cbn. eexists. split; [reflexivity|]. cbn.
    repeat split; try done. intros p Hp. eexists. split; [done|]. by apply Hpeak.
Qed.

(** ** Quotes and spread of the market model *)



(** ** Syncing *)

Lemma syncTickers_without_markets e :
  syncTickers None e
  = (Return (match _exchange e with None => true | Some _ => false end), e).
Proof.
  unfold syncTickers. run_body.
  destruct (_exchange e) as [r|]; [|done].
  by destruct (r_fetchTickers r None).
Qed.

(** X19.  [beforeUpdate()] called without markets returns true and
    leaves the object alone when there is no remote client; with a remote
    client it returns false, whatever the client answers, and the stored
    tickers stay as they are: the loop over the markets that checks the
    fetched tickers throws, which [syncTickers] catches. *)
Theorem beforeUpdate_without_markets (wallet : ICcxtWallet) (e : Exchange) :
  match _exchange e with
  | None => beforeUpdate wallet None e = (Return true, e)
  | Some _ =>
      fst (beforeUpdate wallet None e) = Return false
      /\ tickers (_state (snd (beforeUpdate wallet None e)))
         = tickers (_state e)
  end.
Proof.
  unfold beforeUpdate. rewrite bind_run, syncTickers_without_markets.
  unfold syncBalance. run_body.
  destruct (_exchange e) as [r|]; [|done].
  destruct (simulation (_state e)); [done|].
  destruct (r_fetchBalance wallet); done.
Qed.

(** X20.  [syncBalance] never throws.  Without a remote client or in
    simulation it returns true and leaves the object alone; when the
    remote client fails to fetch it returns false and leaves the object
    alone; otherwise it returns true, every fetched row replaces the
    stored row of its currency, and the stored rows of the currencies that
    were not fetched stay. *)
Theorem syncBalance_keeps_local_currencies
    (wallet : ICcxtWallet) (e : Exchange) :
  let out := syncBalance wallet e in
  match _exchange e, simulation (_state e), r_fetchBalance wallet with
  | None, _, _ | _, true, _ => out = (Return true, e)
  | Some _, false, None => out = (Return false, e)
  | Some _, false, Some fetched =>
      fst out = Return true
      /\ (forall c,
            balances (_state (snd out)) !! c
            = match fetched !! c with
              | Some row => Some row
              | None => balances (_state e) !! c
              end)
      /\ tickers (_state (snd out)) = tickers (_state e)
      /\ openOrders (_state (snd out)) = openOrders (_state e)
  end.
Proof.
  intros out. subst out. unfold syncBalance. run_body.
  destruct (_exchange e) as [r|]; [|done].
  destruct (simulation (_state e)); [done|].
  destruct (r_fetchBalance wallet) as [fetched|]; [|done].
  cbn. split; [done|]. split; [|done]. intros c. unfold merge.
  rewrite lookup_union. by destruct (fetched !! c), (balances (_state e) !! c).
Qed.


Lemma check_fetched_tickers (fetched : gmap string Ticker) markets e :
  let check :=
    for_each (fun market =>
                match fetched !! market with
                | None => throw ("Missing ticker for market " ++ market)
                | Some _ => ret tt
                end) markets in
  if forallb (fun market => bool_decide (is_Some (fetched !! market))) markets
  then check e = (Return tt, e)
  else exists msg, check e = (Throw msg, e).
Proof.
  cbv zeta. induction markets as [|m ms IH]; [done|].
  cbn [for_each forallb]. rewrite bind_run.
  destruct (fetched !! m) as [t|] eqn:E.
  - rewrite bool_decide_eq_true_2 by (by eexists). cbn [andb ret].
    apply IH.
  - rewrite bool_decide_eq_false_2 by (by intros [? ?]). cbn [andb throw].
    by eexists.
Qed.

(** X26.  [syncTickers(markets)] never throws and is all or nothing:
    when the remote client fetches a ticker for every market of the list,
    it returns true and the stored tickers are exactly the fetched ones;
    when the fetch fails or a market of the list has no fetched ticker, it
    returns false and leaves the object alone.  Without a remote client it
    returns true and leaves the object alone. *)
Theorem syncTickers_all_or_nothing (markets : list string) (e : Exchange) :
  let out := syncTickers (Some markets) e in
  match _exchange e with
  | None => out = (Return true, e)
  | Some remote =>
      match r_fetchTickers remote (Some markets) with
      | None => out = (Return false, e)
      | Some fetched =>
          if forallb (fun market => bool_decide (is_Some (fetched !! market)))
                     markets
          then fst out = Return true
               /\ tickers (_state (snd out)) = fetched
               /\ balances (_state (snd out)) = balances (_state e)
               /\ openOrders (_state (snd out)) = openOrders (_state e)
          else out = (Return false, e)
      end
  end.
Proof.
  intros out. subst out. unfold syncTickers.
  rewrite bind_run. cbn [get].
  destruct (_exchange e) as [remote|]; [|done].
  unfold try_catch.
  destruct (r_fetchTickers remote (Some markets)) as [fetched|]; [|done].
  rewrite bind_run.
  pose proof (check_fetched_tickers fetched markets e) as Hcheck.
  cbv zeta in Hcheck.
  destruct (forallb _ markets).
  - rewrite Hcheck. cbv beta iota delta [bind modify ret].
    cbn [fst snd _state set_state tickers set_tickers balances openOrders].
    split; [done|]. split; [apply merge_same|done].
  - destruct Hcheck as [msg ->]. done.
Qed.

(** ** The further properties at concrete inputs *)


(** X2 with a reserve of 80 set on that exchange. *)
Lemma setReserve_holds_back_witness :
  has_slash "USDT" = false
  /\ free (default zeroBalance (balances (_state Examples.reserved) !! "USDT"))
     = Fin 200
  /\ fst (getReserve "USDT" (snd (setReserve "USDT" (Fin 80) Examples.reserved)))
     = Return (or_else (Fin 80) (Fin 0)).
Proof.
  split; [reflexivity|]. split; [by vm_compute|].
  by destruct (setReserve_holds_back "USDT" Examples.reserved 200 80
                 eq_refl ltac:(by vm_compute)) as [H _].
Defined.





(** The open orders of the sticky scenario are stored under their ids and
    open. *)
Lemma well_keyed_s3 bid : well_keyed (openOrders (_state (Scenario.s3 bid))).
Proof.
  intros k o H. cbn in H. apply lookup_singleton_Some in H as [<- <-]. done.
Qed.



Lemma closed_s5_finite k o :
  closedOrders (_state Scenario.s5) !! k = Some o -> is_fin (timestamp o).
Proof.
  intros H. cbn in H. apply lookup_singleton_Some in H as [_ <-]. done.
Qed.

(** X12 on the exchange of the purge scenario, with its one closed
    order. *)
Lemma getLastClosedOrder_returns_a_latest_match_witness :
  (forall k o, closedOrders (_state Scenario.s5) !! k = Some o ->
               is_fin (timestamp o))
  /\ exists result,
       getLastClosedOrder "BTC/USDT" None None Scenario.s5
       = (Return result, Scenario.s5).
Proof.
  split; [exact closed_s5_finite|].
  destruct (getLastClosedOrder_returns_a_latest_match "BTC/USDT" None None
              Scenario.s5 closed_s5_finite) as (result & H & _).
  by exists result.
Defined.





